(** * Safeguard Mechanism emissions model: a shallow embedding

    Embedding of the calculation core of the emissions model
    ([config.py], [calc_calendar.py], [loader_nga.py], [calc_emissions.py],
    [projections.py]) together with the properties stated about it.

    Modelling conventions
    - Python floats are modelled by exact rationals [Q]; equalities between
      computed quantities are stated with [Qeq] ([==]).  Rounding of binary
      floating point is outside the model.
    - A [datetime] is a (year, month, day) triple ordered lexicographically.
    - A DataFrame is the list of its rows, in row order; a column assignment
      [df.loc[mask, c] = v] is a [map] over the rows.
    - Python dicts keyed by integers are [gmap Z _]; a dict whose iteration
      order is observed by the code is an association list.
    - Text is a [string] of one-byte characters, so [len] is the number of
      bytes; a blank (NaN) cell is [None].
    - An exception is a [Raise] result carrying the values named in its
      message; log and progress messages are not modelled. *)

From Stdlib Require Import ZArith QArith Qminmax Lqa Lia List Bool.
From Stdlib Require Import Strings.String Strings.Ascii.
From Stdlib Require Import Sorting.Sorted Sorting.Permutation.
From stdpp Require Import gmap strings list fin_maps.

Open Scope Z_scope.
Open Scope Q_scope.

(** ** Numeric helpers *)

(** Python [a < b] and [a >= b] on floats. *)
Definition Qltb (a b : Q) : bool := negb (Qle_bool b a).
Definition Qgeb (a b : Q) : bool := Qle_bool b a.

(** Python truthiness of a number: [if x:] holds exactly when [x != 0]. *)
Definition truthy (x : Q) : bool := negb (Qeq_bool x 0).

(** [sum] of a numeric column. *)
Definition Qsum (l : list Q) : Q := fold_right Qplus 0 l.

(** [range(a, b)]. *)
Definition py_range (a b : Z) : list Z :=
  map (fun i => (a + Z.of_nat i)%Z) (seq 0 (Z.to_nat (b - a))).

(** ** Dates ([datetime] values) *)

Record date := mkdate { year : Z; month : Z; day : Z }.

Definition date_ltb (a b : date) : bool :=
  (year a <? year b)%Z
  || ((year a =? year b)%Z
      && ((month a <? month b)%Z
          || ((month a =? month b)%Z && (day a <? day b)%Z))).

Definition date_eqb (a b : date) : bool :=
  (year a =? year b)%Z && (month a =? month b)%Z && (day a =? day b)%Z.

Definition date_leb (a b : date) : bool := negb (date_ltb b a).
Definition date_geb (a b : date) : bool := date_leb b a.

(** The calendar constraints every [datetime] satisfies. *)
Definition wf_date (d : date) : Prop :=
  (1 <= month d <= 12)%Z /\ (1 <= day d <= 31)%Z.

(** ** [config.py] *)

Definition NGER_FY_START_MONTH : Z := 7.

Definition FSEI_ELEC : Q := 0.9081.
Definition FSEI_ROM : Q := 0.0177.
Definition DEFAULT_INDUSTRY_EI_ROM : Q := 0.00859.
Definition DEFAULT_INDUSTRY_EI_ELEC : Q := 0.539.

Definition GRID_SITE_ELEC_DESCRIPTION : string := "Site electricity".
Definition GRID_GRID_ELEC_DESCRIPTION : string := "Grid electricity".

Definition DECLINE_RATE_PHASE1 : Q := 0.049.
Definition DECLINE_RATE_PHASE2 : Q := 0.03285.
Definition DECLINE_PHASE1_START : Z := 2024.
Definition DECLINE_PHASE1_END : Z := 2030.
Definition DECLINE_PHASE2_START : Z := 2031.
Definition DECLINE_PHASE2_END : Z := 2050.

Definition SAFEGUARD_THRESHOLD : Q := 100000.
Definition SAFEGUARD_MINIMUM_BASELINE : Q := 100000.
Definition SAFEGUARD_START_DATE : date := mkdate 2023 7 1.
Definition CREDIT_START_DATE : date := mkdate 2023 7 1.

Definition TRANSITION_SCHEDULE : gmap Z Q :=
  list_to_map
    [ (2024%Z, 0.10); (2025%Z, 0.20); (2026%Z, 0.30); (2027%Z, 0.40);
      (2028%Z, 0.60); (2029%Z, 0.80); (2030%Z, 1.00) ].

Definition get_transition_proportion (fy : Z) : Q :=
  if (fy <? DECLINE_PHASE1_START)%Z then 0.0
  else match TRANSITION_SCHEDULE !! fy with
       | Some h => h
       | None => 1.0
       end.

Definition S58B_EARLIEST_FY : Z := 2029.
Definition S58B_LOOKBACK : Z := 5.
Definition S58B_MIN_COVERED : nat := 3.

Definition DEFAULT_GRID_CONNECTION_DATE : date := mkdate 2027 7 1.

Inductive phase_name :=
| Mining | Mining_Grid | Processing | Rehabilitation | Closed.

Definition get_phase_name (d end_mining_date end_processing_date
                           end_rehabilitation_date : date)
                          (grid_connected_date : option date) : phase_name :=
  if date_leb d end_mining_date then
    match grid_connected_date with
    | Some g => if date_geb d g then Mining_Grid else Mining
    | None => Mining
    end
  else if date_leb d end_processing_date then Processing
  else if date_leb d end_rehabilitation_date then Rehabilitation
  else Closed.

Definition get_phase_name_for_date (d end_mining_date end_processing_date
                                    end_rehabilitation_date
                                    grid_connected_date : date) : phase_name :=
  get_phase_name d end_mining_date end_processing_date
                 end_rehabilitation_date (Some grid_connected_date).

(** ** [calc_calendar.py] *)

Definition date_to_fy (d : date) : Z :=
  if (NGER_FY_START_MONTH <=? month d)%Z then (year d + 1)%Z else year d.

Definition fy_to_date_range (fy : Z) : date * date :=
  (mkdate (fy - 1) NGER_FY_START_MONTH 1, mkdate fy 6 30).

(** ** [projections.py]: Section 11 baseline *)

Definition calculate_erc_for_fy (fy : Z) (decline_rate_phase2 : option Q) : Q :=
  if (fy <? DECLINE_PHASE1_START)%Z then 1.0
  else if (fy <=? DECLINE_PHASE1_END)%Z then
    let n := (fy - (DECLINE_PHASE1_START - 1))%Z in
    Qmax (1.0 - (inject_Z n * DECLINE_RATE_PHASE1)) 0.0
  else
    let phase1_years := (DECLINE_PHASE1_END - (DECLINE_PHASE1_START - 1))%Z in
    let erc_end_phase1 := 1.0 - (inject_Z phase1_years * DECLINE_RATE_PHASE1) in
    let rate_p2 := match decline_rate_phase2 with
                   | Some r => r
                   | None => DECLINE_RATE_PHASE2
                   end in
    if (fy <=? DECLINE_PHASE2_END)%Z then
      let phase2_years := (fy - DECLINE_PHASE1_END)%Z in
      Qmax (erc_end_phase1 - (inject_Z phase2_years * rate_p2)) 0.0
    else
      let phase2_total := (DECLINE_PHASE2_END - DECLINE_PHASE1_END)%Z in
      Qmax (erc_end_phase1 - (inject_Z phase2_total * rate_p2)) 0.0.

(** The piecewise definition of ERC as the specification words it
    (default phase-2 rate), to be compared with [calculate_erc_for_fy]. *)
Definition ERC_reference_upto_2050 (fy : Z) : Q :=
  if (fy <? 2024)%Z then 1.0
  else if (fy <=? 2030)%Z then Qmax (1.0 - inject_Z (fy - 2023) * 0.049) 0
  else Qmax (0.657 - inject_Z (fy - 2030) * 0.03285) 0.

Definition ERC_reference (fy : Z) : Q :=
  if (fy <=? 2050)%Z then ERC_reference_upto_2050 fy
  else ERC_reference_upto_2050 2050.

Definition calculate_hybrid_ei_with (fy : Z) (fsei_rom fsei_elec
                                     default_ei_rom default_ei_elec : Q) : Q * Q :=
  let h := get_transition_proportion fy in
  let hybrid_rom := (h * default_ei_rom) + ((1 - h) * fsei_rom) in
  let hybrid_elec := (h * default_ei_elec) + ((1 - h) * fsei_elec) in
  (hybrid_rom, hybrid_elec).

(** [calculate_hybrid_ei] with its default keyword arguments, as every
    caller in [projections.py] invokes it. *)
Definition calculate_hybrid_ei (fy : Z) (fsei_rom fsei_elec : Q) : Q * Q :=
  calculate_hybrid_ei_with fy fsei_rom fsei_elec
                           DEFAULT_INDUSTRY_EI_ROM DEFAULT_INDUSTRY_EI_ELEC.

Definition calculate_annual_baseline (fy : Z) (rom_t site_mwh fsei_rom fsei_elec : Q)
                                     (decline_rate_phase2 : option Q) : Q * Q :=
  let erc := calculate_erc_for_fy fy decline_rate_phase2 in
  let '(hybrid_rom, hybrid_elec) := calculate_hybrid_ei fy fsei_rom fsei_elec in
  let unfloored := erc * ((hybrid_rom * rom_t) + (hybrid_elec * site_mwh)) in
  let floored := Qmax unfloored SAFEGUARD_MINIMUM_BASELINE in
  (floored, unfloored).

(** ** Table helpers (pandas / Python built-ins) *)

(** [Series.unique()]: the distinct values in order of first appearance. *)
Fixpoint unique_from `{EqDecision A} (seen l : list A) : list A :=
  match l with
  | [] => []
  | x :: l' =>
      if decide (x ∈ seen) then unique_from seen l'
      else x :: unique_from (x :: seen) l'
  end.

Definition unique `{EqDecision A} (l : list A) : list A := unique_from [] l.

(** [sorted(l, key=...)]: a stable sort; [leb a b] is [key(a) <= key(b)]. *)
Fixpoint insert_sorted {A} (leb : A -> A -> bool) (x : A) (l : list A) : list A :=
  match l with
  | [] => [x]
  | y :: l' => if leb x y then x :: y :: l' else y :: insert_sorted leb x l'
  end.

Definition py_sorted {A} (leb : A -> A -> bool) (l : list A) : list A :=
  fold_right (insert_sorted leb) [] l.

(** [d[k] = v] on a dict whose insertion order matters. *)
Fixpoint dict_set {V} (k : string) (v : V) (d : list (string * V)) : list (string * V) :=
  match d with
  | [] => [(k, v)]
  | (k', v') :: d' =>
      if String.eqb k' k then (k, v) :: d' else (k', v') :: dict_set k v d'
  end.

Fixpoint dict_get {V} (k : string) (d : list (string * V)) : option V :=
  match d with
  | [] => None
  | (k', v') :: d' => if String.eqb k' k then Some v' else dict_get k d'
  end.

Definition dict_keys {V} (d : list (string * V)) : list string := map fst d.

(** [s.startswith(p)]. *)
Definition startswith (s p : string) : bool := String.prefix p s.

(** ** [loader_nga.py]: the factor store *)

Module NGA.

(** One row of [nga_factors.csv]; [None] stands for a blank (NaN) cell. *)
Record row := mkrow {
  NGA_Year : Z;
  Fuel_Name : string;
  Scope : Z;
  EF_kgCO2e_per_unit : Q;
  EF_Unit : option string;
  Energy_Content : option Q;
  Energy_Unit : option string;
  State : option string
}.

(** The dict returned by [match_fuel_factor]. *)
Record factor := mkfactor {
  f_EF_kgCO2e_per_unit : Q;
  f_EF_Unit : string;
  f_Energy_Content : option Q;
  f_Energy_Unit : string;
  f_Fuel_Name : string
}.

(** The state of an [NGAFactorsByYear] instance. *)
Record store := mkstore {
  df : list row;
  available_years : list Z;
  _fuel_names_by_year : gmap Z (list string)
}.

End NGA.

Definition len_leb (a b : string) : bool :=
  (String.length a <=? String.length b)%nat.

(** [NGAFactorsByYear._load], after the CSV has been read into [df]. *)
Definition _load (df : list NGA.row) : NGA.store :=
  let available_years := py_sorted Z.leb (unique (map NGA.NGA_Year df)) in
  let names_by_year :=
    fold_left
      (fun (acc : gmap Z (list string)) year =>
         let ydf := List.filter (fun r => (NGA.NGA_Year r =? year)%Z) df in
         let names := py_sorted len_leb (unique (map NGA.Fuel_Name ydf)) in
         <[year := names]> acc)
      available_years ∅ in
  NGA.mkstore df available_years names_by_year.

Fixpoint first_startswith (names : list string) (prefix : string) : option string :=
  match names with
  | [] => None
  | name :: names' =>
      if startswith name prefix then Some name
      else first_startswith names' prefix
  end.

Definition _resolve_fuel_name (self : NGA.store) (year : Z) (prefix : string)
  : option string :=
  let names := default [] (NGA._fuel_names_by_year self !! year) in
  if bool_decide (prefix ∈ names) then Some prefix
  else first_startswith names prefix.

(** [min(l)], [max(l)] and [min(l, key=...)] on a non-empty list of years;
    among equal keys the first element wins. *)
Definition list_min (x : Z) (l : list Z) : Z := fold_left Z.min l x.
Definition list_max (x : Z) (l : list Z) : Z := fold_left Z.max l x.
Definition min_by_key (key : Z -> Z) (x : Z) (l : list Z) : Z :=
  fold_left (fun best y => if (key y <? key best)%Z then y else best) l x.

Definition _resolve_year (self : NGA.store) (year : Z) : option Z :=
  if bool_decide (year ∈ NGA.available_years self) then Some year
  else match NGA.available_years self with
       | [] => None
       | y0 :: ys =>
           if (year <? list_min y0 ys)%Z then Some (list_min y0 ys)
           else if (list_max y0 ys <? year)%Z then Some (list_max y0 ys)
           else Some (min_by_key (fun y => Z.abs (y - year)) y0 ys)
       end.

(** A blank [State] cell: NaN or the empty string. *)
Definition state_blank (s : option string) : bool :=
  match s with
  | None => true
  | Some s => String.eqb s ""
  end.

Definition state_is (s : option string) (state : string) : bool :=
  match s with
  | None => false
  | Some s => String.eqb s state
  end.

Definition match_fuel_factor (self : NGA.store) (year : Z) (nga_fuel_prefix : string)
                             (scope : Z) (state : string) : option NGA.factor :=
  match _resolve_year self year with
  | None => None
  | Some year =>
      match _resolve_fuel_name self year nga_fuel_prefix with
      | None => None
      | Some full_name =>
          let mask (r : NGA.row) :=
            (NGA.NGA_Year r =? year)%Z
            && String.eqb (NGA.Fuel_Name r) full_name
            && (NGA.Scope r =? scope)%Z
            && (if negb (String.eqb state "")
                then state_is (NGA.State r) state
                else state_blank (NGA.State r)) in
          match List.filter mask (NGA.df self) with
          | [] => None
          | r :: _ =>
              Some (NGA.mkfactor
                      (NGA.EF_kgCO2e_per_unit r)
                      (default "" (NGA.EF_Unit r))
                      (NGA.Energy_Content r)
                      (default "" (NGA.Energy_Unit r))
                      full_name)
          end
      end
  end.

Definition get_electricity_factor (self : NGA.store) (year : Z) (state : string)
                                  (scope : Z) : option Q :=
  match match_fuel_factor self year "Grid electricity" scope state with
  | None => None
  | Some result => Some (NGA.f_EF_kgCO2e_per_unit result)
  end.

(** [str.strip()] on ASCII text: white space is 9-13, 28-31 and 32. *)
Definition is_space (c : ascii) : bool :=
  let n := nat_of_ascii c in
  ((9 <=? n) && (n <=? 13) || (28 <=? n) && (n <=? 32))%nat.

Fixpoint lstrip (s : string) : string :=
  match s with
  | EmptyString => EmptyString
  | String c s' => if is_space c then lstrip s' else s
  end.

Fixpoint rstrip (s : string) : string :=
  match s with
  | EmptyString => EmptyString
  | String c s' =>
      match rstrip s' with
      | EmptyString => if is_space c then EmptyString else String c EmptyString
      | t => String c t
      end
  end.

Definition strip (s : string) : string := rstrip (lstrip s).

(** [s.split('/')[-1]] when ['/'] occurs in [s]; [None] when it does not. *)
Fixpoint after_last_slash (s : string) : option string :=
  match s with
  | EmptyString => None
  | String c s' =>
      match after_last_slash s' with
      | Some t => Some t
      | None => if Ascii.eqb c "/" then Some s' else None
      end
  end.

Definition expected_uom (ef_unit : string) : string :=
  match after_last_slash ef_unit with
  | Some t => strip t
  | None => ""
  end.

(** ** [calc_emissions.py] *)

(** The exceptions raised by the factor-map builder, with the values
    interpolated into their messages. *)
Inductive exn :=
| ValueError_no_scope1_factor (prefix : string) (year : Z) (available_years : list Z)
| ValueError_no_electricity_scope2 (state : string) (year : Z).

Inductive result (A : Type) :=
| Ok (a : A)
| Raise (e : exn).
Arguments Ok {A} a.
Arguments Raise {A} e.

Definition bind {A B} (m : result A) (k : A -> result B) : result B :=
  match m with
  | Ok a => k a
  | Raise e => Raise e
  end.

Notation "'try!' x <- m ; k" := (bind m (fun x => k))
  (at level 10, x name, m at level 100, k at level 200).

(** The bundle stored per factor key. *)
Record factors := mkfactors {
  s1 : Q;
  s2 : Q;
  s3 : Q;
  energy : Q;
  f_expected_uom : string
}.

Definition FUEL_PREFIXES : list string :=
  [ "Diesel oil-Cars and light commercial vehicles";
    "Diesel oil";
    "Liquefied petroleum gas (LPG)";
    "Petroleum based oils";
    "Petroleum based greases";
    "Gaseous fossil fuels other than" ].

(** The inner [for prefix in FUEL_PREFIXES] loop for one year. *)
Fixpoint fuel_factors_loop (nga_by_year : NGA.store) (year : Z)
                           (prefixes : list string)
                           (year_factors : list (string * factors))
  : result (list (string * factors)) :=
  match prefixes with
  | [] => Ok year_factors
  | prefix :: rest =>
      let s1 := match_fuel_factor nga_by_year year prefix 1 "" in
      let s3 := match_fuel_factor nga_by_year year prefix 3 "" in
      match s1 with
      | None =>
          Raise (ValueError_no_scope1_factor
                   prefix year (NGA.available_years nga_by_year))
      | Some s1 =>
          let energy_per_unit := default 0 (NGA.f_Energy_Content s1) in
          let expected_uom := expected_uom (NGA.f_EF_Unit s1) in
          fuel_factors_loop nga_by_year year rest
            (dict_set prefix
               (mkfactors (NGA.f_EF_kgCO2e_per_unit s1)
                          0
                          (match s3 with
                           | Some s3 => NGA.f_EF_kgCO2e_per_unit s3
                           | None => 0
                           end)
                          energy_per_unit
                          expected_uom)
               year_factors)
      end
  end.

(** The body of [for year in unique_years]. *)
Definition year_factors_for (nga_by_year : NGA.store) (year : Z) (state : string)
  : result (list (string * factors)) :=
  try! year_factors <- fuel_factors_loop nga_by_year year FUEL_PREFIXES [];
  let s2 := get_electricity_factor nga_by_year year state 2 in
  let s3 := get_electricity_factor nga_by_year year state 3 in
  match s2 with
  | None => Raise (ValueError_no_electricity_scope2 state year)
  | Some s2 =>
      Ok (dict_set "Grid electricity"
            (mkfactors 0 s2 (default 0 s3) 0.0036 "kWh")
            year_factors)
  end.

Fixpoint build_year_factor_map_loop (nga_by_year : NGA.store)
                                    (unique_years : list Z) (state : string)
                                    (factor_map : gmap Z (list (string * factors)))
  : result (gmap Z (list (string * factors))) :=
  match unique_years with
  | [] => Ok factor_map
  | year :: rest =>
      try! year_factors <- year_factors_for nga_by_year year state;
      build_year_factor_map_loop nga_by_year rest state
                                 (<[year := year_factors]> factor_map)
  end.

Definition build_year_factor_map (nga_by_year : NGA.store)
                                 (unique_years : list Z) (state : string)
  : result (gmap Z (list (string * factors))) :=
  build_year_factor_map_loop nga_by_year unique_years state ∅.

(** Rows of the consolidated ledger (the columns the calculation reads or
    writes); [None] stands for a blank (NaN) cell. *)
Module Ledger.

Record row := mkrow {
  Date : date;
  DataSet : string;
  Description : option string;
  CostCentre : string;
  UOM : string;
  NGAFuel : option string;
  Quantity : Q;
  FY : Z;
  Scope1_tCO2e : Q;
  Scope2_tCO2e : Q;
  Scope3_tCO2e : Q;
  Energy_GJ : Q
}.

Definition set_Scope1_tCO2e (v : Q) (r : row) : row :=
  mkrow (Date r) (DataSet r) (Description r) (CostCentre r) (UOM r) (NGAFuel r)
        (Quantity r) (FY r) v (Scope2_tCO2e r) (Scope3_tCO2e r) (Energy_GJ r).
Definition set_Scope2_tCO2e (v : Q) (r : row) : row :=
  mkrow (Date r) (DataSet r) (Description r) (CostCentre r) (UOM r) (NGAFuel r)
        (Quantity r) (FY r) (Scope1_tCO2e r) v (Scope3_tCO2e r) (Energy_GJ r).
Definition set_Scope3_tCO2e (v : Q) (r : row) : row :=
  mkrow (Date r) (DataSet r) (Description r) (CostCentre r) (UOM r) (NGAFuel r)
        (Quantity r) (FY r) (Scope1_tCO2e r) (Scope2_tCO2e r) v (Energy_GJ r).
Definition set_Energy_GJ (v : Q) (r : row) : row :=
  mkrow (Date r) (DataSet r) (Description r) (CostCentre r) (UOM r) (NGAFuel r)
        (Quantity r) (FY r) (Scope1_tCO2e r) (Scope2_tCO2e r) (Scope3_tCO2e r) v.

End Ledger.

(** [df.loc[mask, col] = value]: a masked, row-wise column assignment. *)
Definition loc_assign {R} (mask : R -> bool) (assign : R -> R) (df : list R) : list R :=
  map (fun r => if mask r then assign r else r) df.

(** [has_fuel]: the tag is neither NaN nor empty. *)
Definition has_fuel (r : Ledger.row) : bool :=
  match Ledger.NGAFuel r with
  | Some s => negb (String.eqb s "")
  | None => false
  end.

(** [has_fuel & (agg_df['NGAFuel'] == nga_fuel)]. *)
Definition fuel_mask (nga_fuel : string) (r : Ledger.row) : bool :=
  has_fuel r
  && match Ledger.NGAFuel r with
     | Some s => String.eqb s nga_fuel
     | None => false
     end.

(** [max(prefixes, key=lambda x: x[1])[0]]: the first key of maximal length. *)
Fixpoint longest_from (best : string) (l : list string) : string :=
  match l with
  | [] => best
  | k :: l' =>
      if (String.length best <? String.length k)%nat then longest_from k l'
      else longest_from best l'
  end.

(** Matching a ledger tag to a factor key: exact, then the longest key that
    is a prefix of the tag, then the first key the tag is a prefix of. *)
Definition resolve_factor_key (year_factors : list (string * factors))
                              (nga_fuel : string) : option string :=
  if bool_decide (nga_fuel ∈ dict_keys year_factors) then Some nga_fuel
  else
    match List.filter (fun k => startswith nga_fuel k) (dict_keys year_factors) with
    | k :: ks => Some (longest_from k ks)
    | [] =>
        match List.filter (fun k => startswith k nga_fuel) (dict_keys year_factors) with
        | k :: _ => Some k
        | [] => None
        end
    end.

(** The four guarded assignments for the rows of one fuel and one year. *)
Definition apply_factors (yf : factors) (ymask : Ledger.row -> bool)
                         (agg_df : list Ledger.row) : list Ledger.row :=
  let agg_df :=
    if truthy (s1 yf)
    then loc_assign ymask
           (fun r => Ledger.set_Scope1_tCO2e (Ledger.Quantity r * s1 yf / 1000) r) agg_df
    else agg_df in
  let agg_df :=
    if truthy (s2 yf)
    then loc_assign ymask
           (fun r => Ledger.set_Scope2_tCO2e (Ledger.Quantity r * s2 yf / 1000) r) agg_df
    else agg_df in
  let agg_df :=
    if truthy (s3 yf)
    then loc_assign ymask
           (fun r => Ledger.set_Scope3_tCO2e (Ledger.Quantity r * s3 yf / 1000) r) agg_df
    else agg_df in
  if truthy (energy yf)
  then loc_assign ymask
         (fun r => Ledger.set_Energy_GJ (Ledger.Quantity r * energy yf) r) agg_df
  else agg_df.

(** Body of [for year in agg_df.loc[mask, fy_col].unique()]. *)
Definition year_step (year_factor_map : gmap Z (list (string * factors)))
                     (fy_col : Ledger.row -> Z) (nga_fuel factor_key : string)
                     (agg_df : list Ledger.row) (year : Z) : list Ledger.row :=
  let ymask r := fuel_mask nga_fuel r && (fy_col r =? year)%Z in
  if negb (existsb ymask agg_df) then agg_df
  else
    match dict_get factor_key (default [] (year_factor_map !! year)) with
    | None => agg_df
    | Some yf => apply_factors yf ymask agg_df
    end.

(** The factor key chosen for a tag: resolved once per tag, against the
    factors of the year of the first row carrying the tag. *)
Definition resolved_key (year_factor_map : gmap Z (list (string * factors)))
                        (fy_col : Ledger.row -> Z) (agg_df : list Ledger.row)
                        (nga_fuel : string) : option string :=
  match List.filter (fuel_mask nga_fuel) agg_df with
  | [] => None
  | first :: _ =>
      let sample_year := fy_col first in
      match year_factor_map !! sample_year with
      | None => None
      | Some year_factors => resolve_factor_key year_factors nga_fuel
      end
  end.

(** Body of [for nga_fuel in fuel_values]. *)
Definition fuel_step (year_factor_map : gmap Z (list (string * factors)))
                     (fy_col : Ledger.row -> Z)
                     (agg_df : list Ledger.row) (nga_fuel : string) : list Ledger.row :=
  match resolved_key year_factor_map fy_col agg_df nga_fuel with
  | None => agg_df
  | Some factor_key =>
      fold_left (year_step year_factor_map fy_col nga_fuel factor_key)
                (unique (map fy_col (List.filter (fuel_mask nga_fuel) agg_df)))
                agg_df
  end.

Definition init_emissions (r : Ledger.row) : Ledger.row :=
  Ledger.set_Energy_GJ 0.0
    (Ledger.set_Scope3_tCO2e 0.0
       (Ledger.set_Scope2_tCO2e 0.0 (Ledger.set_Scope1_tCO2e 0.0 r))).

(** [apply_emissions_to_df]; the unit-of-measure check only writes to the
    log and is left out. *)
Definition apply_emissions_to_df (agg_df : list Ledger.row)
                                 (year_factor_map : gmap Z (list (string * factors)))
                                 (fy_col : Ledger.row -> Z) : list Ledger.row :=
  let agg_df := map init_emissions agg_df in
  if negb (existsb has_fuel agg_df) then agg_df
  else
    let fuel_values :=
      unique (omap Ledger.NGAFuel (List.filter has_fuel agg_df)) in
    fold_left (fuel_step year_factor_map fy_col) fuel_values agg_df.

(** ** [projections.py]: monthly aggregation *)

#[global] Instance date_eq_dec : EqDecision date.
Proof. solve_decision. Defined.

(** One row of the monthly summary. *)
Module Monthly.

Record row := mkrow {
  Date : date;
  Scope1_tCO2e : Q;
  Scope2_tCO2e : Q;
  Scope3_tCO2e : Q;
  ROM_t : Q;
  Site_Electricity_kWh : Q;
  Grid_Electricity_kWh : Q
}.

Definition columns : list string :=
  [ "Date"; "Scope1_tCO2e"; "Scope2_tCO2e"; "Scope3_tCO2e";
    "ROM_t"; "Site_Electricity_kWh"; "Grid_Electricity_kWh" ].

End Monthly.

Definition lower_ascii (c : ascii) : ascii :=
  let n := nat_of_ascii c in
  if ((65 <=? n) && (n <=? 90))%nat then ascii_of_nat (n + 32) else c.

Fixpoint lower (s : string) : string :=
  match s with
  | EmptyString => EmptyString
  | String c s' => String (lower_ascii c) (lower s')
  end.

Fixpoint contains (s pat : string) : bool :=
  String.prefix pat s
  || match s with
     | EmptyString => false
     | String _ s' => contains s' pat
     end.

(** [Series.str.contains(pat, case=False, na=False)] for a literal pattern. *)
Definition str_contains_nocase (s : option string) (pat : string) : bool :=
  match s with
  | None => false
  | Some s => contains (lower s) (lower pat)
  end.

(** The group keys of [df.groupby('Date')]: distinct dates, ascending. *)
Definition group_dates {R} (key : R -> date) (df : list R) : list date :=
  py_sorted date_leb (unique (map key df)).

(** [df.groupby('Date')[col].sum().reset_index()]. *)
Definition groupby_date_sum {R} (key : R -> date) (val : R -> Q) (df : list R)
  : list (date * Q) :=
  map (fun d => (d, Qsum (map val (List.filter (fun r => date_eqb (key r) d) df))))
      (group_dates key df).

(** The right-hand value joined to a left row by [merge(on='Date', how='left')]
    when the right keys are distinct; [None] is the NaN of an unmatched row. *)
Fixpoint merge_left_value (d : date) (right : list (date * Q)) : option Q :=
  match right with
  | [] => None
  | (d', v) :: right' => if date_eqb d' d then Some v else merge_left_value d right'
  end.

Definition fillna (v : Q) (x : option Q) : Q := default v x.

Definition description_is (desc : string) (r : Ledger.row) : bool :=
  match Ledger.Description r with
  | Some s => String.eqb s desc
  | None => false
  end.

(** ROM tonnes: CostCentre == 'ROM' with ore grade descriptions. *)
Definition rom_mask (r : Ledger.row) : bool :=
  String.eqb (Ledger.CostCentre r) "ROM"
  && str_contains_nocase (Ledger.Description r) "Ore".

Definition aggregate_to_monthly (monthly : list Ledger.row) : list Monthly.row :=
  let rom_data :=
    groupby_date_sum Ledger.Date Ledger.Quantity (List.filter rom_mask monthly) in
  let site_elec :=
    groupby_date_sum Ledger.Date Ledger.Quantity
      (List.filter (description_is GRID_SITE_ELEC_DESCRIPTION) monthly) in
  let grid_elec :=
    groupby_date_sum Ledger.Date Ledger.Quantity
      (List.filter (description_is GRID_GRID_ELEC_DESCRIPTION) monthly) in
  let emissions :=
    map (fun d =>
           let grp := List.filter (fun r => date_eqb (Ledger.Date r) d) monthly in
           (d, (Qsum (map Ledger.Scope1_tCO2e grp),
                Qsum (map Ledger.Scope2_tCO2e grp),
                Qsum (map Ledger.Scope3_tCO2e grp))))
        (group_dates Ledger.Date monthly) in
  map (fun '(d, (e1, e2, e3)) =>
         Monthly.mkrow d e1 e2 e3
           (fillna 0 (merge_left_value d rom_data))
           (fillna 0 (merge_left_value d site_elec))
           (fillna 0 (merge_left_value d grid_elec)))
      emissions.

(** ** [projections.py]: safeguard metrics *)

Inductive smc_phase := Pre_Safeguard | Safeguard | Gap | Opt_In | Exited.

#[global] Instance smc_phase_eq_dec : EqDecision smc_phase.
Proof. solve_decision. Defined.

(** One row of the table built by [calculate_safeguard_metrics].  A column
    that the code has not created yet holds a placeholder, overwritten by the
    assignment that creates it; [_fy] is the temporary column dropped at the
    end. *)
Module Metrics.

Record row := mkrow {
  Date : date;
  Scope1_tCO2e : Q;
  Scope2_tCO2e : Q;
  Scope3_tCO2e : Q;
  ROM_t : Q;
  Site_Electricity_kWh : Q;
  Grid_Electricity_kWh : Q;
  Phase : phase_name;
  Emission_Intensity : Q;
  _fy : Z;
  Baseline : Q;
  Baseline_Unfloored : Q;
  Baseline_Intensity : Q;
  Intensity_Excess : Q;
  In_Safeguard : bool;
  SMC_Monthly : Q;
  SMC_Phase : smc_phase;
  Exit_FY : option Z;
  SMC_Cumulative : Q
}.

Definition set_Phase (v : phase_name) (r : row) : row :=
  mkrow (Date r) (Scope1_tCO2e r) (Scope2_tCO2e r) (Scope3_tCO2e r) (ROM_t r)
        (Site_Electricity_kWh r) (Grid_Electricity_kWh r) v (Emission_Intensity r)
        (_fy r) (Baseline r) (Baseline_Unfloored r) (Baseline_Intensity r)
        (Intensity_Excess r) (In_Safeguard r) (SMC_Monthly r) (SMC_Phase r)
        (Exit_FY r) (SMC_Cumulative r).
Definition set_Emission_Intensity (v : Q) (r : row) : row :=
  mkrow (Date r) (Scope1_tCO2e r) (Scope2_tCO2e r) (Scope3_tCO2e r) (ROM_t r)
        (Site_Electricity_kWh r) (Grid_Electricity_kWh r) (Phase r) v (_fy r)
        (Baseline r) (Baseline_Unfloored r) (Baseline_Intensity r)
        (Intensity_Excess r) (In_Safeguard r) (SMC_Monthly r) (SMC_Phase r)
        (Exit_FY r) (SMC_Cumulative r).
Definition set__fy (v : Z) (r : row) : row :=
  mkrow (Date r) (Scope1_tCO2e r) (Scope2_tCO2e r) (Scope3_tCO2e r) (ROM_t r)
        (Site_Electricity_kWh r) (Grid_Electricity_kWh r) (Phase r)
        (Emission_Intensity r) v (Baseline r) (Baseline_Unfloored r)
        (Baseline_Intensity r) (Intensity_Excess r) (In_Safeguard r) (SMC_Monthly r)
        (SMC_Phase r) (Exit_FY r) (SMC_Cumulative r).
Definition set_Baseline (v : Q) (r : row) : row :=
  mkrow (Date r) (Scope1_tCO2e r) (Scope2_tCO2e r) (Scope3_tCO2e r) (ROM_t r)
        (Site_Electricity_kWh r) (Grid_Electricity_kWh r) (Phase r)
        (Emission_Intensity r) (_fy r) v (Baseline_Unfloored r) (Baseline_Intensity r)
        (Intensity_Excess r) (In_Safeguard r) (SMC_Monthly r) (SMC_Phase r)
        (Exit_FY r) (SMC_Cumulative r).
Definition set_Baseline_Unfloored (v : Q) (r : row) : row :=
  mkrow (Date r) (Scope1_tCO2e r) (Scope2_tCO2e r) (Scope3_tCO2e r) (ROM_t r)
        (Site_Electricity_kWh r) (Grid_Electricity_kWh r) (Phase r)
        (Emission_Intensity r) (_fy r) (Baseline r) v (Baseline_Intensity r)
        (Intensity_Excess r) (In_Safeguard r) (SMC_Monthly r) (SMC_Phase r)
        (Exit_FY r) (SMC_Cumulative r).
Definition set_Baseline_Intensity (v : Q) (r : row) : row :=
  mkrow (Date r) (Scope1_tCO2e r) (Scope2_tCO2e r) (Scope3_tCO2e r) (ROM_t r)
        (Site_Electricity_kWh r) (Grid_Electricity_kWh r) (Phase r)
        (Emission_Intensity r) (_fy r) (Baseline r) (Baseline_Unfloored r) v
        (Intensity_Excess r) (In_Safeguard r) (SMC_Monthly r) (SMC_Phase r)
        (Exit_FY r) (SMC_Cumulative r).
Definition set_Intensity_Excess (v : Q) (r : row) : row :=
  mkrow (Date r) (Scope1_tCO2e r) (Scope2_tCO2e r) (Scope3_tCO2e r) (ROM_t r)
        (Site_Electricity_kWh r) (Grid_Electricity_kWh r) (Phase r)
        (Emission_Intensity r) (_fy r) (Baseline r) (Baseline_Unfloored r)
        (Baseline_Intensity r) v (In_Safeguard r) (SMC_Monthly r) (SMC_Phase r)
        (Exit_FY r) (SMC_Cumulative r).
Definition set_In_Safeguard (v : bool) (r : row) : row :=
  mkrow (Date r) (Scope1_tCO2e r) (Scope2_tCO2e r) (Scope3_tCO2e r) (ROM_t r)
        (Site_Electricity_kWh r) (Grid_Electricity_kWh r) (Phase r)
        (Emission_Intensity r) (_fy r) (Baseline r) (Baseline_Unfloored r)
        (Baseline_Intensity r) (Intensity_Excess r) v (SMC_Monthly r) (SMC_Phase r)
        (Exit_FY r) (SMC_Cumulative r).
Definition set_SMC_Monthly (v : Q) (r : row) : row :=
  mkrow (Date r) (Scope1_tCO2e r) (Scope2_tCO2e r) (Scope3_tCO2e r) (ROM_t r)
        (Site_Electricity_kWh r) (Grid_Electricity_kWh r) (Phase r)
        (Emission_Intensity r) (_fy r) (Baseline r) (Baseline_Unfloored r)
        (Baseline_Intensity r) (Intensity_Excess r) (In_Safeguard r) v (SMC_Phase r)
        (Exit_FY r) (SMC_Cumulative r).
Definition set_SMC_Phase (v : smc_phase) (r : row) : row :=
  mkrow (Date r) (Scope1_tCO2e r) (Scope2_tCO2e r) (Scope3_tCO2e r) (ROM_t r)
        (Site_Electricity_kWh r) (Grid_Electricity_kWh r) (Phase r)
        (Emission_Intensity r) (_fy r) (Baseline r) (Baseline_Unfloored r)
        (Baseline_Intensity r) (Intensity_Excess r) (In_Safeguard r) (SMC_Monthly r) v
        (Exit_FY r) (SMC_Cumulative r).
Definition set_Exit_FY (v : option Z) (r : row) : row :=
  mkrow (Date r) (Scope1_tCO2e r) (Scope2_tCO2e r) (Scope3_tCO2e r) (ROM_t r)
        (Site_Electricity_kWh r) (Grid_Electricity_kWh r) (Phase r)
        (Emission_Intensity r) (_fy r) (Baseline r) (Baseline_Unfloored r)
        (Baseline_Intensity r) (Intensity_Excess r) (In_Safeguard r) (SMC_Monthly r)
        (SMC_Phase r) v (SMC_Cumulative r).
Definition set_SMC_Cumulative (v : Q) (r : row) : row :=
  mkrow (Date r) (Scope1_tCO2e r) (Scope2_tCO2e r) (Scope3_tCO2e r) (ROM_t r)
        (Site_Electricity_kWh r) (Grid_Electricity_kWh r) (Phase r)
        (Emission_Intensity r) (_fy r) (Baseline r) (Baseline_Unfloored r)
        (Baseline_Intensity r) (Intensity_Excess r) (In_Safeguard r) (SMC_Monthly r)
        (SMC_Phase r) (Exit_FY r) v.

(** [monthly.copy()], before any column is added. *)
Definition of_monthly (m : Monthly.row) : row :=
  mkrow (Monthly.Date m) (Monthly.Scope1_tCO2e m) (Monthly.Scope2_tCO2e m)
        (Monthly.Scope3_tCO2e m) (Monthly.ROM_t m)
        (Monthly.Site_Electricity_kWh m) (Monthly.Grid_Electricity_kWh m)
        Closed 0 0%Z 0 0 0 0 false 0 Pre_Safeguard None 0.

(** A DataFrame: its column labels and its rows. *)
Record table := mktable { columns : list string; rows : list row }.

End Metrics.

(** [df[col] = ...] for a whole column. *)
Definition assign_all {R} (assign : R -> R) (df : list R) : list R := map assign df.

(** [df.groupby('_fy')[col].sum()] read at [fy]. *)
Definition fy_sum (val : Metrics.row -> Q) (df : list Metrics.row) (fy : Z) : Q :=
  Qsum (map val (List.filter (fun r => (Metrics._fy r =? fy)%Z) df)).

(** [sorted(result['_fy'].unique())]. *)
Definition fy_index (df : list Metrics.row) : list Z :=
  py_sorted Z.leb (unique (map Metrics._fy df)).

(** A month's production weight within fiscal year [fy]. *)
Definition month_total (fy : Z) (fsei_rom fsei_elec : Q) (r : Metrics.row) : Q :=
  let '(hybrid_rom, hybrid_elec) := calculate_hybrid_ei fy fsei_rom fsei_elec in
  let month_rom_contrib := Metrics.ROM_t r * hybrid_rom in
  let month_elec_contrib := (Metrics.Site_Electricity_kWh r / 1000) * hybrid_elec in
  month_rom_contrib + month_elec_contrib.

(** Body of the distribution loops: one (fy, annual value) item written to
    the months of [fy] in the column set by [set]. *)
Definition distribute_step (set : Q -> Metrics.row -> Metrics.row)
                           (fsei_rom fsei_elec : Q)
                           (result : list Metrics.row) (item : Z * Q)
  : list Metrics.row :=
  let '(fy, annual_baseline) := item in
  let fy_mask r := (Metrics._fy r =? fy)%Z in
  let fy_rows := List.filter fy_mask result in
  if (length fy_rows =? 0)%nat then result
  else
    let total_weight := Qsum (map (month_total fy fsei_rom fsei_elec) fy_rows) in
    if Qltb 0 total_weight then
      loc_assign fy_mask
        (fun r => set ((month_total fy fsei_rom fsei_elec r / total_weight)
                       * annual_baseline) r)
        result
    else
      let n_months := inject_Z (Z.of_nat (length fy_rows)) in
      loc_assign fy_mask (fun r => set (annual_baseline / n_months) r) result.

(** The s58B classification of one fiscal year. *)
Definition classify_fy (fy_scope1 : Z -> Q) (covered_fys : gset Z)
                       (credit_start_date : date) (fy : Z) : smc_phase :=
  let fy_start := fst (fy_to_date_range fy) in
  if date_ltb fy_start credit_start_date then Pre_Safeguard
  else if Qgeb (fy_scope1 fy) SAFEGUARD_THRESHOLD then Safeguard
  else
    let lookback_fys := py_range (fy - S58B_LOOKBACK) fy in
    let covered_count :=
      length (List.filter (fun y => bool_decide (y ∈ covered_fys)) lookback_fys) in
    if (S58B_EARLIEST_FY <=? fy)%Z && (S58B_MIN_COVERED <=? covered_count)%nat
    then Opt_In
    else
      let any_prior_coverage :=
        existsb (fun y => bool_decide (y ∈ covered_fys)) (py_range 2024 fy) in
      if any_prior_coverage && (S58B_EARLIEST_FY <=? fy)%Z
         && (covered_count <? S58B_MIN_COVERED)%nat
      then Exited
      else Gap.

Definition find_exit_date (monthly : list Metrics.row) (safeguard_start_date : date)
  : option date :=
  let _fy_exit r := date_to_fy (Metrics.Date r) in
  let annual_scope1 fy :=
    Qsum (map Metrics.Scope1_tCO2e
              (List.filter (fun r => (_fy_exit r =? fy)%Z) monthly)) in
  let exit_fy :=
    fold_left
      (fun (exit_fy : option Z) (fy : Z) =>
         if (fy <? date_to_fy safeguard_start_date)%Z then exit_fy
         else if Qltb (annual_scope1 fy) SAFEGUARD_THRESHOLD then
           match exit_fy with
           | None => Some fy
           | Some _ => exit_fy
           end
         else None)
      (py_sorted Z.leb (unique (map _fy_exit monthly))) None in
  match exit_fy with
  | Some fy => if (fy =? 0)%Z then None else Some (fst (fy_to_date_range fy))
  | None => None
  end.

(** [result['SMC_Cumulative'] = result['SMC_Monthly'].cumsum()]. *)
Fixpoint cumsum_from (acc : Q) (df : list Metrics.row) : list Metrics.row :=
  match df with
  | [] => []
  | r :: df' =>
      let acc' := acc + Metrics.SMC_Monthly r in
      Metrics.set_SMC_Cumulative acc' r :: cumsum_from acc' df'
  end.

(** The blocks of [calculate_safeguard_metrics], in source order. *)

(** Phase labels. *)
Definition assign_phase_labels (end_mining_date end_processing_date
                                end_rehabilitation_date : date)
                               (result : list Metrics.row) : list Metrics.row :=
  assign_all (fun r => Metrics.set_Phase
                (get_phase_name_for_date (Metrics.Date r) end_mining_date
                   end_processing_date end_rehabilitation_date
                   DEFAULT_GRID_CONNECTION_DATE) r) result.

Definition mask_rom (r : Metrics.row) : bool := Qltb 0 (Metrics.ROM_t r).

(** Actual emission intensity (Scope 1 / ROM). *)
Definition assign_emission_intensity (result : list Metrics.row) : list Metrics.row :=
  let result := assign_all (Metrics.set_Emission_Intensity 0.0) result in
  loc_assign mask_rom
    (fun r => Metrics.set_Emission_Intensity
                (Metrics.Scope1_tCO2e r / Metrics.ROM_t r) r) result.

(** [result['_fy'] = result['Date'].apply(date_to_fy)]. *)
Definition assign_fy (result : list Metrics.row) : list Metrics.row :=
  assign_all (fun r => Metrics.set__fy (date_to_fy (Metrics.Date r)) r) result.

(** The annual (floored, unfloored) baseline of [fy], from the annual totals
    of the production variables. *)
Definition annual_baseline_of (fsei_rom fsei_elec : Q) (decline_rate_phase2 : option Q)
                              (result : list Metrics.row) (fy : Z) : Q * Q :=
  let rom_annual := fy_sum Metrics.ROM_t result fy in
  let site_mwh_annual := fy_sum Metrics.Site_Electricity_kWh result fy / 1000 in
  calculate_annual_baseline fy rom_annual site_mwh_annual
                            fsei_rom fsei_elec decline_rate_phase2.

(** Section 11 baseline, calculated per FY and distributed to months: the
    floored values into [Baseline], the unfloored into [Baseline_Unfloored]. *)
Definition assign_baselines (fsei_rom fsei_elec : Q) (decline_rate_phase2 : option Q)
                            (result : list Metrics.row) : list Metrics.row :=
  let annual := annual_baseline_of fsei_rom fsei_elec decline_rate_phase2 result in
  let fy_baselines := map (fun fy => (fy, fst (annual fy))) (fy_index result) in
  let fy_baselines_unfloored :=
    map (fun fy => (fy, snd (annual fy))) (fy_index result) in
  let result := assign_all (Metrics.set_Baseline 0.0) result in
  let result :=
    fold_left (distribute_step Metrics.set_Baseline fsei_rom fsei_elec)
              fy_baselines result in
  let result := assign_all (Metrics.set_Baseline_Unfloored 0.0) result in
  fold_left (distribute_step Metrics.set_Baseline_Unfloored fsei_rom fsei_elec)
            fy_baselines_unfloored result.

(** Baseline intensity (baseline / ROM_t) and intensity excess. *)
Definition assign_baseline_intensity (result : list Metrics.row) : list Metrics.row :=
  let result := assign_all (Metrics.set_Baseline_Intensity 0.0) result in
  let result :=
    loc_assign mask_rom
      (fun r => Metrics.set_Baseline_Intensity
                  (Metrics.Baseline r / Metrics.ROM_t r) r) result in
  assign_all (fun r => Metrics.set_Intensity_Excess
                (Metrics.Emission_Intensity r - Metrics.Baseline_Intensity r) r)
             result.

(** Annual Safeguard status. *)
Definition assign_in_safeguard (result : list Metrics.row) : list Metrics.row :=
  let fy_scope1 := fy_sum Metrics.Scope1_tCO2e result in
  assign_all (fun r => Metrics.set_In_Safeguard
                (Qgeb (fy_scope1 (Metrics._fy r)) SAFEGUARD_THRESHOLD) r)
             result.

(** Raw SMC per s56(4): unfloored baseline share minus Scope 1, from the
    credit start date on. *)
Definition assign_raw_smc (credit_start_date : date) (result : list Metrics.row)
  : list Metrics.row :=
  let result := assign_all (Metrics.set_SMC_Monthly 0.0) result in
  let credit_mask r := date_geb (Metrics.Date r) credit_start_date in
  loc_assign credit_mask
    (fun r => Metrics.set_SMC_Monthly
                (Metrics.Baseline_Unfloored r - Metrics.Scope1_tCO2e r) r) result.

(** The fiscal years at or above the threshold. *)
Definition covered_fys (result : list Metrics.row) : gset Z :=
  list_to_set
    (List.filter
       (fun fy => Qgeb (fy_sum Metrics.Scope1_tCO2e result fy) SAFEGUARD_THRESHOLD)
       (fy_index result)).

(** The phase determined for each fiscal year. *)
Definition fy_phase (credit_start_date : date) (result : list Metrics.row)
  : gmap Z smc_phase :=
  list_to_map
    (map (fun fy =>
            (fy, classify_fy (fy_sum Metrics.Scope1_tCO2e result) (covered_fys result)
                             credit_start_date fy))
         (fy_index result)).

(** [result['SMC_Phase'] = result['_fy'].map(fy_phase).fillna('Pre-Safeguard')]. *)
Definition assign_smc_phase (credit_start_date : date) (result : list Metrics.row)
  : list Metrics.row :=
  let fy_phase := fy_phase credit_start_date result in
  assign_all (fun r => Metrics.set_SMC_Phase
                (default Pre_Safeguard (fy_phase !! Metrics._fy r)) r) result.

(** Phase-specific SMC rules. *)
Definition apply_smc_rules (result : list Metrics.row) : list Metrics.row :=
  let gap_mask r := bool_decide (Metrics.SMC_Phase r = Gap) in
  let result := loc_assign gap_mask (Metrics.set_SMC_Monthly 0.0) result in
  let optin_mask r := bool_decide (Metrics.SMC_Phase r = Opt_In) in
  let result :=
    loc_assign (fun r => optin_mask r && Qltb (Metrics.SMC_Monthly r) 0)
               (Metrics.set_SMC_Monthly 0.0) result in
  let exited_mask r := bool_decide (Metrics.SMC_Phase r = Exited) in
  loc_assign exited_mask (Metrics.set_SMC_Monthly 0.0) result.

(** Exit date for reporting. *)
Definition assign_exit_fy (result : list Metrics.row) : list Metrics.row :=
  let exit_date := find_exit_date result SAFEGUARD_START_DATE in
  assign_all (Metrics.set_Exit_FY (option_map date_to_fy exit_date)) result.

Definition calculate_safeguard_metrics
    (monthly : list Monthly.row) (fsei_rom fsei_elec : Q)
    (credit_start_date end_mining_date end_processing_date
     end_rehabilitation_date : date)
    (decline_rate_phase2 : option Q) : Metrics.table :=
  let result := map Metrics.of_monthly monthly in
  (* Filter to Safeguard Mechanism start onwards *)
  let result :=
    List.filter (fun r => date_geb (Metrics.Date r) SAFEGUARD_START_DATE) result in
  if (length result =? 0)%nat then
    Metrics.mktable
      (Monthly.columns ++
       [ "Phase"; "Emission_Intensity"; "Baseline_Intensity"; "Baseline";
         "SMC_Monthly"; "SMC_Cumulative"; "In_Safeguard" ])
      result
  else
  let result :=
    assign_phase_labels end_mining_date end_processing_date
                        end_rehabilitation_date result in
  let result := assign_emission_intensity result in
  let result := assign_fy result in
  let result := assign_baselines fsei_rom fsei_elec decline_rate_phase2 result in
  let result := assign_baseline_intensity result in
  let result := assign_in_safeguard result in
  let result := assign_raw_smc credit_start_date result in
  let result := assign_smc_phase credit_start_date result in
  let result := apply_smc_rules result in
  let result := assign_exit_fy result in
  let result := cumsum_from 0 result in
  (* the temporary column [_fy] is dropped *)
  Metrics.mktable
    (Monthly.columns ++
     [ "Phase"; "Emission_Intensity"; "Baseline"; "Baseline_Unfloored";
       "Baseline_Intensity"; "Intensity_Excess"; "In_Safeguard"; "SMC_Monthly";
       "SMC_Phase"; "Exit_FY"; "SMC_Cumulative" ])
    result.

(** ** [projections.py]: the projection builder *)

Definition recalculate_emissions (data : list Ledger.row) (nga_by_year : NGA.store)
  : result (list Ledger.row) :=
  let FY_temp r := date_to_fy (Ledger.Date r) in
  let unique_years := unique (map FY_temp data) in
  try! year_factor_map <- build_year_factor_map nga_by_year unique_years "QLD";
  Ok (apply_emissions_to_df data year_factor_map FY_temp).

(** [pd.DataFrame()]. *)
Definition empty_frame : Metrics.table := Metrics.mktable [] [].

(** [build_projection]; [nga_csv] is the content of [nga_factors.csv] that
    the factor store reads, and progress messages are not modelled. *)
Definition build_projection
    (df : list Ledger.row) (dataset : string) (nga_csv : list NGA.row)
    (end_mining_date end_processing_date end_rehabilitation_date : date)
    (fsei_rom fsei_elec : Q) (credit_start_date : date)
    (decline_rate_phase2 : option Q) : result Metrics.table :=
  (* Step 1: separate actuals and budget *)
  let actuals := List.filter (fun r => String.eqb (Ledger.DataSet r) dataset) df in
  let budget := List.filter (fun r => String.eqb (Ledger.DataSet r) "Budget") df in
  if (length actuals =? 0)%nat then Ok empty_frame
  else if (length budget =? 0)%nat then Ok empty_frame
  else
    (* Step 2: actuals take precedence per (Date, Description) *)
    let actual_keys := map (fun r => (Ledger.Date r, Ledger.Description r)) actuals in
    let budget_fill :=
      List.filter
        (fun r => negb (bool_decide
                          ((Ledger.Date r, Ledger.Description r) ∈ actual_keys)))
        budget in
    (* Step 3: emissions for the budget rows *)
    let nga_by_year := _load nga_csv in
    try! budget_prime <- recalculate_emissions budget_fill nga_by_year;
    (* Step 4: combine *)
    let monthly := actuals ++ budget_prime in
    (* Step 5: one row per month *)
    let monthly_summary := aggregate_to_monthly monthly in
    (* Step 6: safeguard metrics *)
    Ok (calculate_safeguard_metrics
          monthly_summary fsei_rom fsei_elec credit_start_date
          end_mining_date end_processing_date end_rehabilitation_date
          decline_rate_phase2).

(** ** Vocabulary of the statements *)

(** The fuel-category names stored for a publication year. *)
Definition stored_name (df : list NGA.row) (year : Z) (name : string) : Prop :=
  exists r, r ∈ df /\ NGA.NGA_Year r = year /\ NGA.Fuel_Name r = name.

Definition names_for (df : list NGA.row) (year : Z) : list string :=
  py_sorted len_leb
    (unique (map NGA.Fuel_Name
                 (List.filter (fun r => (NGA.NGA_Year r =? year)%Z) df))).


(** No Scope-1 row of the table carries publication year [year] and a fuel
    name starting with [prefix]. *)
Definition absent_from_table (df : list NGA.row) (year : Z) (prefix : string) : Prop :=
  forall r, r ∈ df -> NGA.NGA_Year r = year -> NGA.Scope r = 1%Z ->
            startswith (NGA.Fuel_Name r) prefix = false.

(** The bundle the builder stores for a fuel key whose Scope-1 record is [rec1]. *)
Definition fuel_bundle (rec1 : NGA.factor) (rec3 : option NGA.factor) : factors :=
  mkfactors (NGA.f_EF_kgCO2e_per_unit rec1)
            0
            (match rec3 with
             | Some s3 => NGA.f_EF_kgCO2e_per_unit s3
             | None => 0
             end)
            (default 0 (NGA.f_Energy_Content rec1))
            (expected_uom (NGA.f_EF_Unit rec1)).

(** The sum of column [val] over the rows of [df] dated [d] that pass [mask]. *)
Definition month_sum (mask : Ledger.row -> bool) (val : Ledger.row -> Q)
                     (df : list Ledger.row) (d : date) : Q :=
  Qsum (map val (List.filter (fun r => date_eqb (Ledger.Date r) d)
                             (List.filter mask df))).

(** The columns of a metrics row that the baseline and the classification
    are computed from. *)
Definition inputs (r : Metrics.row) : date * Q * Q * Q * Z :=
  (Metrics.Date r, Metrics.Scope1_tCO2e r, Metrics.ROM_t r,
   Metrics.Site_Electricity_kWh r, Metrics._fy r).

(** Two tables agree, row by row, on the input columns. *)
Definition same_inputs (df df' : list Metrics.row) : Prop :=
  Forall2 (fun r r' => inputs r' = inputs r) df df'.

Definition baselines (r : Metrics.row) : Q * Q :=
  (Metrics.Baseline r, Metrics.Baseline_Unfloored r).

(** The rows (months) of fiscal year [fy]. *)
Definition fy_rows (df : list Metrics.row) (fy : Z) : list Metrics.row :=
  List.filter (fun r => (Metrics._fy r =? fy)%Z) df.

(** Total production weight of fiscal year [fy]. *)
Definition total_weight (fsei_rom fsei_elec : Q) (df : list Metrics.row) (fy : Z) : Q :=
  Qsum (map (month_total fy fsei_rom fsei_elec) (fy_rows df fy)).

(** Number of months of fiscal year [fy] in the table. *)
Definition n_months (df : list Metrics.row) (fy : Z) : Q :=
  inject_Z (Z.of_nat (length (fy_rows df fy))).

(** The share of an annual value that the distribution loops write to a
    month of fiscal year [fy]. *)
Definition monthly_share (fsei_rom fsei_elec : Q) (df : list Metrics.row)
                         (fy : Z) (annual : Q) (r : Metrics.row) : Q :=
  if Qltb 0 (total_weight fsei_rom fsei_elec df fy)
  then (month_total fy fsei_rom fsei_elec r / total_weight fsei_rom fsei_elec df fy)
       * annual
  else annual / n_months df fy.

(** Both baseline columns of a row hold its month's share of the annual
    baselines of its fiscal year. *)
Definition baseline_ok (fsei_rom fsei_elec : Q) (rate2 : option Q)
                       (df : list Metrics.row) (r : Metrics.row) : Prop :=
  Metrics.Baseline r
  = monthly_share fsei_rom fsei_elec df (Metrics._fy r)
      (fst (annual_baseline_of fsei_rom fsei_elec rate2 df (Metrics._fy r))) r
  /\ Metrics.Baseline_Unfloored r
     = monthly_share fsei_rom fsei_elec df (Metrics._fy r)
         (snd (annual_baseline_of fsei_rom fsei_elec rate2 df (Metrics._fy r))) r.

(** The rows that survive the Safeguard start filter. *)
Definition base_rows (monthly : list Monthly.row) : list Metrics.row :=
  List.filter (fun r => date_geb (Metrics.Date r) SAFEGUARD_START_DATE)
              (map Metrics.of_monthly monthly).

(** The table after the blocks up to and including the baseline distribution. *)
Definition baseline_stage (fsei_rom fsei_elec : Q) (rate2 : option Q)
                          (d1 d2 d3 : date) (monthly : list Monthly.row)
  : list Metrics.row :=
  assign_baselines fsei_rom fsei_elec rate2
    (assign_fy (assign_emission_intensity
                  (assign_phase_labels d1 d2 d3 (base_rows monthly)))).

(** The blocks after the baseline distribution. *)
Definition smc_stage (credit_start_date : date) (df : list Metrics.row)
  : list Metrics.row :=
  cumsum_from 0
    (assign_exit_fy
       (apply_smc_rules
          (assign_smc_phase credit_start_date
             (assign_raw_smc credit_start_date
                (assign_in_safeguard (assign_baseline_intensity df)))))).

(** The raw monthly SMC of a row: unfloored baseline share minus Scope 1
    from the credit start date on, zero before. *)
Definition raw_smc (credit_start_date : date) (r : Metrics.row) : Q :=
  if date_geb (Metrics.Date r) credit_start_date
  then Metrics.Baseline_Unfloored r - Metrics.Scope1_tCO2e r
  else 0.0.

(** The monthly SMC of a row follows the rule of its phase. *)
Definition smc_rule_ok (credit_start_date : date) (r : Metrics.row) : Prop :=
  Metrics.SMC_Monthly r
  = match Metrics.SMC_Phase r with
    | Gap | Exited => 0.0
    | Opt_In => if Qltb (raw_smc credit_start_date r) 0 then 0.0
                else raw_smc credit_start_date r
    | Safeguard | Pre_Safeguard => raw_smc credit_start_date r
    end.

(** The phase of a row is the classification of its fiscal year. *)
Definition phase_ok (credit_start_date : date) (df : list Metrics.row)
                    (r : Metrics.row) : Prop :=
  Metrics.SMC_Phase r
  = classify_fy (fy_sum Metrics.Scope1_tCO2e df) (covered_fys df)
                credit_start_date (Metrics._fy r).

(** The columns that the phase rule for the monthly SMC relates. *)
Definition smc_cols (r : Metrics.row) : date * Q * Q * smc_phase * Q :=
  (Metrics.Date r, Metrics.Scope1_tCO2e r, Metrics.Baseline_Unfloored r,
   Metrics.SMC_Phase r, Metrics.SMC_Monthly r).

(** The four guarded assignments of [apply_factors] on one row. *)
Definition apply_factors_row (yf : factors) (r : Ledger.row) : Ledger.row :=
  let r := if truthy (s1 yf)
           then Ledger.set_Scope1_tCO2e (Ledger.Quantity r * s1 yf / 1000) r else r in
  let r := if truthy (s2 yf)
           then Ledger.set_Scope2_tCO2e (Ledger.Quantity r * s2 yf / 1000) r else r in
  let r := if truthy (s3 yf)
           then Ledger.set_Scope3_tCO2e (Ledger.Quantity r * s3 yf / 1000) r else r in
  if truthy (energy yf)
  then Ledger.set_Energy_GJ (Ledger.Quantity r * energy yf) r else r.

(** A column reader that does not look at the emission columns. *)
Definition reads_no_emissions {A} (f : Ledger.row -> A) : Prop :=
  (forall v r, f (Ledger.set_Scope1_tCO2e v r) = f r)
  /\ (forall v r, f (Ledger.set_Scope2_tCO2e v r) = f r)
  /\ (forall v r, f (Ledger.set_Scope3_tCO2e v r) = f r)
  /\ (forall v r, f (Ledger.set_Energy_GJ v r) = f r).

(** What one year of one fuel does to a row. *)
Definition year_row (year_factor_map : gmap Z (list (string * factors)))
                    (factor_key : string) (year : Z) (r : Ledger.row) : Ledger.row :=
  match dict_get factor_key (default [] (year_factor_map !! year)) with
  | None => r
  | Some yf => apply_factors_row yf r
  end.

(** What the whole calculation does to an initialised row of a table [df]. *)
Definition emit_row (year_factor_map : gmap Z (list (string * factors)))
                    (fy_col : Ledger.row -> Z) (df : list Ledger.row)
                    (r : Ledger.row) : Ledger.row :=
  if has_fuel r then
    match Ledger.NGAFuel r with
    | None => r
    | Some nga_fuel =>
        match resolved_key year_factor_map fy_col df nga_fuel with
        | None => r
        | Some factor_key => year_row year_factor_map factor_key (fy_col r) r
        end
    end
  else r.

(** A loop body that rewrites exactly the rows owned by its item. *)
Definition masked_step {R K} `{EqDecision K} (owner : R -> option K)
                       (g : K -> R -> R) (df : list R) (k : K) : list R :=
  map (fun r => if decide (owner r = Some k) then g k r else r) df.

(** The year whose iteration writes a row of fuel [nga_fuel]. *)
Definition year_owner (fy_col : Ledger.row -> Z) (nga_fuel : string)
                      (r : Ledger.row) : option Z :=
  if fuel_mask nga_fuel r then Some (fy_col r) else None.

(** The fuel whose iteration writes a row. *)
Definition fuel_owner (r : Ledger.row) : option string :=
  if has_fuel r then Ledger.NGAFuel r else None.

(** The columns that select the rows and the factors. *)
Definition selectors (fy_col : Ledger.row -> Z) (r : Ledger.row) : option string * Z :=
  (Ledger.NGAFuel r, fy_col r).

(** What the iteration of fuel [nga_fuel] does to a row it owns, the factor
    key being resolved on the table [df]. *)
Definition fuel_row (year_factor_map : gmap Z (list (string * factors)))
                    (fy_col : Ledger.row -> Z) (df : list Ledger.row)
                    (nga_fuel : string) (r : Ledger.row) : Ledger.row :=
  match resolved_key year_factor_map fy_col df nga_fuel with
  | None => r
  | Some factor_key => year_row year_factor_map factor_key (fy_col r) r
  end.

(** The values the calculator gives the emission columns of an output row
    [o] for the input row [r] and the factor bundle [yf]. *)
Definition emission_formulas (r o : Ledger.row) (yf : factors) : Prop :=
  Ledger.Quantity o = Ledger.Quantity r
  /\ Ledger.Scope1_tCO2e o == Ledger.Quantity r * s1 yf / 1000
  /\ Ledger.Scope2_tCO2e o == Ledger.Quantity r * s2 yf / 1000
  /\ Ledger.Scope3_tCO2e o == Ledger.Quantity r * s3 yf / 1000
  /\ Ledger.Energy_GJ o == Ledger.Quantity r * energy yf
  /\ (s1 yf == 0 -> Ledger.Scope1_tCO2e o == 0)
  /\ (s2 yf == 0 -> Ledger.Scope2_tCO2e o == 0)
  /\ (s3 yf == 0 -> Ledger.Scope3_tCO2e o == 0).

(** ** Example inputs *)

Definition example_factor_row (year : Z) (name : string) (scope : Z) (ef : Q)
  : NGA.row :=
  NGA.mkrow year name scope ef (Some "kg CO2-e/kL") (Some 38.6) (Some "GJ/kL") None.

Definition example_nga_csv : list NGA.row :=
  [ example_factor_row 2025 "Diesel oil-Cars and light commercial vehicles" 1 2721.3;
    example_factor_row 2025 "Diesel oil" 1 2709.72;
    example_factor_row 2025 "Diesel oil" 3 667.78;
    example_factor_row 2025 "Liquefied petroleum gas (LPG)" 1 1557.44;
    example_factor_row 2025 "Petroleum based oils (other than petroleum based oil used as fuel)" 1 539.72;
    example_factor_row 2025 "Petroleum based greases" 1 135.8;
    example_factor_row 2025 "Gaseous fossil fuels other than those mentioned in the items above" 1 2.0;
    NGA.mkrow 2025 "Grid electricity" 2 0.67 (Some "kg CO2-e/kWh") None None (Some "QLD");
    NGA.mkrow 2025 "Grid electricity" 3 0.09 (Some "kg CO2-e/kWh") None None (Some "QLD") ].

(** The example table without its LPG record. *)
Definition example_nga_csv_no_lpg : list NGA.row :=
  List.filter
    (fun r => negb (String.eqb (NGA.Fuel_Name r) "Liquefied petroleum gas (LPG)"))
    example_nga_csv.

Definition example_ledger_row (d : date) (desc cc : string) (fuel : option string)
                              (qty : Q) : Ledger.row :=
  Ledger.mkrow d "Actual" (Some desc) cc "kL" fuel qty (date_to_fy d) 0 0 0 0.

(** A ledger with entries in January and March 2024 and none in February. *)
Definition example_ledger_gap : list Ledger.row :=
  [ example_ledger_row (mkdate 2024 1 1) "Ore mined" "ROM" None 1000;
    example_ledger_row (mkdate 2024 3 1) "Diesel" "Hauling" (Some "Diesel oil") 12 ].

Definition example_month (y m : Z) (scope1 rom kwh : Q) : Monthly.row :=
  Monthly.mkrow (mkdate y m 1) scope1 0 0 rom kwh 0.

(** A monthly summary: one month before the Safeguard start, FY2024 above
    the threshold, FY2025 with no production, FY2026 above the threshold. *)
Definition example_monthly : list Monthly.row :=
  [ example_month 2023 6 5 5 5;
    example_month 2023 7 60000 100 0;
    example_month 2024 1 50000 300 1000;
    example_month 2024 7 10 0 0;
    example_month 2024 8 20 0 0;
    example_month 2025 7 120000 1 1 ].

Definition example_metrics : Metrics.table :=
  calculate_safeguard_metrics example_monthly FSEI_ROM FSEI_ELEC CREDIT_START_DATE
    (mkdate 2037 3 31) (mkdate 2039 12 31) (mkdate 2044 12 31) None.

(** Three covered years, FY2026 to FY2028, then FY2029 below the threshold. *)
Definition example_monthly_optin : list Monthly.row :=
  [ example_month 2025 7 120000 1000000 0;
    example_month 2026 7 120000 1000000 0;
    example_month 2027 7 120000 1000000 0;
    example_month 2028 7 10 1000000 0 ].

Definition example_metrics_optin : Metrics.table :=
  calculate_safeguard_metrics example_monthly_optin FSEI_ROM FSEI_ELEC
    CREDIT_START_DATE (mkdate 2037 3 31) (mkdate 2039 12 31) (mkdate 2044 12 31) None.

(** The factor map built from the example table for FY2024 and FY2025. *)
Definition example_factor_map : gmap Z (list (string * factors)) :=
  match build_year_factor_map (_load example_nga_csv) [2024%Z; 2025%Z] "QLD" with
  | Ok m => m
  | Raise _ => ∅
  end.
(** * Further code of the model *)

(** ** [calc_calendar.py]: calendar years, filters and year arithmetic *)

(** The month and day of a [datetime] are those of a calendar date. *)
Definition is_leap (y : Z) : bool :=
  ((y mod 4 =? 0) && (negb (y mod 100 =? 0) || (y mod 400 =? 0)))%Z.

Definition days_in_month (y m : Z) : Z :=
  if (m =? 2)%Z then (if is_leap y then 29 else 28)%Z
  else if ((m =? 4) || (m =? 6) || (m =? 9) || (m =? 11))%Z then 30%Z
  else 31%Z.

Definition valid_date (d : date) : Prop :=
  (1 <= month d <= 12)%Z /\ (1 <= day d <= days_in_month (year d) (month d))%Z.

Definition date_to_cy (d : date) : Z := year d.

Definition cy_to_date_range (cy : Z) : date * date :=
  (mkdate cy 1 1, mkdate cy 12 31).

(** [df[(df['Date'] >= start_date) & (df['Date'] <= end_date)]]; [Date] reads
    the date column of a row. *)
Definition filter_by_date_range {R} (Date : R -> date) (df : list R)
                                (start_date end_date : date) : list R :=
  List.filter (fun r => date_geb (Date r) start_date && date_leb (Date r) end_date) df.

Definition filter_by_fy {R} (Date : R -> date) (df : list R) (fy : Z) : list R :=
  let '(start_date, end_date) := fy_to_date_range fy in
  List.filter (fun r => date_geb (Date r) start_date && date_leb (Date r) end_date) df.

Definition filter_by_cy {R} (Date : R -> date) (df : list R) (cy : Z) : list R :=
  let '(start_date, end_date) := cy_to_date_range cy in
  List.filter (fun r => date_geb (Date r) start_date && date_leb (Date r) end_date) df.

(** [date + relativedelta(years=years)]: the year is shifted and the day is
    clipped to the length of the month in the new year; a year outside
    1..9999 makes the [datetime] constructor raise ([None]). *)
Definition add_years (d : date) (years : Z) : option date :=
  let y := (year d + years)%Z in
  if ((1 <=? y) && (y <=? 9999))%Z
  then Some (mkdate y (month d) (Z.min (day d) (days_in_month y (month d))))
  else None.

(** ** Vocabulary of the further statements *)

(** [c in s] for a one-character [c]. *)
Fixpoint has_char (c : ascii) (s : string) : bool :=
  match s with
  | EmptyString => false
  | String d s' => Ascii.eqb d c || has_char c s'
  end.

Definition first_char (s : string) : option ascii :=
  match s with
  | EmptyString => None
  | String c _ => Some c
  end.

Fixpoint last_char (s : string) : option ascii :=
  match s with
  | EmptyString => None
  | String c s' =>
      match last_char s' with
      | Some d => Some d
      | None => Some c
      end
  end.

(** The columns of a ledger row other than the four emission columns. *)
Definition ledger_inputs (r : Ledger.row)
  : date * string * option string * string * string * option string * Q * Z :=
  (Ledger.Date r, Ledger.DataSet r, Ledger.Description r, Ledger.CostCentre r,
   Ledger.UOM r, Ledger.NGAFuel r, Ledger.Quantity r, Ledger.FY r).

(** The four emission columns of a ledger row. *)
Definition ledger_emissions (r : Ledger.row) : Q * Q * Q * Q :=
  (Ledger.Scope1_tCO2e r, Ledger.Scope2_tCO2e r, Ledger.Scope3_tCO2e r,
   Ledger.Energy_GJ r).

(** The monthly-summary columns carried by a metrics row. *)
Definition monthly_columns (r : Metrics.row) : Monthly.row :=
  Monthly.mkrow (Metrics.Date r) (Metrics.Scope1_tCO2e r) (Metrics.Scope2_tCO2e r)
                (Metrics.Scope3_tCO2e r) (Metrics.ROM_t r)
                (Metrics.Site_Electricity_kWh r) (Metrics.Grid_Electricity_kWh r).

(** The order in which the operational phases follow one another. *)
Definition phase_rank (p : phase_name) : nat :=
  match p with
  | Mining => 0
  | Mining_Grid => 1
  | Processing => 2
  | Rehabilitation => 3
  | Closed => 4
  end.

(** ** Further example inputs *)

(** A factor table published for 2021 and 2023 only. *)
Definition example_nga_two_years : list NGA.row :=
  [ example_factor_row 2021 "Diesel oil" 1 2700;
    example_factor_row 2023 "Diesel oil" 1 2710 ].

Definition example_budget_row (d : date) (desc cc : string) (fuel : option string)
                              (qty : Q) : Ledger.row :=
  Ledger.mkrow d "Budget" (Some desc) cc "kL" fuel qty (date_to_fy d) 0 0 0 0.

(** The ledger with a gap, followed by one budget month. *)
Definition example_ledger_budget : list Ledger.row :=
  example_ledger_gap
  ++ [ example_budget_row (mkdate 2024 4 1) "Diesel" "Hauling" (Some "Diesel oil") 15 ].
(** * Properties *)

(** ** Table helpers *)

Section Unique.
Context `{EqDecision A}.

Lemma elem_of_unique_from (seen l : list A) (x : A) :
  x ∈ unique_from seen l <-> x ∈ l /\ x ∉ seen.
Proof.
  revert seen. induction l as [|y l IH]; intros seen; simpl.
  - split; [intros H; inversion H | intros [H _]; inversion H].
  - destruct (decide (y ∈ seen)) as [Hy|Hy].
    + rewrite IH. rewrite elem_of_cons. split.
      * intros [H1 H2]. auto.
      * intros [[->|H1] H2]; [contradiction | auto].
    + rewrite !elem_of_cons, IH, elem_of_cons. split.
      * intros [->|[H1 H2]]; [auto | split; [auto | intros H; apply H2; auto]].
      * intros [[->|H1] H2]; [auto|].
        destruct (decide (x = y)) as [->|Hne]; [auto|].
        right. split; [exact H1 | intros [?|?]; contradiction].
Qed.

Lemma NoDup_unique_from (seen l : list A) : NoDup (unique_from seen l).
Proof.
  revert seen. induction l as [|y l IH]; intros seen; simpl.
  - constructor.
  - destruct (decide (y ∈ seen)); [apply IH|].
    constructor; [|apply IH].
    rewrite elem_of_unique_from. intros [_ H]. apply H. left.
Qed.

Lemma elem_of_unique (l : list A) (x : A) : x ∈ unique l <-> x ∈ l.
Proof.
  unfold unique. rewrite elem_of_unique_from. split; [tauto|].
  intros H. split; [exact H | apply not_elem_of_nil].
Qed.

Lemma NoDup_unique (l : list A) : NoDup (unique l).
Proof. apply NoDup_unique_from. Qed.

End Unique.

Section Sorting.
Context {A : Type} (leb : A -> A -> bool).

Lemma insert_sorted_perm (x : A) (l : list A) : insert_sorted leb x l ≡ₚ x :: l.
Proof.
  induction l as [|y l IH]; simpl; [reflexivity|].
  destruct (leb x y); [reflexivity|].
  rewrite IH. apply Permutation_swap.
Qed.

Lemma py_sorted_perm (l : list A) : py_sorted leb l ≡ₚ l.
Proof.
  induction l as [|x l IH]; simpl; [reflexivity|].
  rewrite insert_sorted_perm, IH. reflexivity.
Qed.

Lemma elem_of_py_sorted (l : list A) (x : A) : x ∈ py_sorted leb l <-> x ∈ l.
Proof. rewrite (py_sorted_perm l). reflexivity. Qed.

Lemma NoDup_py_sorted (l : list A) : NoDup l -> NoDup (py_sorted leb l).
Proof. intros H. rewrite (py_sorted_perm l). exact H. Qed.

Hypothesis leb_total : forall a b, leb a b = true \/ leb b a = true.
Hypothesis leb_trans : forall a b c, leb a b = true -> leb b c = true -> leb a c = true.

Lemma insert_sorted_sorted (x : A) (l : list A) :
  StronglySorted (fun a b => leb a b = true) l ->
  StronglySorted (fun a b => leb a b = true) (insert_sorted leb x l).
Proof.
  induction 1 as [|y l Hs IH Hall]; simpl.
  - repeat constructor.
  - destruct (leb x y) eqn:E.
    + constructor; [constructor; assumption|].
      constructor; [exact E|].
      eapply Forall_impl; [exact Hall|]. intros z Hz. simpl in Hz. eauto.
    + constructor; [exact IH|].
      rewrite (insert_sorted_perm x l). constructor; [|exact Hall].
      destruct (leb_total x y) as [H|H]; [congruence | exact H].
Qed.

Lemma py_sorted_sorted (l : list A) :
  StronglySorted (fun a b => leb a b = true) (py_sorted leb l).
Proof.
  induction l as [|x l IH]; simpl; [constructor|].
  apply insert_sorted_sorted, IH.
Qed.
End Sorting.

Lemma len_leb_total (a b : string) : len_leb a b = true \/ len_leb b a = true.
Proof. unfold len_leb. rewrite !Nat.leb_le. lia. Qed.

Lemma len_leb_trans (a b c : string) :
  len_leb a b = true -> len_leb b c = true -> len_leb a c = true.
Proof. unfold len_leb. rewrite !Nat.leb_le. lia. Qed.

(** ** Properties of the ERC function *)

Lemma Qmax_eq_compat (a b c d : Q) : a == b -> c == d -> Qmax a c == Qmax b d.
Proof. intros H1 H2. rewrite H1, H2. reflexivity. Qed.

Lemma inject_Z_sub (a b : Z) : inject_Z (a - b) == inject_Z a - inject_Z b.
Proof. unfold Z.sub. rewrite inject_Z_plus, inject_Z_opp. reflexivity. Qed.

Lemma erc_code_eq_reference (fy : Z) :
  calculate_erc_for_fy fy None == ERC_reference fy.
Proof.
  unfold calculate_erc_for_fy, ERC_reference, ERC_reference_upto_2050.
  unfold DECLINE_PHASE1_START, DECLINE_PHASE1_END, DECLINE_PHASE2_END,
    DECLINE_RATE_PHASE1, DECLINE_RATE_PHASE2.
  destruct (Z.ltb_spec fy 2024); [destruct (Z.leb_spec fy 2050); [reflexivity|lia]|].
  destruct (Z.leb_spec fy 2030).
  - destruct (Z.leb_spec fy 2050); [|lia].
    apply Qmax_eq_compat; [|reflexivity].
    replace (fy - (2024 - 1))%Z with (fy - 2023)%Z by lia. reflexivity.
  - destruct (Z.leb_spec fy 2050).
    + apply Qmax_eq_compat; [|reflexivity].
      change (inject_Z (2030 - (2024 - 1))) with 7. lra.
    + apply Qmax_eq_compat; [|reflexivity].
      change (inject_Z (2030 - (2024 - 1))) with 7.
      change (inject_Z (2050 - 2030)) with 20. lra.
Qed.

Lemma erc_reference_mono (a b : Z) :
  (a <= b)%Z -> ERC_reference b <= ERC_reference a.
Proof.
  intros Hab.
  assert (Hq : inject_Z a <= inject_Z b) by (rewrite <- Zle_Qle; exact Hab).
  unfold ERC_reference, ERC_reference_upto_2050.
  destruct (Z.leb_spec a 2050), (Z.leb_spec b 2050); try lia;
    destruct (Z.ltb_spec a 2024), (Z.ltb_spec b 2024); try lia;
    destruct (Z.leb_spec a 2030), (Z.leb_spec b 2030); try lia;
    simpl; try (apply Qle_refl).
  all: repeat match goal with
       | H : (_ <= _)%Z |- _ => rewrite Zle_Qle in H
       | H : (_ < _)%Z |- _ => rewrite Zlt_Qlt in H
       end.
  all: rewrite ?inject_Z_sub.
  all: remember (inject_Z a) as qa eqn:Ea; remember (inject_Z b) as qb eqn:Eb;
    clear Ea Eb; unfold inject_Z in *.
  all: repeat match goal with
       | |- context [Qmax ?x ?y] =>
           let H := fresh in
           destruct (Q.max_spec x y) as [[? H]|[? H]]; rewrite H; clear H
       end.
  all: try lra.
Qed.

(** C1. The ERC function with the default phase-2 rate coincides with the
    piecewise reference definition at every fiscal year, takes the tabulated
    values 0.951, 0.902, 0.657 and 0.62415 at FY2024, FY2025, FY2030 and
    FY2031, is frozen at its FY2050 value after FY2050, and is monotonically
    non-increasing from FY2024 on. *)
Theorem C1_erc_matches_reference :
  (forall fy : Z, calculate_erc_for_fy fy None == ERC_reference fy)
  /\ calculate_erc_for_fy 2024 None == 0.951
  /\ calculate_erc_for_fy 2025 None == 0.902
  /\ calculate_erc_for_fy 2030 None == 0.657
  /\ calculate_erc_for_fy 2031 None == 0.62415
  /\ (forall fy : Z, (2050 < fy)%Z ->
        calculate_erc_for_fy fy None == calculate_erc_for_fy 2050 None)
  /\ (forall fy1 fy2 : Z, (2024 <= fy1)%Z -> (fy1 <= fy2)%Z ->
        calculate_erc_for_fy fy2 None <= calculate_erc_for_fy fy1 None).
Proof.
  split; [exact erc_code_eq_reference|].
  repeat split; try reflexivity.
  - intros fy Hfy. rewrite !erc_code_eq_reference.
    unfold ERC_reference.
    destruct (Z.leb_spec fy 2050); [lia|]. reflexivity.
  - intros fy1 fy2 _ Hle. rewrite !erc_code_eq_reference.
    apply erc_reference_mono. exact Hle.
Qed.

Lemma C1_erc_witness :
  (2024 <= 2026)%Z /\ (2026 <= 2041)%Z /\ (2050 < 2060)%Z
  /\ calculate_erc_for_fy 2041 None <= calculate_erc_for_fy 2026 None
  /\ calculate_erc_for_fy 2060 None == calculate_erc_for_fy 2050 None.
Proof.
  split; [lia|]. split; [lia|]. split; [lia|].
  destruct C1_erc_matches_reference as (_ & _ & _ & _ & _ & Hfrozen & Hmono).
  split; [apply Hmono; lia | apply Hfrozen; lia].
Defined.

(** ** Properties of the annual baseline *)

(** C5. For every fiscal year and nonnegative annual production,
    [calculate_annual_baseline] returns (floored, unfloored) with
    unfloored = ERC * (HybridEI_ROM * ROM_t + HybridEI_elec * site_MWh) and
    floored = max(unfloored, 100000); the floored baseline is never below the
    100,000 tCO2e floor, while the unfloored one can be (the FY2024 facility
    with 1,000,000 t ROM and 10,000 MWh and the approved intensities). *)
Theorem C5_annual_baseline_floor :
  (forall (fy : Z) (rom_t site_mwh fsei_rom fsei_elec : Q) (rate2 : option Q),
      0 <= rom_t -> 0 <= site_mwh ->
      let floored := fst (calculate_annual_baseline fy rom_t site_mwh
                                                    fsei_rom fsei_elec rate2) in
      let unfloored := snd (calculate_annual_baseline fy rom_t site_mwh
                                                      fsei_rom fsei_elec rate2) in
      unfloored ==
        calculate_erc_for_fy fy rate2
        * (fst (calculate_hybrid_ei fy fsei_rom fsei_elec) * rom_t
           + snd (calculate_hybrid_ei fy fsei_rom fsei_elec) * site_mwh)
      /\ floored == Qmax unfloored 100000
      /\ 100000 <= floored)
  /\ (exists (fy : Z) (rom_t site_mwh : Q),
         0 <= rom_t /\ 0 <= site_mwh
         /\ snd (calculate_annual_baseline fy rom_t site_mwh
                                           FSEI_ROM FSEI_ELEC None) < 100000
         /\ fst (calculate_annual_baseline fy rom_t site_mwh
                                           FSEI_ROM FSEI_ELEC None) == 100000).
Proof.
  split.
  - intros fy rom_t site_mwh fsei_rom fsei_elec rate2 _ _.
    unfold calculate_annual_baseline.
    destruct (calculate_hybrid_ei fy fsei_rom fsei_elec) as [hr he]. simpl.
    split; [reflexivity|]. split; [reflexivity|].
    unfold SAFEGUARD_MINIMUM_BASELINE. apply Q.le_max_r.
  - exists 2024%Z, 1000000, 10000.
    repeat split; vm_compute; congruence.
Qed.

Lemma C5_annual_baseline_witness :
  0 <= 1000000 /\ 0 <= 10000
  /\ 100000 <= fst (calculate_annual_baseline 2024 1000000 10000
                                              FSEI_ROM FSEI_ELEC None).
Proof.
  split; [vm_compute; congruence|]. split; [vm_compute; congruence|].
  apply (proj1 C5_annual_baseline_floor 2024%Z 1000000 10000
               FSEI_ROM FSEI_ELEC None); vm_compute; congruence.
Defined.

(** ** Factor store: name resolution *)

Lemma fold_insert_lookup {V} (f : Z -> V) (l : list Z) (acc : gmap Z V) (k : Z) :
  fold_left (fun acc y => <[y := f y]> acc) l acc !! k
  = if decide (k ∈ l) then Some (f k) else acc !! k.
Proof.
  revert acc. induction l as [|y l IH]; intros acc; simpl.
  - destruct (decide (k ∈ [])) as [H|_]; [inversion H | reflexivity].
  - rewrite IH. destruct (decide (k ∈ l)) as [Hin|Hnin].
    + rewrite decide_True; [reflexivity | right; exact Hin].
    + destruct (decide (k = y)) as [->|Hne].
      * rewrite lookup_insert_eq. rewrite decide_True; [reflexivity | left].
      * rewrite lookup_insert_ne by congruence.
        rewrite decide_False; [reflexivity|].
        rewrite elem_of_cons. tauto.
Qed.

Lemma elem_of_names_for (df : list NGA.row) (year : Z) (name : string) :
  name ∈ names_for df year <-> stored_name df year name.
Proof.
  unfold names_for, stored_name.
  rewrite elem_of_py_sorted, elem_of_unique, list_elem_of_fmap. split.
  - intros (r & -> & Hr). exists r.
    apply list_elem_of_In, filter_In in Hr. destruct Hr as [Hr Hy].
    apply Z.eqb_eq in Hy. split; [apply list_elem_of_In; exact Hr | auto].
  - intros (r & Hr & Hy & Hn). exists r. split; [auto|].
    apply list_elem_of_In, filter_In. split; [apply list_elem_of_In; exact Hr|].
    apply Z.eqb_eq. exact Hy.
Qed.

Lemma load_names (df : list NGA.row) (year : Z) :
  default [] (NGA._fuel_names_by_year (_load df) !! year) = names_for df year.
Proof.
  unfold _load. simpl.
  rewrite (fold_insert_lookup (fun y => names_for df y)).
  destruct (decide (year ∈ _)) as [Hin|Hnin]; [reflexivity|].
  rewrite lookup_empty. simpl.
  unfold names_for.
  destruct (List.filter _ df) as [|r rs] eqn:E; [reflexivity|].
  exfalso. apply Hnin.
  rewrite elem_of_py_sorted, elem_of_unique, list_elem_of_fmap.
  assert (Hr : In r (List.filter (fun r => (NGA.NGA_Year r =? year)%Z) df))
    by (rewrite E; left; reflexivity).
  apply filter_In in Hr. destruct Hr as [Hr Hy]. apply Z.eqb_eq in Hy.
  exists r. split; [auto | apply list_elem_of_In; exact Hr].
Qed.

Lemma startswith_refl (s : string) : startswith s s = true.
Proof.
  unfold startswith. induction s as [|c s IH]; simpl; [reflexivity|].
  destruct (Ascii.ascii_dec c c); [exact IH | contradiction].
Qed.

Lemma first_startswith_Some (names : list string) (prefix name : string) :
  first_startswith names prefix = Some name ->
  exists before after,
    names = before ++ name :: after
    /\ startswith name prefix = true
    /\ Forall (fun n => startswith n prefix = false) before.
Proof.
  induction names as [|n names IH]; simpl; [discriminate|].
  destruct (startswith n prefix) eqn:E.
  - intros [= <-]. exists [], names. auto.
  - intros H. destruct (IH H) as (before & after & -> & Hs & Hb).
    exists (n :: before), after. repeat split; auto.
Qed.

Lemma first_startswith_None (names : list string) (prefix : string) :
  first_startswith names prefix = None <->
  forall n, n ∈ names -> startswith n prefix = false.
Proof.
  induction names as [|n names IH]; simpl.
  - split; [intros _ n H; inversion H | reflexivity].
  - destruct (startswith n prefix) eqn:E.
    + split; [discriminate|]. intros H. specialize (H n). rewrite E in H.
      discriminate H. left.
    + rewrite IH. split.
      * intros H n' [->|H']%elem_of_cons; auto.
      * intros H n' H'. apply H. right. exact H'.
Qed.

Lemma StronglySorted_drop_app {A} (R : A -> A -> Prop) (l1 l2 : list A) :
  StronglySorted R (l1 ++ l2) -> StronglySorted R l2.
Proof.
  induction l1 as [|x l1 IH]; simpl; [auto|].
  intros H. inversion H; subst. auto.
Qed.

Lemma first_startswith_shortest (names : list string) (prefix name : string) :
  StronglySorted (fun a b => len_leb a b = true) names ->
  first_startswith names prefix = Some name ->
  forall n, n ∈ names -> startswith n prefix = true ->
            (String.length name <= String.length n)%nat.
Proof.
  intros Hsorted Hfirst n Hn Hs.
  destruct (first_startswith_Some _ _ _ Hfirst) as (before & after & -> & _ & Hb).
  apply elem_of_app in Hn. destruct Hn as [Hn|Hn].
  - rewrite Forall_forall in Hb. rewrite (Hb n Hn) in Hs. discriminate.
  - apply StronglySorted_drop_app in Hsorted.
    apply elem_of_cons in Hn. destruct Hn as [->|Hn]; [lia|].
    inversion Hsorted as [|? ? _ Hall]; subst.
    rewrite Forall_forall in Hall. specialize (Hall n Hn).
    unfold len_leb in Hall. apply Nat.leb_le in Hall. exact Hall.
Qed.

(** C8. Name resolution in the factor store: a stored name equal to the
    query is chosen; otherwise the result is a shortest stored name that the
    query is a prefix of; and when no stored name starts with the query the
    lookup returns nothing, with no default. *)
Theorem C8_resolve_fuel_name (df : list NGA.row) (year : Z) (prefix : string) :
  let self := _load df in
  (stored_name df year prefix ->
     _resolve_fuel_name self year prefix = Some prefix)
  /\ (~ stored_name df year prefix ->
      (exists n, stored_name df year n /\ startswith n prefix = true) ->
      exists name,
        _resolve_fuel_name self year prefix = Some name
        /\ stored_name df year name
        /\ startswith name prefix = true
        /\ forall n, stored_name df year n -> startswith n prefix = true ->
                     (String.length name <= String.length n)%nat)
  /\ ((forall n, stored_name df year n -> startswith n prefix = false) ->
      _resolve_fuel_name self year prefix = None).
Proof.
  intros self. unfold _resolve_fuel_name. subst self. rewrite load_names.
  split; [|split].
  - intros H. rewrite bool_decide_eq_true_2; [reflexivity|].
    apply elem_of_names_for. exact H.
  - intros Hnot (n & Hn & Hs).
    rewrite bool_decide_eq_false_2 by (rewrite elem_of_names_for; exact Hnot).
    destruct (first_startswith (names_for df year) prefix) as [name|] eqn:E.
    + exists name. split; [reflexivity|].
      destruct (first_startswith_Some _ _ _ E) as (before & after & Hnames & Hsw & _).
      split; [|split; [exact Hsw|]].
      * apply elem_of_names_for. rewrite Hnames.
        apply elem_of_app. right. left.
      * intros n' Hn' Hs'.
        eapply first_startswith_shortest; [| exact E | | exact Hs'].
        -- apply py_sorted_sorted; [apply len_leb_total | apply len_leb_trans].
        -- apply elem_of_names_for. exact Hn'.
    + exfalso. rewrite first_startswith_None in E.
      apply elem_of_names_for in Hn. rewrite (E n Hn) in Hs. discriminate.
  - intros Hnone.
    assert (Hnot : prefix ∉ names_for df year).
    { intros Hin. apply elem_of_names_for in Hin.
      specialize (Hnone prefix Hin).
      rewrite startswith_refl in Hnone. discriminate. }
    rewrite bool_decide_eq_false_2 by exact Hnot.
    apply first_startswith_None. intros n Hn. apply Hnone.
    apply elem_of_names_for. exact Hn.
Qed.

Lemma C8_resolve_fuel_name_witness :
  _resolve_fuel_name (_load example_nga_csv) 2025 "Diesel oil" = Some "Diesel oil"
  /\ (exists name,
         _resolve_fuel_name (_load example_nga_csv) 2025 "Petroleum based" = Some name
         /\ stored_name example_nga_csv 2025 name
         /\ startswith name "Petroleum based" = true
         /\ forall n, stored_name example_nga_csv 2025 n ->
                      startswith n "Petroleum based" = true ->
                      (String.length name <= String.length n)%nat)
  /\ _resolve_fuel_name (_load example_nga_csv) 2025 "Kerosene" = None.
Proof.
  pose proof (C8_resolve_fuel_name example_nga_csv 2025 "Diesel oil") as (H1 & _ & _).
  pose proof (C8_resolve_fuel_name example_nga_csv 2025 "Petroleum based") as (_ & H2 & _).
  pose proof (C8_resolve_fuel_name example_nga_csv 2025 "Kerosene") as (_ & _ & H3).
  split; [|split].
  - apply H1. eexists.
    split; [apply list_elem_of_In; right; left; reflexivity | split; reflexivity].
  - apply H2.
    + intros (r & Hr & _ & Hn). apply list_elem_of_In in Hr. simpl in Hr.
      repeat (destruct Hr as [<-|Hr]; [discriminate Hn|]). exact Hr.
    + exists "Petroleum based greases". split; [|reflexivity].
      eexists.
      split; [apply list_elem_of_In; do 5 right; left; reflexivity
             | split; reflexivity].
  - apply H3. intros n (r & Hr & _ & <-). apply list_elem_of_In in Hr. simpl in Hr.
    repeat (destruct Hr as [<-|Hr]; [reflexivity|]). destruct Hr.
Defined.

(** ** Factor-map builder *)

Lemma dict_get_set_eq {V} (k : string) (v : V) (d : list (string * V)) :
  dict_get k (dict_set k v d) = Some v.
Proof.
  induction d as [|[k' v'] d IH]; simpl.
  - rewrite String.eqb_refl. reflexivity.
  - destruct (String.eqb k' k) eqn:E; simpl.
    + rewrite String.eqb_refl. reflexivity.
    + rewrite E. exact IH.
Qed.

Lemma dict_get_set_ne {V} (k k' : string) (v : V) (d : list (string * V)) :
  k <> k' -> dict_get k (dict_set k' v d) = dict_get k d.
Proof.
  intros Hne. induction d as [|[k0 v0] d IH]; simpl.
  - destruct (String.eqb_spec k' k); [congruence | reflexivity].
  - destruct (String.eqb_spec k0 k') as [->|Hne0]; simpl.
    + destruct (String.eqb_spec k' k); [congruence | reflexivity].
    + destruct (String.eqb_spec k0 k); [reflexivity | exact IH].
Qed.

Section Builder.
Variable nga_by_year : NGA.store.

Lemma fuel_factors_loop_Ok (year : Z) (prefixes : list string)
      (acc yf : list (string * factors)) :
  fuel_factors_loop nga_by_year year prefixes acc = Ok yf ->
  forall p,
    (p ∈ prefixes ->
       exists rec1,
         match_fuel_factor nga_by_year year p 1 "" = Some rec1
         /\ dict_get p yf
            = Some (fuel_bundle rec1 (match_fuel_factor nga_by_year year p 3 "")))
    /\ (p ∉ prefixes -> dict_get p yf = dict_get p acc).
Proof.
  revert acc. induction prefixes as [|q prefixes IH]; intros acc; simpl.
  - intros [= <-] p. split; [intros H; inversion H | reflexivity].
  - destruct (match_fuel_factor nga_by_year year q 1 "") as [rec1|] eqn:E1;
      [|discriminate].
    intros Hloop p. specialize (IH _ Hloop p). destruct IH as [IHin IHout].
    split.
    + intros Hp. destruct (decide (p ∈ prefixes)) as [Hin|Hnin]; [auto|].
      apply elem_of_cons in Hp. destruct Hp as [->|Hp]; [|contradiction].
      exists rec1. split; [exact E1|].
      rewrite (IHout Hnin). apply dict_get_set_eq.
    + intros Hp. rewrite not_elem_of_cons in Hp. destruct Hp as [Hne Hnin].
      rewrite (IHout Hnin). apply dict_get_set_ne. exact Hne.
Qed.

Lemma fuel_factors_loop_Raise (year : Z) (prefixes : list string)
      (acc : list (string * factors)) (e : exn) :
  fuel_factors_loop nga_by_year year prefixes acc = Raise e ->
  exists p,
    p ∈ prefixes
    /\ e = ValueError_no_scope1_factor p year (NGA.available_years nga_by_year)
    /\ match_fuel_factor nga_by_year year p 1 "" = None.
Proof.
  revert acc. induction prefixes as [|q prefixes IH]; intros acc; simpl.
  - discriminate.
  - destruct (match_fuel_factor nga_by_year year q 1 "") as [rec1|] eqn:E1.
    + intros H. destruct (IH _ H) as (p & Hp & He & Hm).
      exists p. split; [right; exact Hp | auto].
    + intros [= <-]. exists q. split; [left | auto].
Qed.

Lemma year_factors_for_Ok (year : Z) (state : string) (yf : list (string * factors)) :
  year_factors_for nga_by_year year state = Ok yf ->
  forall p, p ∈ FUEL_PREFIXES ->
    exists rec1,
      match_fuel_factor nga_by_year year p 1 "" = Some rec1
      /\ dict_get p yf
         = Some (fuel_bundle rec1 (match_fuel_factor nga_by_year year p 3 "")).
Proof.
  unfold year_factors_for, bind.
  destruct (fuel_factors_loop nga_by_year year FUEL_PREFIXES []) as [yf0|e] eqn:E;
    [|discriminate].
  destruct (get_electricity_factor nga_by_year year state 2); [|discriminate].
  intros [= <-] p Hp.
  destruct (fuel_factors_loop_Ok _ _ _ _ E p) as [Hin _].
  destruct (Hin Hp) as (rec1 & H1 & Hget). exists rec1. split; [exact H1|].
  rewrite dict_get_set_ne; [exact Hget|].
  intros ->. apply list_elem_of_In in Hp. simpl in Hp.
  repeat (destruct Hp as [Hp|Hp]; [discriminate Hp|]). exact Hp.
Qed.

Lemma year_factors_for_Raise (year : Z) (state : string) (e : exn) :
  year_factors_for nga_by_year year state = Raise e ->
  (exists p,
      p ∈ FUEL_PREFIXES
      /\ e = ValueError_no_scope1_factor p year (NGA.available_years nga_by_year)
      /\ match_fuel_factor nga_by_year year p 1 "" = None)
  \/ (e = ValueError_no_electricity_scope2 state year
      /\ get_electricity_factor nga_by_year year state 2 = None).
Proof.
  unfold year_factors_for, bind.
  destruct (fuel_factors_loop nga_by_year year FUEL_PREFIXES []) as [yf0|e0] eqn:E.
  - destruct (get_electricity_factor nga_by_year year state 2) eqn:E2;
      [discriminate|].
    intros [= <-]. right. auto.
  - intros [= <-]. left. eapply fuel_factors_loop_Raise. exact E.
Qed.

Lemma build_loop_Ok (years : list Z) (state : string)
      (acc m : gmap Z (list (string * factors))) :
  build_year_factor_map_loop nga_by_year years state acc = Ok m ->
  forall year,
    (year ∈ years ->
       exists yf, year_factors_for nga_by_year year state = Ok yf
                  /\ m !! year = Some yf)
    /\ (year ∉ years -> m !! year = acc !! year).
Proof.
  revert acc. induction years as [|y years IH]; intros acc; simpl.
  - intros [= <-] year. split; [intros H; inversion H | reflexivity].
  - unfold bind.
    destruct (year_factors_for nga_by_year y state) as [yf|e] eqn:E; [|discriminate].
    intros Hloop year. destruct (IH _ Hloop year) as [IHin IHout]. split.
    + intros Hy. destruct (decide (year ∈ years)) as [Hin|Hnin]; [auto|].
      apply elem_of_cons in Hy. destruct Hy as [->|Hy]; [|contradiction].
      exists yf. split; [exact E|].
      rewrite (IHout Hnin). apply lookup_insert_eq.
    + intros Hy. rewrite not_elem_of_cons in Hy. destruct Hy as [Hne Hnin].
      rewrite (IHout Hnin). apply lookup_insert_ne. congruence.
Qed.

Lemma build_loop_Raise (years : list Z) (state : string)
      (acc : gmap Z (list (string * factors))) (e : exn) :
  build_year_factor_map_loop nga_by_year years state acc = Raise e ->
  exists year, year ∈ years /\ year_factors_for nga_by_year year state = Raise e.
Proof.
  revert acc. induction years as [|y years IH]; intros acc; simpl.
  - discriminate.
  - unfold bind.
    destruct (year_factors_for nga_by_year y state) as [yf|e0] eqn:E.
    + intros H. destruct (IH _ H) as (year & Hy & He).
      exists year. split; [right; exact Hy | exact He].
    + intros [= <-]. exists y. split; [left | exact E].
Qed.
End Builder.

Lemma year_factors_for_keys (nga_by_year : NGA.store) (year : Z) (state : string)
      (yf : list (string * factors)) :
  year_factors_for nga_by_year year state = Ok yf ->
  dict_keys yf = FUEL_PREFIXES ++ ["Grid electricity"%string].
Proof.
  unfold year_factors_for, bind, FUEL_PREFIXES. cbn [fuel_factors_loop].
  repeat match goal with
         | |- context [match match_fuel_factor ?s ?y ?p 1 ?st with _ => _ end] =>
             destruct (match_fuel_factor s y p 1 st); [|discriminate]
         end.
  destruct (get_electricity_factor nga_by_year year state 2); [|discriminate].
  intros [= <-]. reflexivity.
Qed.

Lemma build_year_factor_map_keys (nga_by_year : NGA.store) (unique_years : list Z)
      (state : string) (m : gmap Z (list (string * factors))) :
  build_year_factor_map nga_by_year unique_years state = Ok m ->
  (forall y, y ∈ unique_years -> is_Some (m !! y))
  /\ (forall y l, m !! y = Some l ->
                  dict_keys l = FUEL_PREFIXES ++ ["Grid electricity"%string]).
Proof.
  intros E. unfold build_year_factor_map in E. split.
  - intros y Hy. destruct (build_loop_Ok _ _ _ _ _ E y) as [Hin _].
    destruct (Hin Hy) as (yf & _ & ->). eauto.
  - intros y l Hl. destruct (build_loop_Ok _ _ _ _ _ E y) as [Hin Hout].
    destruct (decide (y ∈ unique_years)) as [Hy|Hy].
    + destruct (Hin Hy) as (yf & Hyf & Hm). rewrite Hm in Hl. injection Hl as <-.
      eapply year_factors_for_keys. exact Hyf.
    + rewrite (Hout Hy), lookup_empty in Hl. discriminate Hl.
Qed.

Lemma elem_of_available_years (df : list NGA.row) (y : Z) :
  y ∈ NGA.available_years (_load df) <-> exists r, r ∈ df /\ NGA.NGA_Year r = y.
Proof.
  unfold _load. simpl.
  rewrite elem_of_py_sorted, elem_of_unique, list_elem_of_fmap.
  split; intros (r & H1 & H2); exists r; auto.
Qed.

Lemma resolve_fuel_name_startswith (self : NGA.store) (year : Z) (prefix name : string) :
  _resolve_fuel_name self year prefix = Some name -> startswith name prefix = true.
Proof.
  unfold _resolve_fuel_name.
  destruct (bool_decide _).
  - intros [= <-]. apply startswith_refl.
  - intros H. destruct (first_startswith_Some _ _ _ H) as (_ & _ & _ & Hs & _).
    exact Hs.
Qed.

Lemma match_fuel_factor_Some (self : NGA.store) (year : Z) (prefix : string)
      (scope : Z) (state : string) (rec : NGA.factor) :
  match_fuel_factor self year prefix scope state = Some rec ->
  exists r y,
    r ∈ NGA.df self
    /\ _resolve_year self year = Some y
    /\ NGA.NGA_Year r = y
    /\ NGA.Fuel_Name r = NGA.f_Fuel_Name rec
    /\ startswith (NGA.Fuel_Name r) prefix = true
    /\ NGA.Scope r = scope
    /\ NGA.EF_kgCO2e_per_unit r = NGA.f_EF_kgCO2e_per_unit rec.
Proof.
  unfold match_fuel_factor.
  destruct (_resolve_year self year) as [y|]; [|discriminate].
  destruct (_resolve_fuel_name self y prefix) as [full_name|] eqn:En; [|discriminate].
  destruct (List.filter _ (NGA.df self)) as [|r rs] eqn:Ef; [discriminate|].
  intros [= <-]. simpl.
  assert (Hr : In r (r :: rs)) by (left; reflexivity).
  rewrite <- Ef in Hr. apply filter_In in Hr. destruct Hr as [Hr Hmask].
  apply andb_prop in Hmask. destruct Hmask as [Hmask _].
  apply andb_prop in Hmask. destruct Hmask as [Hmask Hscope].
  apply andb_prop in Hmask. destruct Hmask as [Hyear Hname].
  apply Z.eqb_eq in Hyear, Hscope. apply String.eqb_eq in Hname.
  exists r, y. repeat split; auto.
  - apply list_elem_of_In. exact Hr.
  - rewrite Hname. eapply resolve_fuel_name_startswith. exact En.
Qed.

Lemma match_fuel_factor_absent (df : list NGA.row) (year : Z) (prefix : string) :
  (exists r, r ∈ df /\ NGA.NGA_Year r = year) ->
  absent_from_table df year prefix ->
  match_fuel_factor (_load df) year prefix 1 "" = None.
Proof.
  intros Hyear Habs.
  destruct (match_fuel_factor (_load df) year prefix 1 "") as [rec|] eqn:E;
    [|reflexivity].
  exfalso.
  destruct (match_fuel_factor_Some _ _ _ _ _ _ E)
    as (r & y & Hr & Hy & Hry & _ & Hs & Hscope & _).
  unfold _resolve_year in Hy.
  rewrite bool_decide_eq_true_2 in Hy by (apply elem_of_available_years; exact Hyear).
  injection Hy as <-.
  rewrite (Habs r Hr Hry Hscope) in Hs. discriminate.
Qed.

(** C7, as stated, fails: the example table holds factors for publication
    year 2025 only, so every (2030, category) combination is absent from it;
    yet building the factor map for 2030 raises nothing and files the 2025
    factors under 2030. *)
Lemma C7_counterexample_year_substitution :
  (forall r, r ∈ example_nga_csv -> NGA.NGA_Year r <> 2030%Z)
  /\ absent_from_table example_nga_csv 2030 "Diesel oil"
  /\ exists m yf f,
       build_year_factor_map (_load example_nga_csv) [2030%Z] "QLD" = Ok m
       /\ m !! 2030%Z = Some yf
       /\ dict_get "Diesel oil" yf = Some f
       /\ s1 f = 2709.72.
Proof.
  split; [|split].
  - intros r Hr. apply list_elem_of_In in Hr. simpl in Hr.
    repeat (destruct Hr as [<-|Hr]; [discriminate|]). destruct Hr.
  - intros r Hr Hy. apply list_elem_of_In in Hr. simpl in Hr.
    repeat (destruct Hr as [<-|Hr]; [discriminate Hy|]). destruct Hr.
  - eexists _, _, _.
    split; [vm_compute; reflexivity|].
    split; [vm_compute; reflexivity|].
    split; vm_compute; reflexivity.
Qed.

(** C7 (amended). The factor store first replaces a requested year by the
    nearest available publication year.  If, after that, some requested
    (year, category) pair has no Scope-1 record, the builder raises instead of
    returning a map; a Scope-1 error names a requested pair that really has no
    record, and it is the error raised whenever Scope-2 electricity factors
    exist for all requested years; a combination absent from the table for a
    publication year that the table holds has no record.  When the builder
    returns, every Scope-1 factor is read from a matching table row, and a
    missing Scope-3 record gives the factor zero. *)
Theorem C7_missing_scope1_factor_raises
        (df : list NGA.row) (unique_years : list Z) (state : string) :
  let self := _load df in
  let built := build_year_factor_map self unique_years state in
  (forall year prefix,
      year ∈ unique_years -> prefix ∈ FUEL_PREFIXES ->
      match_fuel_factor self year prefix 1 "" = None ->
      exists e, built = Raise e)
  /\ (forall prefix year avail,
         built = Raise (ValueError_no_scope1_factor prefix year avail) ->
         year ∈ unique_years /\ prefix ∈ FUEL_PREFIXES
         /\ match_fuel_factor self year prefix 1 "" = None)
  /\ ((forall y, y ∈ unique_years -> get_electricity_factor self y state 2 <> None) ->
      forall year prefix,
        year ∈ unique_years -> prefix ∈ FUEL_PREFIXES ->
        match_fuel_factor self year prefix 1 "" = None ->
        exists p y,
          built = Raise (ValueError_no_scope1_factor p y (NGA.available_years self))
          /\ y ∈ unique_years /\ p ∈ FUEL_PREFIXES
          /\ match_fuel_factor self y p 1 "" = None)
  /\ (forall year prefix,
         (exists r, r ∈ df /\ NGA.NGA_Year r = year) ->
         absent_from_table df year prefix ->
         match_fuel_factor self year prefix 1 "" = None)
  /\ (forall m, built = Ok m ->
      forall year prefix,
        year ∈ unique_years -> prefix ∈ FUEL_PREFIXES ->
        exists yf rec1 r,
          m !! year = Some yf
          /\ match_fuel_factor self year prefix 1 "" = Some rec1
          /\ dict_get prefix yf
             = Some (fuel_bundle rec1 (match_fuel_factor self year prefix 3 ""))
          /\ r ∈ df /\ NGA.Scope r = 1%Z
          /\ startswith (NGA.Fuel_Name r) prefix = true
          /\ s1 (fuel_bundle rec1 (match_fuel_factor self year prefix 3 ""))
             = NGA.EF_kgCO2e_per_unit r
          /\ (match_fuel_factor self year prefix 3 "" = None ->
              s3 (fuel_bundle rec1 None) = 0)).
Proof.
  intros self built.
  assert (Hmissing : forall year prefix,
             year ∈ unique_years -> prefix ∈ FUEL_PREFIXES ->
             match_fuel_factor self year prefix 1 "" = None ->
             exists e, built = Raise e).
  { intros year prefix Hy Hp Hm.
    destruct built as [m|e] eqn:E; [|eauto]. exfalso.
    destruct (build_loop_Ok _ _ _ _ _ E year) as [Hin _].
    destruct (Hin Hy) as (yf & Hyf & _).
    destruct (year_factors_for_Ok _ _ _ _ Hyf prefix Hp) as (rec1 & H1 & _).
    congruence. }
  assert (Hnames : forall prefix year avail,
             built = Raise (ValueError_no_scope1_factor prefix year avail) ->
             year ∈ unique_years /\ prefix ∈ FUEL_PREFIXES
             /\ match_fuel_factor self year prefix 1 "" = None).
  { intros prefix year avail E.
    destruct (build_loop_Raise _ _ _ _ _ E) as (y & Hy & Hraise).
    destruct (year_factors_for_Raise _ _ _ _ Hraise)
      as [(p & Hp & He & Hm)|[He _]]; [|discriminate He].
    injection He as -> -> _. auto. }
  split; [exact Hmissing|]. split; [exact Hnames|]. split; [|split].
  - intros Helec year prefix Hy Hp Hm.
    destruct (Hmissing year prefix Hy Hp Hm) as [e E].
    destruct (build_loop_Raise _ _ _ _ _ E) as (y & Hy' & Hraise).
    destruct (year_factors_for_Raise _ _ _ _ Hraise)
      as [(p & Hp' & He & Hm')|[_ He2]].
    + exists p, y. subst e. auto.
    + exfalso. exact (Helec y Hy' He2).
  - intros year prefix Hyear Habs. apply match_fuel_factor_absent; assumption.
  - intros m E year prefix Hy Hp.
    destruct (build_loop_Ok _ _ _ _ _ E year) as [Hin _].
    destruct (Hin Hy) as (yf & Hyf & Hlook).
    destruct (year_factors_for_Ok _ _ _ _ Hyf prefix Hp) as (rec1 & H1 & Hget).
    destruct (match_fuel_factor_Some _ _ _ _ _ _ H1)
      as (r & y & Hr & _ & _ & _ & Hs & Hscope & Hef).
    exists yf, rec1, r. repeat split; auto.
Qed.

Lemma C7_missing_scope1_factor_witness :
  (exists e,
      build_year_factor_map (_load example_nga_csv_no_lpg) [2025%Z] "QLD" = Raise e)
  /\ match_fuel_factor (_load example_nga_csv_no_lpg) 2025
                       "Liquefied petroleum gas (LPG)" 1 "" = None
  /\ (exists p y,
         build_year_factor_map (_load example_nga_csv_no_lpg) [2025%Z] "QLD"
         = Raise (ValueError_no_scope1_factor
                    p y (NGA.available_years (_load example_nga_csv_no_lpg)))
         /\ y ∈ [2025%Z] /\ p ∈ FUEL_PREFIXES
         /\ match_fuel_factor (_load example_nga_csv_no_lpg) y p 1 "" = None).
Proof.
  pose proof (C7_missing_scope1_factor_raises example_nga_csv_no_lpg [2025%Z] "QLD")
    as (H1 & _ & H3 & H4 & _).
  assert (Hy : 2025%Z ∈ [2025%Z]) by left.
  assert (Hp : "Liquefied petroleum gas (LPG)" ∈ FUEL_PREFIXES)
    by (apply list_elem_of_In; vm_compute; tauto).
  assert (Hm : match_fuel_factor (_load example_nga_csv_no_lpg) 2025
                                 "Liquefied petroleum gas (LPG)" 1 "" = None).
  { apply H4.
    - eexists. split; [apply list_elem_of_In; left; reflexivity | reflexivity].
    - intros r Hr _ _. apply list_elem_of_In in Hr. vm_compute in Hr.
      repeat (destruct Hr as [<-|Hr]; [reflexivity|]). destruct Hr. }
  split; [|split].
  - exact (H1 2025%Z _ Hy Hp Hm).
  - exact Hm.
  - apply (H3 (fun y Hy' => ltac:(apply list_elem_of_In in Hy'; simpl in Hy';
                                   destruct Hy' as [<-|[]]; vm_compute; discriminate))
              2025%Z _ Hy Hp Hm).
Defined.

(** ** Monthly aggregation *)

Lemma date_eqb_eq (a b : date) : date_eqb a b = true <-> a = b.
Proof.
  destruct a as [ya ma da], b as [yb mb db]. unfold date_eqb. simpl.
  rewrite !andb_true_iff, !Z.eqb_eq. split.
  - intros [[-> ->] ->]. reflexivity.
  - intros [= -> -> ->]. auto.
Qed.

Lemma date_leb_total (a b : date) : date_leb a b = true \/ date_leb b a = true.
Proof.
  destruct a as [ya ma da], b as [yb mb db]. unfold date_leb, date_ltb. simpl.
  destruct (Z.ltb_spec ya yb), (Z.ltb_spec yb ya), (Z.eqb_spec ya yb),
    (Z.eqb_spec yb ya), (Z.ltb_spec ma mb), (Z.ltb_spec mb ma),
    (Z.eqb_spec ma mb), (Z.eqb_spec mb ma), (Z.ltb_spec da db),
    (Z.ltb_spec db da); simpl; auto; lia.
Qed.

Lemma date_leb_trans (a b c : date) :
  date_leb a b = true -> date_leb b c = true -> date_leb a c = true.
Proof.
  destruct a as [ya ma da], b as [yb mb db], c as [yc mc dc].
  unfold date_leb, date_ltb. simpl.
  destruct (Z.ltb_spec yb ya), (Z.eqb_spec yb ya), (Z.ltb_spec mb ma),
    (Z.eqb_spec mb ma), (Z.ltb_spec db da); simpl; try discriminate;
    destruct (Z.ltb_spec yc yb), (Z.eqb_spec yc yb), (Z.ltb_spec mc mb),
      (Z.eqb_spec mc mb), (Z.ltb_spec dc db); simpl; try discriminate;
    destruct (Z.ltb_spec yc ya), (Z.eqb_spec yc ya), (Z.ltb_spec mc ma),
      (Z.eqb_spec mc ma), (Z.ltb_spec dc da); simpl; auto; lia.
Qed.

Lemma elem_of_group_dates {R} (key : R -> date) (df : list R) (d : date) :
  d ∈ group_dates key df <-> exists r, r ∈ df /\ key r = d.
Proof.
  unfold group_dates. rewrite elem_of_py_sorted, elem_of_unique, list_elem_of_fmap.
  split; intros (r & H1 & H2); exists r; auto.
Qed.

Lemma merge_left_value_group {R} (key : R -> date) (val : R -> Q) (df : list R)
      (d : date) :
  fillna 0 (merge_left_value d (groupby_date_sum key val df))
  = Qsum (map val (List.filter (fun r => date_eqb (key r) d) df)).
Proof.
  unfold groupby_date_sum.
  assert (Hgen : forall ds,
             fillna 0 (merge_left_value d
               (map (fun d0 => (d0, Qsum (map val
                       (List.filter (fun r => date_eqb (key r) d0) df)))) ds))
             = if bool_decide (d ∈ ds)
               then Qsum (map val (List.filter (fun r => date_eqb (key r) d) df))
               else 0).
  { induction ds as [|d0 ds IH]; cbn [map merge_left_value].
    - rewrite bool_decide_eq_false_2 by apply not_elem_of_nil. reflexivity.
    - destruct (date_eqb d0 d) eqn:E.
      + apply date_eqb_eq in E. subst d0.
        rewrite bool_decide_eq_true_2 by left. reflexivity.
      + rewrite IH.
        assert (d0 <> d) by (intros ->; rewrite (proj2 (date_eqb_eq d d)) in E;
                              [discriminate | reflexivity]).
        destruct (bool_decide (d ∈ ds)) eqn:Eb.
        * apply bool_decide_eq_true_1 in Eb.
          rewrite bool_decide_eq_true_2 by (right; exact Eb). reflexivity.
        * apply bool_decide_eq_false_1 in Eb.
          rewrite bool_decide_eq_false_2; [reflexivity|].
          rewrite elem_of_cons. intros [?|?]; [congruence | contradiction]. }
  rewrite Hgen. destruct (bool_decide _) eqn:Eb; [reflexivity|].
  apply bool_decide_eq_false_1 in Eb.
  destruct (List.filter _ df) as [|r rs] eqn:Ef; [reflexivity|].
  exfalso. apply Eb. apply elem_of_group_dates.
  assert (Hr : In r (r :: rs)) by (left; reflexivity).
  rewrite <- Ef in Hr. apply filter_In in Hr. destruct Hr as [Hr Hd].
  exists r. split; [apply list_elem_of_In; exact Hr | apply date_eqb_eq; exact Hd].
Qed.

Lemma aggregate_to_monthly_rows (monthly : list Ledger.row) :
  aggregate_to_monthly monthly
  = map (fun d =>
           Monthly.mkrow d
             (month_sum (fun _ => true) Ledger.Scope1_tCO2e monthly d)
             (month_sum (fun _ => true) Ledger.Scope2_tCO2e monthly d)
             (month_sum (fun _ => true) Ledger.Scope3_tCO2e monthly d)
             (month_sum rom_mask Ledger.Quantity monthly d)
             (month_sum (description_is GRID_SITE_ELEC_DESCRIPTION)
                        Ledger.Quantity monthly d)
             (month_sum (description_is GRID_GRID_ELEC_DESCRIPTION)
                        Ledger.Quantity monthly d))
        (group_dates Ledger.Date monthly).
Proof.
  unfold aggregate_to_monthly. rewrite map_map. apply map_ext. intros d.
  rewrite !merge_left_value_group. unfold month_sum.
  assert (Hall : List.filter (fun _ : Ledger.row => true) monthly = monthly).
  { clear. induction monthly as [|r l IH]; simpl; [reflexivity | congruence]. }
  rewrite Hall. reflexivity.
Qed.

Lemma aggregate_to_monthly_dates (monthly : list Ledger.row) :
  map Monthly.Date (aggregate_to_monthly monthly) = group_dates Ledger.Date monthly.
Proof.
  rewrite aggregate_to_monthly_rows, map_map. simpl. apply map_id.
Qed.

(** C9, as stated, fails: a ledger with entries in January and March 2024
    yields rows for those two dates only, so February 2024, a month inside
    the horizon, has no row. *)
Lemma C9_counterexample_gap_month :
  map Monthly.Date (aggregate_to_monthly example_ledger_gap)
  = [mkdate 2024 1 1; mkdate 2024 3 1]
  /\ ~ (exists r, r ∈ aggregate_to_monthly example_ledger_gap
                  /\ year (Monthly.Date r) = 2024%Z
                  /\ month (Monthly.Date r) = 2%Z).
Proof.
  split; [vm_compute; reflexivity|].
  intros (r & Hr & _ & Hm). apply list_elem_of_In in Hr. vm_compute in Hr.
  destruct Hr as [<-|[<-|[]]]; discriminate Hm.
Qed.

Lemma month_sum_no_rows (mask : Ledger.row -> bool) (val : Ledger.row -> Q)
      (df : list Ledger.row) (d : date) :
  (forall x, x ∈ df -> Ledger.Date x = d -> mask x = false) ->
  month_sum mask val df d = 0.
Proof.
  intros Hnone. unfold month_sum.
  destruct (List.filter _ (List.filter mask df)) as [|r rs] eqn:Ef; [reflexivity|].
  exfalso.
  assert (Hr : In r (r :: rs)) by (left; reflexivity).
  rewrite <- Ef in Hr. apply filter_In in Hr. destruct Hr as [Hr Hd].
  apply filter_In in Hr. destruct Hr as [Hr Hm].
  apply date_eqb_eq in Hd. apply list_elem_of_In in Hr.
  rewrite (Hnone r Hr Hd) in Hm. discriminate.
Qed.

(** C9 (amended). The monthly aggregation returns exactly one row per
    distinct date present in its input, in ascending date order, and no row
    for any other date (so exactly one row per calendar month that has a
    ledger row, when the ledger dates are month starts); in each row the scope columns are the sums over the
    ledger rows of that date, and ROM tonnes, site electricity and grid
    electricity are the sums over the matching ledger rows of that date, a
    number in every row and zero when the date has no matching row. *)
Theorem C9_one_row_per_ledger_date (monthly : list Ledger.row) :
  let out := aggregate_to_monthly monthly in
  NoDup (map Monthly.Date out)
  /\ (forall d, d ∈ map Monthly.Date out <-> exists x, x ∈ monthly /\ Ledger.Date x = d)
  /\ StronglySorted (fun a b => date_leb a b = true) (map Monthly.Date out)
  /\ (forall r, r ∈ out ->
        Monthly.Scope1_tCO2e r
        = month_sum (fun _ => true) Ledger.Scope1_tCO2e monthly (Monthly.Date r)
        /\ Monthly.Scope2_tCO2e r
           = month_sum (fun _ => true) Ledger.Scope2_tCO2e monthly (Monthly.Date r)
        /\ Monthly.Scope3_tCO2e r
           = month_sum (fun _ => true) Ledger.Scope3_tCO2e monthly (Monthly.Date r)
        /\ Monthly.ROM_t r
           = month_sum rom_mask Ledger.Quantity monthly (Monthly.Date r)
        /\ Monthly.Site_Electricity_kWh r
           = month_sum (description_is GRID_SITE_ELEC_DESCRIPTION)
                       Ledger.Quantity monthly (Monthly.Date r)
        /\ Monthly.Grid_Electricity_kWh r
           = month_sum (description_is GRID_GRID_ELEC_DESCRIPTION)
                       Ledger.Quantity monthly (Monthly.Date r))
  /\ (forall r, r ∈ out ->
        ((forall x, x ∈ monthly -> Ledger.Date x = Monthly.Date r ->
                    rom_mask x = false) ->
         Monthly.ROM_t r = 0)
        /\ ((forall x, x ∈ monthly -> Ledger.Date x = Monthly.Date r ->
                       description_is GRID_SITE_ELEC_DESCRIPTION x = false) ->
            Monthly.Site_Electricity_kWh r = 0)
        /\ ((forall x, x ∈ monthly -> Ledger.Date x = Monthly.Date r ->
                       description_is GRID_GRID_ELEC_DESCRIPTION x = false) ->
            Monthly.Grid_Electricity_kWh r = 0))
  /\ ((forall x, x ∈ monthly -> day (Ledger.Date x) = 1%Z) ->
      forall r r', r ∈ out -> r' ∈ out ->
        year (Monthly.Date r) = year (Monthly.Date r') ->
        month (Monthly.Date r) = month (Monthly.Date r') ->
        r = r').
Proof.
  intros out.
  assert (Hrows : forall r, r ∈ out ->
            Monthly.Scope1_tCO2e r
            = month_sum (fun _ => true) Ledger.Scope1_tCO2e monthly (Monthly.Date r)
            /\ Monthly.Scope2_tCO2e r
               = month_sum (fun _ => true) Ledger.Scope2_tCO2e monthly (Monthly.Date r)
            /\ Monthly.Scope3_tCO2e r
               = month_sum (fun _ => true) Ledger.Scope3_tCO2e monthly (Monthly.Date r)
            /\ Monthly.ROM_t r
               = month_sum rom_mask Ledger.Quantity monthly (Monthly.Date r)
            /\ Monthly.Site_Electricity_kWh r
               = month_sum (description_is GRID_SITE_ELEC_DESCRIPTION)
                           Ledger.Quantity monthly (Monthly.Date r)
            /\ Monthly.Grid_Electricity_kWh r
               = month_sum (description_is GRID_GRID_ELEC_DESCRIPTION)
                           Ledger.Quantity monthly (Monthly.Date r)).
  { intros r Hr. subst out. rewrite aggregate_to_monthly_rows in Hr.
    apply list_elem_of_fmap in Hr. destruct Hr as (d & -> & _). simpl.
    repeat split; reflexivity. }
  assert (Hmonth : (forall x, x ∈ monthly -> day (Ledger.Date x) = 1%Z) ->
            forall r r', r ∈ out -> r' ∈ out ->
              year (Monthly.Date r) = year (Monthly.Date r') ->
              month (Monthly.Date r) = month (Monthly.Date r') ->
              r = r').
  { intros Hday r r' Hr Hr' Hy Hm. subst out.
    rewrite aggregate_to_monthly_rows in Hr, Hr'.
    apply list_elem_of_fmap in Hr, Hr'.
    destruct Hr as (d & -> & Hd), Hr' as (d' & -> & Hd').
    cbn [Monthly.Date] in Hy, Hm.
    apply elem_of_group_dates in Hd, Hd'.
    destruct Hd as (x & Hx & <-), Hd' as (x' & Hx' & <-).
    pose proof (Hday x Hx) as H1. pose proof (Hday x' Hx') as H1'.
    assert (Heq : Ledger.Date x = Ledger.Date x').
    { destruct (Ledger.Date x), (Ledger.Date x'). cbn in *. congruence. }
    rewrite Heq. reflexivity. }
  subst out. rewrite aggregate_to_monthly_dates.
  split; [|split; [|split; [|split; [|split; [|exact Hmonth]]]]].
  - apply NoDup_py_sorted, NoDup_unique.
  - intros d. apply elem_of_group_dates.
  - apply py_sorted_sorted; [apply date_leb_total | apply date_leb_trans].
  - exact Hrows.
  - intros r Hr. destruct (Hrows r Hr) as (_ & _ & _ & Hrom & Hsite & Hgrid).
    rewrite Hrom, Hsite, Hgrid.
    split; [|split]; apply month_sum_no_rows.
Qed.

Lemma C9_one_row_per_ledger_date_witness :
  let r := Monthly.mkrow (mkdate 2024 3 1) 0 0 0 0 0 0 in
  r ∈ aggregate_to_monthly example_ledger_gap
  /\ Monthly.ROM_t r = 0
  /\ Monthly.Site_Electricity_kWh r = 0.
Proof.
  intros r.
  assert (Hr : r ∈ aggregate_to_monthly example_ledger_gap)
    by (apply list_elem_of_In; vm_compute; right; left; reflexivity).
  destruct (C9_one_row_per_ledger_date example_ledger_gap)
    as (_ & _ & _ & _ & Hzero & _).
  destruct (Hzero r Hr) as (Hrom & Hsite & _).
  split; [exact Hr|]. split.
  - apply Hrom. intros x Hx Hd. apply list_elem_of_In in Hx. simpl in Hx.
    destruct Hx as [<-|[<-|[]]]; [discriminate Hd | reflexivity].
  - apply Hsite. intros x Hx Hd. apply list_elem_of_In in Hx. simpl in Hx.
    destruct Hx as [<-|[<-|[]]]; reflexivity.
Defined.

(** ** Safeguard metrics: columns kept by each block *)

Lemma map_keeps {R A} (f : R -> A) (g : R -> R) (df : list R) :
  (forall r, f (g r) = f r) -> map f (map g df) = map f df.
Proof. intros H. rewrite map_map. apply map_ext. exact H. Qed.

Lemma loc_assign_keeps {R A} (f : R -> A) (mask : R -> bool) (g : R -> R)
      (df : list R) :
  (forall r, f (g r) = f r) -> map f (loc_assign mask g df) = map f df.
Proof.
  intros H. unfold loc_assign. apply map_keeps. intros r.
  destruct (mask r); [apply H | reflexivity].
Qed.

Lemma map_eq_Forall2 {R A} (f : R -> A) (l l' : list R) :
  map f l' = map f l -> Forall2 (fun a b => f b = f a) l l'.
Proof.
  revert l'. induction l as [|a l IH]; intros [|b l']; simpl; try discriminate.
  - constructor.
  - intros [= Hab Hl]. constructor; auto.
Qed.

Lemma Forall_transfer {A} (P P' : A -> Prop) (R : A -> A -> Prop) (l l' : list A) :
  Forall2 R l l' -> (forall a b, R a b -> P a -> P' b) -> Forall P l -> Forall P' l'.
Proof.
  intros H2 Himp. induction H2 as [|a b l l' Hab _ IH]; intros HP.
  - constructor.
  - inversion HP; subst. constructor; eauto.
Qed.

Section Keeps.
Context {A : Type} (f : Metrics.row -> A).

Lemma assign_phase_labels_keeps d1 d2 d3 df :
  (forall v r, f (Metrics.set_Phase v r) = f r) ->
  map f (assign_phase_labels d1 d2 d3 df) = map f df.
Proof. intros H. apply map_keeps. intros r. apply H. Qed.

Lemma assign_emission_intensity_keeps df :
  (forall v r, f (Metrics.set_Emission_Intensity v r) = f r) ->
  map f (assign_emission_intensity df) = map f df.
Proof.
  intros H. unfold assign_emission_intensity.
  rewrite loc_assign_keeps by (intros r; apply H).
  apply map_keeps. intros r. apply H.
Qed.

Lemma assign_fy_keeps df :
  (forall v r, f (Metrics.set__fy v r) = f r) ->
  map f (assign_fy df) = map f df.
Proof. intros H. apply map_keeps. intros r. apply H. Qed.

Lemma assign_baseline_intensity_keeps df :
  (forall v r, f (Metrics.set_Baseline_Intensity v r) = f r) ->
  (forall v r, f (Metrics.set_Intensity_Excess v r) = f r) ->
  map f (assign_baseline_intensity df) = map f df.
Proof.
  intros H1 H2. unfold assign_baseline_intensity, assign_all.
  rewrite map_keeps by (intros r; apply H2).
  rewrite loc_assign_keeps by (intros r; apply H1).
  apply map_keeps. intros r. apply H1.
Qed.

Lemma assign_in_safeguard_keeps df :
  (forall v r, f (Metrics.set_In_Safeguard v r) = f r) ->
  map f (assign_in_safeguard df) = map f df.
Proof. intros H. apply map_keeps. intros r. apply H. Qed.

Lemma assign_raw_smc_keeps c df :
  (forall v r, f (Metrics.set_SMC_Monthly v r) = f r) ->
  map f (assign_raw_smc c df) = map f df.
Proof.
  intros H. unfold assign_raw_smc.
  rewrite loc_assign_keeps by (intros r; apply H).
  apply map_keeps. intros r. apply H.
Qed.

Lemma assign_smc_phase_keeps c df :
  (forall v r, f (Metrics.set_SMC_Phase v r) = f r) ->
  map f (assign_smc_phase c df) = map f df.
Proof. intros H. apply map_keeps. intros r. apply H. Qed.

Lemma apply_smc_rules_keeps df :
  (forall v r, f (Metrics.set_SMC_Monthly v r) = f r) ->
  map f (apply_smc_rules df) = map f df.
Proof.
  intros H. unfold apply_smc_rules.
  rewrite !loc_assign_keeps by (intros r; apply H). reflexivity.
Qed.

Lemma assign_exit_fy_keeps df :
  (forall v r, f (Metrics.set_Exit_FY v r) = f r) ->
  map f (assign_exit_fy df) = map f df.
Proof. intros H. apply map_keeps. intros r. apply H. Qed.

Lemma cumsum_from_keeps acc df :
  (forall v r, f (Metrics.set_SMC_Cumulative v r) = f r) ->
  map f (cumsum_from acc df) = map f df.
Proof.
  intros H. revert acc. induction df as [|r df IH]; intros acc; simpl.
  - reflexivity.
  - rewrite H, IH. reflexivity.
Qed.
End Keeps.

(** ** Safeguard metrics: aggregates depend on the input columns only *)

Lemma inputs_eq (r r' : Metrics.row) :
  inputs r' = inputs r ->
  Metrics.Date r' = Metrics.Date r
  /\ Metrics.Scope1_tCO2e r' = Metrics.Scope1_tCO2e r
  /\ Metrics.ROM_t r' = Metrics.ROM_t r
  /\ Metrics.Site_Electricity_kWh r' = Metrics.Site_Electricity_kWh r
  /\ Metrics._fy r' = Metrics._fy r.
Proof. unfold inputs. intros [= H1 H2 H3 H4 H5]. auto. Qed.

Lemma same_inputs_refl (df : list Metrics.row) : same_inputs df df.
Proof. induction df; constructor; auto. Qed.

Lemma same_inputs_of_map (df df' : list Metrics.row) :
  map inputs df' = map inputs df -> same_inputs df df'.
Proof. apply map_eq_Forall2. Qed.

Lemma same_inputs_map (df df' : list Metrics.row) :
  same_inputs df df' -> map inputs df' = map inputs df.
Proof. induction 1; simpl; congruence. Qed.

Lemma same_inputs_fy_rows (df df' : list Metrics.row) (fy : Z) :
  same_inputs df df' -> same_inputs (fy_rows df fy) (fy_rows df' fy).
Proof.
  unfold fy_rows. induction 1 as [|r r' df df' Hr _ IH]; simpl; [constructor|].
  destruct (inputs_eq _ _ Hr) as (_ & _ & _ & _ & Hfy). rewrite Hfy.
  destruct (Metrics._fy r =? fy)%Z; [constructor; assumption | exact IH].
Qed.

Lemma same_inputs_map_ext {A} (h : Metrics.row -> A) (df df' : list Metrics.row) :
  (forall r r', inputs r' = inputs r -> h r' = h r) ->
  same_inputs df df' -> map h df' = map h df.
Proof. intros Hh. induction 1; simpl; [reflexivity|]. f_equal; auto. Qed.

Lemma same_inputs_length (df df' : list Metrics.row) :
  same_inputs df df' -> length df' = length df.
Proof. intros H. symmetry. eapply Forall2_length. exact H. Qed.

Lemma same_inputs_fy_sum (val : Metrics.row -> Q) (df df' : list Metrics.row) (fy : Z) :
  (forall r r', inputs r' = inputs r -> val r' = val r) ->
  same_inputs df df' -> fy_sum val df' fy = fy_sum val df fy.
Proof.
  intros Hval H. unfold fy_sum. f_equal.
  apply same_inputs_map_ext; [exact Hval|].
  apply (same_inputs_fy_rows _ _ fy H).
Qed.

Lemma month_total_inputs (fy : Z) (fsr fse : Q) (r r' : Metrics.row) :
  inputs r' = inputs r -> month_total fy fsr fse r' = month_total fy fsr fse r.
Proof.
  intros H. destruct (inputs_eq _ _ H) as (_ & _ & Hrom & Hsite & _).
  unfold month_total. rewrite Hrom, Hsite. reflexivity.
Qed.

Lemma same_inputs_total_weight (fsr fse : Q) (df df' : list Metrics.row) (fy : Z) :
  same_inputs df df' -> total_weight fsr fse df' fy = total_weight fsr fse df fy.
Proof.
  intros H. unfold total_weight. f_equal.
  apply same_inputs_map_ext; [apply month_total_inputs|].
  apply same_inputs_fy_rows. exact H.
Qed.

Lemma same_inputs_n_months (df df' : list Metrics.row) (fy : Z) :
  same_inputs df df' -> n_months df' fy = n_months df fy.
Proof.
  intros H. unfold n_months.
  rewrite (same_inputs_length _ _ (same_inputs_fy_rows _ _ fy H)). reflexivity.
Qed.

Lemma same_inputs_monthly_share (fsr fse : Q) (df df' : list Metrics.row)
      (fy : Z) (annual : Q) (r r' : Metrics.row) :
  same_inputs df df' -> inputs r' = inputs r ->
  monthly_share fsr fse df' fy annual r' = monthly_share fsr fse df fy annual r.
Proof.
  intros H Hr. unfold monthly_share.
  rewrite (same_inputs_total_weight _ _ _ _ fy H), (same_inputs_n_months _ _ fy H),
    (month_total_inputs _ _ _ _ _ Hr).
  reflexivity.
Qed.

Lemma same_inputs_fy_index (df df' : list Metrics.row) :
  same_inputs df df' -> fy_index df' = fy_index df.
Proof.
  intros H. unfold fy_index. do 2 f_equal.
  apply same_inputs_map_ext; [|exact H].
  intros r r' Hr. apply inputs_eq in Hr. tauto.
Qed.

Lemma same_inputs_annual (fsr fse : Q) (rate2 : option Q)
      (df df' : list Metrics.row) (fy : Z) :
  same_inputs df df' ->
  annual_baseline_of fsr fse rate2 df' fy = annual_baseline_of fsr fse rate2 df fy.
Proof.
  intros H. unfold annual_baseline_of.
  rewrite (same_inputs_fy_sum Metrics.ROM_t df df' fy),
    (same_inputs_fy_sum Metrics.Site_Electricity_kWh df df' fy); auto.
  - intros r r' Hr. apply inputs_eq in Hr. tauto.
  - intros r r' Hr. apply inputs_eq in Hr. tauto.
Qed.

Lemma elem_of_fy_index (df : list Metrics.row) (r : Metrics.row) :
  r ∈ df -> Metrics._fy r ∈ fy_index df.
Proof.
  intros Hr. unfold fy_index.
  rewrite elem_of_py_sorted, elem_of_unique, list_elem_of_fmap. eauto.
Qed.

Lemma same_inputs_trans (df1 df2 df3 : list Metrics.row) :
  same_inputs df1 df2 -> same_inputs df2 df3 -> same_inputs df1 df3.
Proof.
  intros H12 H23. apply same_inputs_of_map.
  rewrite (same_inputs_map _ _ H23). apply same_inputs_map, H12.
Qed.

(** ** Safeguard metrics: the distribution loops *)

Section Distribute.
Variable set : Q -> Metrics.row -> Metrics.row.
Variables fsr fse : Q.
Hypothesis inputs_set : forall v r, inputs (set v r) = inputs r.

Lemma distribute_step_rows (df : list Metrics.row) (fy : Z) (annual : Q) :
  distribute_step set fsr fse df (fy, annual)
  = map (fun r => if (Metrics._fy r =? fy)%Z
                  then set (monthly_share fsr fse df fy annual r) r else r) df.
Proof.
  unfold distribute_step.
  destruct (length _ =? 0)%nat eqn:Elen.
  - apply Nat.eqb_eq in Elen. apply length_zero_iff_nil in Elen.
    symmetry. rewrite <- (map_id df) at 2. apply map_ext_in.
    intros r Hr. destruct (Metrics._fy r =? fy)%Z eqn:E; [|reflexivity].
    exfalso. assert (Hin : In r (List.filter (fun r => (Metrics._fy r =? fy)%Z) df))
      by (apply filter_In; auto).
    rewrite Elen in Hin. destruct Hin.
  - unfold monthly_share, total_weight, n_months, fy_rows, loc_assign.
    destruct (Qltb 0 _); reflexivity.
Qed.

Lemma distribute_step_same_inputs (df : list Metrics.row) (item : Z * Q) :
  same_inputs df (distribute_step set fsr fse df item).
Proof.
  destruct item as [fy annual]. rewrite distribute_step_rows.
  apply same_inputs_of_map. apply map_keeps. intros r.
  destruct (Metrics._fy r =? fy)%Z; [apply inputs_set | reflexivity].
Qed.

Lemma distribute_fold_keeps {A} (f : Metrics.row -> A) (items : list (Z * Q))
      (df : list Metrics.row) :
  (forall v r, f (set v r) = f r) ->
  map f (fold_left (distribute_step set fsr fse) items df) = map f df.
Proof.
  intros Hf. revert df. induction items as [|[fy annual] items IH]; intros df;
    cbn [fold_left].
  - reflexivity.
  - rewrite IH, distribute_step_rows. apply map_keeps. intros r.
    destruct (Metrics._fy r =? fy)%Z; [apply Hf | reflexivity].
Qed.

Hypothesis set_set : forall v v' r, set v (set v' r) = set v r.

Lemma distribute_fold_map (a : Z -> Q) (fys : list Z) (df0 df : list Metrics.row) :
  same_inputs df0 df ->
  fold_left (distribute_step set fsr fse) (map (fun fy => (fy, a fy)) fys) df
  = map (fun r =>
           if bool_decide (Metrics._fy r ∈ fys)
           then set (monthly_share fsr fse df0 (Metrics._fy r) (a (Metrics._fy r)) r) r
           else r) df.
Proof.
  revert df. induction fys as [|fy fys IH]; intros df Hsame; cbn [fold_left map].
  - symmetry. rewrite <- (map_id df) at 2. apply map_ext. intros r.
    rewrite bool_decide_eq_false_2 by apply not_elem_of_nil. reflexivity.
  - rewrite IH
      by (eapply same_inputs_trans; [exact Hsame | apply distribute_step_same_inputs]).
    rewrite distribute_step_rows, map_map. apply map_ext. intros r.
    destruct (Z.eqb_spec (Metrics._fy r) fy) as [Heq|Hne].
    + assert (Hfy : forall v, Metrics._fy (set v r) = Metrics._fy r).
      { intros v. pose proof (inputs_set v r) as Hi. apply inputs_eq in Hi. tauto. }
      rewrite Hfy. rewrite (bool_decide_eq_true_2 (Metrics._fy r ∈ fy :: fys))
        by (rewrite Heq; left).
      rewrite <- Heq.
      assert (Hms : monthly_share fsr fse df (Metrics._fy r) (a (Metrics._fy r)) r
                    = monthly_share fsr fse df0 (Metrics._fy r) (a (Metrics._fy r)) r).
      { apply same_inputs_monthly_share; [exact Hsame | reflexivity]. }
      rewrite Hms.
      destruct (bool_decide (Metrics._fy r ∈ fys)); [|reflexivity].
      rewrite set_set. f_equal.
      apply same_inputs_monthly_share; [apply same_inputs_refl | apply inputs_set].
    + destruct (bool_decide (Metrics._fy r ∈ fys)) eqn:E.
      * apply bool_decide_eq_true_1 in E.
        rewrite bool_decide_eq_true_2 by (right; exact E). reflexivity.
      * apply bool_decide_eq_false_1 in E.
        rewrite bool_decide_eq_false_2; [reflexivity|].
        rewrite elem_of_cons. intros [?|?]; contradiction.
Qed.
End Distribute.

Lemma assign_baselines_keeps {A} (f : Metrics.row -> A) fsr fse rate2 df :
  (forall v r, f (Metrics.set_Baseline v r) = f r) ->
  (forall v r, f (Metrics.set_Baseline_Unfloored v r) = f r) ->
  map f (assign_baselines fsr fse rate2 df) = map f df.
Proof.
  intros H1 H2. unfold assign_baselines, assign_all.
  rewrite distribute_fold_keeps by exact H2.
  rewrite map_keeps by (intros r; apply H2).
  rewrite distribute_fold_keeps by exact H1.
  apply map_keeps. intros r. apply H1.
Qed.

Lemma assign_baselines_rows (fsr fse : Q) (rate2 : option Q) (df : list Metrics.row) :
  assign_baselines fsr fse rate2 df
  = map (fun r =>
           Metrics.set_Baseline_Unfloored
             (monthly_share fsr fse df (Metrics._fy r)
                (snd (annual_baseline_of fsr fse rate2 df (Metrics._fy r))) r)
             (Metrics.set_Baseline
                (monthly_share fsr fse df (Metrics._fy r)
                   (fst (annual_baseline_of fsr fse rate2 df (Metrics._fy r))) r)
                r))
        df.
Proof.
  unfold assign_baselines, assign_all.
  rewrite (distribute_fold_map Metrics.set_Baseline fsr fse
             (fun _ _ => eq_refl) (fun _ _ _ => eq_refl) _ _ df)
    by (apply same_inputs_of_map, map_keeps; reflexivity).
  rewrite (distribute_fold_map Metrics.set_Baseline_Unfloored fsr fse
             (fun _ _ => eq_refl) (fun _ _ _ => eq_refl) _ _ df)
    by (apply same_inputs_of_map; rewrite !map_map; apply map_ext; intros r;
        destruct (bool_decide _); reflexivity).
  rewrite !map_map. apply map_ext_in. intros r Hr.
  apply list_elem_of_In, elem_of_fy_index in Hr. cbv beta.
  change (Metrics._fy (Metrics.set_Baseline 0.0 r)) with (Metrics._fy r).
  rewrite (bool_decide_eq_true_2 _ Hr).
  match goal with
  | |- context [bool_decide (Metrics._fy ?x ∈ _)] =>
      change (Metrics._fy x) with (Metrics._fy r)
  end.
  rewrite (bool_decide_eq_true_2 _ Hr).
  reflexivity.
Qed.

Lemma assign_baselines_ok (fsr fse : Q) (rate2 : option Q) (df : list Metrics.row) :
  Forall (baseline_ok fsr fse rate2 (assign_baselines fsr fse rate2 df))
         (assign_baselines fsr fse rate2 df).
Proof.
  assert (Hsame : same_inputs df (assign_baselines fsr fse rate2 df)).
  { apply same_inputs_of_map. apply assign_baselines_keeps; reflexivity. }
  revert Hsame. generalize (assign_baselines fsr fse rate2 df) at 1 2 as out.
  intros out Hsame. rewrite assign_baselines_rows.
  apply Forall_forall. intros r' Hr'. apply list_elem_of_fmap in Hr'.
  destruct Hr' as (r & -> & Hr). unfold baseline_ok. cbn [Metrics.Baseline
    Metrics.Baseline_Unfloored Metrics._fy Metrics.set_Baseline
    Metrics.set_Baseline_Unfloored].
  rewrite (same_inputs_annual _ _ _ _ _ _ Hsame).
  split; symmetry; apply same_inputs_monthly_share; auto.
Qed.

(** ** Safeguard metrics: the table as a pipeline *)

Lemma metrics_rows_empty fsr fse c d1 d2 d3 rate2 (monthly : list Monthly.row) :
  base_rows monthly = [] ->
  calculate_safeguard_metrics monthly fsr fse c d1 d2 d3 rate2
  = Metrics.mktable
      (Monthly.columns ++
       [ "Phase"; "Emission_Intensity"; "Baseline_Intensity"; "Baseline";
         "SMC_Monthly"; "SMC_Cumulative"; "In_Safeguard" ])
      [].
Proof.
  intros H. unfold calculate_safeguard_metrics. fold (base_rows monthly).
  rewrite H. reflexivity.
Qed.

Lemma metrics_rows_nonempty fsr fse c d1 d2 d3 rate2 (monthly : list Monthly.row) :
  base_rows monthly <> [] ->
  Metrics.rows (calculate_safeguard_metrics monthly fsr fse c d1 d2 d3 rate2)
  = smc_stage c (baseline_stage fsr fse rate2 d1 d2 d3 monthly).
Proof.
  intros H. unfold calculate_safeguard_metrics. fold (base_rows monthly).
  destruct (base_rows monthly) as [|r l] eqn:E; [contradiction|].
  cbn [length Nat.eqb]. unfold smc_stage, baseline_stage. rewrite E. reflexivity.
Qed.

Lemma smc_stage_keeps {A} (f : Metrics.row -> A) c df :
  (forall v r, f (Metrics.set_Baseline_Intensity v r) = f r) ->
  (forall v r, f (Metrics.set_Intensity_Excess v r) = f r) ->
  (forall v r, f (Metrics.set_In_Safeguard v r) = f r) ->
  (forall v r, f (Metrics.set_SMC_Monthly v r) = f r) ->
  (forall v r, f (Metrics.set_SMC_Phase v r) = f r) ->
  (forall v r, f (Metrics.set_Exit_FY v r) = f r) ->
  (forall v r, f (Metrics.set_SMC_Cumulative v r) = f r) ->
  map f (smc_stage c df) = map f df.
Proof.
  intros H1 H2 H3 H4 H5 H6 H7. unfold smc_stage.
  rewrite cumsum_from_keeps, assign_exit_fy_keeps, apply_smc_rules_keeps,
    assign_smc_phase_keeps, assign_raw_smc_keeps, assign_in_safeguard_keeps,
    assign_baseline_intensity_keeps; auto.
Qed.

Lemma baseline_stage_dates fsr fse rate2 d1 d2 d3 (monthly : list Monthly.row) :
  map Metrics.Date (baseline_stage fsr fse rate2 d1 d2 d3 monthly)
  = map Metrics.Date (base_rows monthly).
Proof.
  unfold baseline_stage.
  rewrite assign_baselines_keeps, assign_fy_keeps, assign_emission_intensity_keeps,
    assign_phase_labels_keeps; auto.
Qed.

Lemma base_rows_dates (monthly : list Monthly.row) :
  map Metrics.Date (base_rows monthly)
  = List.filter (fun d => date_geb d SAFEGUARD_START_DATE)
                (map Monthly.Date monthly).
Proof.
  unfold base_rows. induction monthly as [|m l IH]; simpl; [reflexivity|].
  destruct (date_geb (Monthly.Date m) SAFEGUARD_START_DATE); simpl; congruence.
Qed.

Lemma baseline_stage_fy fsr fse rate2 d1 d2 d3 (monthly : list Monthly.row) :
  Forall (fun r => Metrics._fy r = date_to_fy (Metrics.Date r))
         (baseline_stage fsr fse rate2 d1 d2 d3 monthly).
Proof.
  unfold baseline_stage.
  set (df := assign_emission_intensity _).
  assert (H : Forall (fun r => Metrics._fy r = date_to_fy (Metrics.Date r))
                     (assign_fy df)).
  { unfold assign_fy, assign_all. apply Forall_forall. intros r Hr.
    apply list_elem_of_fmap in Hr. destruct Hr as (r0 & -> & _). reflexivity. }
  eapply Forall_transfer; [| |exact H].
  - apply same_inputs_of_map. apply assign_baselines_keeps; reflexivity.
  - intros a b Hab Ha. simpl in Hab. apply inputs_eq in Hab.
    destruct Hab as (Hd & _ & _ & _ & Hfy). congruence.
Qed.

Lemma smc_stage_same_inputs c df : same_inputs df (smc_stage c df).
Proof. apply same_inputs_of_map. apply smc_stage_keeps; reflexivity. Qed.

Lemma baseline_ok_transfer fsr fse rate2 (df df' : list Metrics.row) :
  map inputs df' = map inputs df ->
  map baselines df' = map baselines df ->
  Forall (baseline_ok fsr fse rate2 df) df ->
  Forall (baseline_ok fsr fse rate2 df') df'.
Proof.
  intros Hi Hb H.
  assert (Hsame : same_inputs df df') by (apply same_inputs_of_map; exact Hi).
  assert (Hboth : Forall2 (fun r r' => inputs r' = inputs r
                                       /\ baselines r' = baselines r) df df').
  { clear H. revert df' Hi Hb Hsame.
    induction df as [|r df IH]; intros [|r' df']; simpl; try discriminate.
    - constructor.
    - intros [= Hi1 Hi2] [= Hb1 Hb2 Hb3] Hs. inversion Hs; subst.
      constructor; [split; [auto | unfold baselines; congruence]|].
      apply IH; auto. }
  eapply Forall_transfer; [exact Hboth| |exact H].
  intros r r' [Hri Hrb] [Hbl Hbu]. unfold baseline_ok.
  injection Hrb as Hb1 Hb2.
  assert (Hfy : Metrics._fy r' = Metrics._fy r) by (apply inputs_eq in Hri; tauto).
  rewrite Hb1, Hb2, Hfy, (same_inputs_annual _ _ _ _ _ _ Hsame).
  rewrite Hbl, Hbu.
  split; symmetry; apply same_inputs_monthly_share; auto.
Qed.

Lemma smc_stage_baseline_ok fsr fse rate2 c (df : list Metrics.row) :
  Forall (baseline_ok fsr fse rate2 df) df ->
  Forall (baseline_ok fsr fse rate2 (smc_stage c df)) (smc_stage c df).
Proof.
  apply baseline_ok_transfer; apply smc_stage_keeps; reflexivity.
Qed.

(** ** Monthly distribution of the annual baseline *)

Lemma Qltb_lt (a b : Q) : Qltb a b = true <-> a < b.
Proof.
  unfold Qltb. rewrite negb_true_iff. split.
  - intros H. apply Qnot_le_lt. intros Hle. apply Qle_bool_iff in Hle. congruence.
  - intros H. destruct (Qle_bool b a) eqn:E; [|reflexivity].
    apply Qle_bool_iff in E. exfalso. apply (Qlt_not_le _ _ H E).
Qed.

Lemma Qltb_ge (a b : Q) : Qltb a b = false <-> b <= a.
Proof.
  unfold Qltb. rewrite negb_false_iff. apply Qle_bool_iff.
Qed.

Lemma Qsum_scale {R} (w : R -> Q) (W A : Q) (l : list R) :
  Qsum (map (fun r => w r / W * A) l) == Qsum (map w l) / W * A.
Proof.
  induction l as [|r l IH]; simpl.
  - unfold Qdiv. ring.
  - rewrite IH. unfold Qdiv. ring.
Qed.

Lemma Qsum_const {R} (k : Q) (l : list R) :
  Qsum (map (fun _ => k) l) == inject_Z (Z.of_nat (length l)) * k.
Proof.
  induction l as [|r l IH].
  - simpl. ring.
  - cbn [map Qsum fold_right length]. change (fold_right Qplus 0 ?x) with (Qsum x).
    rewrite IH, Nat2Z.inj_succ. unfold Z.succ. rewrite inject_Z_plus. ring.
Qed.

Lemma Qsum_monthly_share fsr fse (df : list Metrics.row) (fy : Z) (annual : Q) :
  fy_rows df fy <> [] ->
  Qsum (map (monthly_share fsr fse df fy annual) (fy_rows df fy)) == annual.
Proof.
  intros Hne. unfold monthly_share.
  destruct (Qltb 0 (total_weight fsr fse df fy)) eqn:E.
  - apply Qltb_lt in E. rewrite Qsum_scale.
    fold (total_weight fsr fse df fy). field. lra.
  - rewrite Qsum_const. fold (n_months df fy).
    assert (Hn : 0 < n_months df fy).
    { unfold n_months. change 0 with (inject_Z 0). rewrite <- Zlt_Qlt.
      destruct (fy_rows df fy); [contradiction | simpl; lia]. }
    field. lra.
Qed.

Lemma fy_sum_baseline_ok fsr fse rate2 (df : list Metrics.row) (fy : Z) :
  Forall (baseline_ok fsr fse rate2 df) df ->
  fy_rows df fy <> [] ->
  fy_sum Metrics.Baseline df fy
  == fst (annual_baseline_of fsr fse rate2 df fy)
  /\ fy_sum Metrics.Baseline_Unfloored df fy
     == snd (annual_baseline_of fsr fse rate2 df fy).
Proof.
  intros Hok Hne.
  assert (Hrows : forall r, In r (fy_rows df fy) ->
                            baseline_ok fsr fse rate2 df r /\ Metrics._fy r = fy).
  { intros r Hr. apply filter_In in Hr. destruct Hr as [Hr Hfy].
    apply Z.eqb_eq in Hfy. rewrite Forall_forall in Hok.
    split; [apply Hok, list_elem_of_In, Hr | exact Hfy]. }
  unfold fy_sum. fold (fy_rows df fy). split.
  - rewrite (map_ext_in Metrics.Baseline
               (monthly_share fsr fse df fy
                  (fst (annual_baseline_of fsr fse rate2 df fy)))).
    + apply Qsum_monthly_share, Hne.
    + intros r Hr. destruct (Hrows r Hr) as [[Hb _] Hfy]. rewrite Hb, Hfy. reflexivity.
  - rewrite (map_ext_in Metrics.Baseline_Unfloored
               (monthly_share fsr fse df fy
                  (snd (annual_baseline_of fsr fse rate2 df fy)))).
    + apply Qsum_monthly_share, Hne.
    + intros r Hr. destruct (Hrows r Hr) as [[_ Hb] Hfy]. rewrite Hb, Hfy. reflexivity.
Qed.

Lemma metrics_rows_baseline_ok fsr fse c d1 d2 d3 rate2 (monthly : list Monthly.row) :
  let out := Metrics.rows (calculate_safeguard_metrics monthly fsr fse c d1 d2 d3 rate2) in
  Forall (baseline_ok fsr fse rate2 out) out
  /\ Forall (fun r => Metrics._fy r = date_to_fy (Metrics.Date r)) out.
Proof.
  intros out. subst out.
  destruct (base_rows monthly) as [|r0 l] eqn:E.
  - rewrite metrics_rows_empty by exact E. simpl. split; constructor.
  - rewrite metrics_rows_nonempty by (rewrite E; discriminate). split.
    + apply smc_stage_baseline_ok. apply assign_baselines_ok.
    + eapply Forall_transfer;
        [apply smc_stage_same_inputs | | apply baseline_stage_fy].
      intros a b Hab Ha. simpl in Hab. apply inputs_eq in Hab.
      destruct Hab as (Hd & _ & _ & _ & Hfy). congruence.
Qed.

(** C4. In every fiscal year of the projection the monthly [Baseline] values
    sum to the year's annual floored baseline and the monthly
    [Baseline_Unfloored] values sum to the annual unfloored baseline (exact
    arithmetic); and when the year's total production weight is zero every
    month of the year receives the annual value divided by the number of
    months. *)
Theorem C4_monthly_allocation_sums_to_annual
        (monthly : list Monthly.row) (fsei_rom fsei_elec : Q)
        (credit_start_date d1 d2 d3 : date) (rate2 : option Q) :
  let out := Metrics.rows (calculate_safeguard_metrics
                             monthly fsei_rom fsei_elec credit_start_date
                             d1 d2 d3 rate2) in
  forall r, r ∈ out ->
    let fy := date_to_fy (Metrics.Date r) in
    let annual :=
      calculate_annual_baseline
        fy (fy_sum Metrics.ROM_t out fy)
        (fy_sum Metrics.Site_Electricity_kWh out fy / 1000)
        fsei_rom fsei_elec rate2 in
    Metrics._fy r = fy
    /\ fy_sum Metrics.Baseline out fy == fst annual
    /\ fy_sum Metrics.Baseline_Unfloored out fy == snd annual
    /\ (total_weight fsei_rom fsei_elec out fy == 0 ->
        forall r', r' ∈ fy_rows out fy ->
          Metrics.Baseline r' == fst annual / n_months out fy
          /\ Metrics.Baseline_Unfloored r' == snd annual / n_months out fy).
Proof.
  intros out r Hr fy annual.
  destruct (metrics_rows_baseline_ok fsei_rom fsei_elec credit_start_date
              d1 d2 d3 rate2 monthly) as [Hok Hfys].
  fold out in Hok, Hfys.
  assert (Hfy : Metrics._fy r = fy).
  { rewrite Forall_forall in Hfys. apply Hfys. exact Hr. }
  assert (Hne : fy_rows out fy <> []).
  { intros Hnil.
    assert (Hin : In r (fy_rows out fy)).
    { apply filter_In. split; [apply list_elem_of_In; exact Hr|].
      apply Z.eqb_eq. exact Hfy. }
    rewrite Hnil in Hin. destruct Hin. }
  destruct (fy_sum_baseline_ok _ _ _ _ fy Hok Hne) as [Hfl Huf].
  split; [exact Hfy|]. split; [exact Hfl|]. split; [exact Huf|].
  intros Hzero r' Hr'. apply list_elem_of_In, filter_In in Hr'.
  destruct Hr' as [Hr' Hfy']. apply Z.eqb_eq in Hfy'.
  rewrite Forall_forall in Hok. destruct (Hok r' (proj2 (list_elem_of_In _ _) Hr'))
    as [Hb Hu].
  rewrite Hb, Hu, Hfy'. unfold monthly_share.
  assert (E : Qltb 0 (total_weight fsei_rom fsei_elec out fy) = false).
  { apply Qltb_ge. rewrite Hzero. apply Qle_refl. }
  rewrite E. split; reflexivity.
Qed.

Lemma example_metrics_head :
  exists r, hd_error (Metrics.rows example_metrics) = Some r
            /\ r ∈ Metrics.rows example_metrics.
Proof.
  destruct (Metrics.rows example_metrics) as [|r l] eqn:E.
  - vm_compute in E. discriminate E.
  - exists r. split; [reflexivity | left].
Defined.

Lemma C4_monthly_allocation_witness :
  exists r,
    r ∈ Metrics.rows example_metrics
    /\ fy_sum Metrics.Baseline (Metrics.rows example_metrics)
              (date_to_fy (Metrics.Date r))
       == fst (calculate_annual_baseline
                 (date_to_fy (Metrics.Date r))
                 (fy_sum Metrics.ROM_t (Metrics.rows example_metrics)
                         (date_to_fy (Metrics.Date r)))
                 (fy_sum Metrics.Site_Electricity_kWh (Metrics.rows example_metrics)
                         (date_to_fy (Metrics.Date r)) / 1000)
                 FSEI_ROM FSEI_ELEC None).
Proof.
  destruct example_metrics_head as (r & _ & Hr).
  exists r. split; [exact Hr|].
  exact (proj1 (proj2 (C4_monthly_allocation_sums_to_annual
                         example_monthly FSEI_ROM FSEI_ELEC CREDIT_START_DATE
                         (mkdate 2037 3 31) (mkdate 2039 12 31) (mkdate 2044 12 31)
                         None r Hr))).
Defined.

(** ** The Safeguard start filter *)

Lemma metrics_rows_dates fsr fse c d1 d2 d3 rate2 (monthly : list Monthly.row) :
  map Metrics.Date
      (Metrics.rows (calculate_safeguard_metrics monthly fsr fse c d1 d2 d3 rate2))
  = List.filter (fun d => date_geb d SAFEGUARD_START_DATE) (map Monthly.Date monthly).
Proof.
  rewrite <- base_rows_dates.
  destruct (base_rows monthly) as [|r0 l] eqn:E.
  - rewrite metrics_rows_empty by exact E. reflexivity.
  - rewrite metrics_rows_nonempty by (rewrite E; discriminate).
    rewrite smc_stage_keeps, baseline_stage_dates, E; auto.
Qed.

Lemma metrics_rows_after_start fsr fse c d1 d2 d3 rate2 (monthly : list Monthly.row)
      (r : Metrics.row) :
  r ∈ Metrics.rows (calculate_safeguard_metrics monthly fsr fse c d1 d2 d3 rate2) ->
  date_geb (Metrics.Date r) SAFEGUARD_START_DATE = true.
Proof.
  intros Hr.
  assert (Hd : Metrics.Date r ∈ map Metrics.Date
                 (Metrics.rows (calculate_safeguard_metrics
                                  monthly fsr fse c d1 d2 d3 rate2)))
    by (apply list_elem_of_fmap; eauto).
  rewrite metrics_rows_dates in Hd.
  apply list_elem_of_In, filter_In in Hd. tauto.
Qed.

(** C10. Every row of the table returned by [calculate_safeguard_metrics],
    and so of a table returned by [build_projection], is dated on or after the
    Safeguard start date, 1 July 2023; the output dates are exactly the input
    dates on or after that date, in input order, so earlier months are
    removed; and when no input month survives, the result is the empty table
    carrying the safeguard columns. *)
Theorem C10_rows_from_safeguard_start
        (monthly : list Monthly.row) (fsei_rom fsei_elec : Q)
        (credit_start_date d1 d2 d3 : date) (rate2 : option Q) :
  let t := calculate_safeguard_metrics monthly fsei_rom fsei_elec
                                       credit_start_date d1 d2 d3 rate2 in
  SAFEGUARD_START_DATE = mkdate 2023 7 1
  /\ (forall r, r ∈ Metrics.rows t ->
                date_geb (Metrics.Date r) SAFEGUARD_START_DATE = true)
  /\ map Metrics.Date (Metrics.rows t)
     = List.filter (fun d => date_geb d SAFEGUARD_START_DATE)
                   (map Monthly.Date monthly)
  /\ ((forall m, m ∈ monthly ->
                 date_geb (Monthly.Date m) SAFEGUARD_START_DATE = false) ->
      t = Metrics.mktable
            (Monthly.columns ++
             [ "Phase"; "Emission_Intensity"; "Baseline_Intensity"; "Baseline";
               "SMC_Monthly"; "SMC_Cumulative"; "In_Safeguard" ])
            [])
  /\ (forall (df : list Ledger.row) (dataset : string) (nga_csv : list NGA.row)
             (table : Metrics.table),
         build_projection df dataset nga_csv d1 d2 d3 fsei_rom fsei_elec
                          credit_start_date rate2 = Ok table ->
         forall r, r ∈ Metrics.rows table ->
                   date_geb (Metrics.Date r) SAFEGUARD_START_DATE = true).
Proof.
  intros t.
  split; [reflexivity|]. split; [intros r; apply metrics_rows_after_start|].
  split; [apply metrics_rows_dates|]. split.
  - intros Hnone. apply metrics_rows_empty.
    unfold base_rows. induction monthly as [|m l IH]; [reflexivity|].
    cbn [map List.filter].
    change (Metrics.Date (Metrics.of_monthly m)) with (Monthly.Date m).
    rewrite (Hnone m) by left.
    apply IH. intros m' Hm'. apply Hnone. right. exact Hm'.
  - intros df dataset nga_csv table. unfold build_projection.
    destruct (length _ =? 0)%nat;
      [intros [= <-] r Hr; inversion Hr|].
    destruct (length _ =? 0)%nat;
      [intros [= <-] r Hr; inversion Hr|].
    unfold bind. destruct (recalculate_emissions _ _) as [budget_prime|e];
      [|discriminate].
    intros [= <-] r. apply metrics_rows_after_start.
Qed.

Lemma C10_rows_from_safeguard_start_witness :
  (exists r, r ∈ Metrics.rows example_metrics
             /\ date_geb (Metrics.Date r) SAFEGUARD_START_DATE = true)
  /\ calculate_safeguard_metrics [example_month 2023 6 5 5 5]
       FSEI_ROM FSEI_ELEC CREDIT_START_DATE
       (mkdate 2037 3 31) (mkdate 2039 12 31) (mkdate 2044 12 31) None
     = Metrics.mktable
         (Monthly.columns ++
          [ "Phase"; "Emission_Intensity"; "Baseline_Intensity"; "Baseline";
            "SMC_Monthly"; "SMC_Cumulative"; "In_Safeguard" ])
         [].
Proof.
  split.
  - destruct example_metrics_head as (r & _ & Hr). exists r. split; [exact Hr|].
    exact (proj1 (proj2 (C10_rows_from_safeguard_start
                           example_monthly FSEI_ROM FSEI_ELEC CREDIT_START_DATE
                           (mkdate 2037 3 31) (mkdate 2039 12 31) (mkdate 2044 12 31)
                           None)) r Hr).
  - apply (proj1 (proj2 (proj2 (proj2 (C10_rows_from_safeguard_start
             [example_month 2023 6 5 5 5] FSEI_ROM FSEI_ELEC CREDIT_START_DATE
             (mkdate 2037 3 31) (mkdate 2039 12 31) (mkdate 2044 12 31) None))))).
    intros m Hm. apply list_elem_of_In in Hm. simpl in Hm.
    destruct Hm as [<-|[]]. reflexivity.
Defined.

(** ** Compliance phase and monthly SMC *)

Lemma Forall_of_map_eq {R A} (f : R -> A) (P : R -> Prop) (l l' : list R) :
  map f l' = map f l ->
  (forall a b, f b = f a -> P a -> P b) ->
  Forall P l -> Forall P l'.
Proof.
  intros Hmap Himp.
  apply (Forall_transfer P P (fun a b => f b = f a));
    [apply map_eq_Forall2; exact Hmap | exact Himp].
Qed.

Lemma map_pair_eq {R A B} (f : R -> A) (g : R -> B) (l l' : list R) :
  map f l' = map f l -> map g l' = map g l ->
  map (fun r => (f r, g r)) l' = map (fun r => (f r, g r)) l.
Proof.
  revert l'. induction l as [|a l IH]; intros [|b l']; simpl; try discriminate; auto.
  intros [= Hf1 Hf2] [= Hg1 Hg2]. rewrite Hf1, Hg1. f_equal. auto.
Qed.

Lemma list_to_map_lookup {V} (h : Z -> V) (l : list Z) (k : Z) :
  (list_to_map (map (fun fy => (fy, h fy)) l) : gmap Z V) !! k
  = if bool_decide (k ∈ l) then Some (h k) else None.
Proof.
  induction l as [|x l IH]; cbn [map list_to_map foldr].
  - rewrite lookup_empty, bool_decide_eq_false_2 by apply not_elem_of_nil.
    reflexivity.
  - simpl. destruct (decide (x = k)) as [->|Hne].
    + rewrite lookup_insert_eq, bool_decide_eq_true_2 by left. reflexivity.
    + rewrite lookup_insert_ne by exact Hne. rewrite IH.
      destruct (bool_decide (k ∈ l)) eqn:E.
      * apply bool_decide_eq_true_1 in E.
        rewrite bool_decide_eq_true_2 by (right; exact E). reflexivity.
      * apply bool_decide_eq_false_1 in E.
        rewrite bool_decide_eq_false_2; [reflexivity|].
        rewrite elem_of_cons. intros [?|?]; [congruence | contradiction].
Qed.

Lemma classify_fy_ext (f f' : Z -> Q) (covered : gset Z) (c : date) (fy : Z) :
  f' fy = f fy -> classify_fy f' covered c fy = classify_fy f covered c fy.
Proof. intros H. unfold classify_fy. rewrite H. reflexivity. Qed.

Lemma same_inputs_scope1 (df df' : list Metrics.row) (fy : Z) :
  same_inputs df df' ->
  fy_sum Metrics.Scope1_tCO2e df' fy = fy_sum Metrics.Scope1_tCO2e df fy.
Proof.
  apply same_inputs_fy_sum. intros r r' Hr. apply inputs_eq in Hr. tauto.
Qed.

Lemma same_inputs_covered_fys (df df' : list Metrics.row) :
  same_inputs df df' -> covered_fys df' = covered_fys df.
Proof.
  intros H. unfold covered_fys. rewrite (same_inputs_fy_index _ _ H). f_equal.
  induction (fy_index df) as [|fy l IH]; simpl; [reflexivity|].
  rewrite (same_inputs_scope1 _ _ fy H), IH. reflexivity.
Qed.

Lemma phase_ok_same_inputs c (df df' : list Metrics.row) (r : Metrics.row) :
  same_inputs df df' -> phase_ok c df r -> phase_ok c df' r.
Proof.
  intros H Hok. unfold phase_ok in *.
  rewrite (same_inputs_covered_fys _ _ H), Hok.
  symmetry. apply classify_fy_ext. apply same_inputs_scope1. exact H.
Qed.

Lemma assign_smc_phase_ok c (df : list Metrics.row) :
  Forall (phase_ok c (assign_smc_phase c df)) (assign_smc_phase c df).
Proof.
  assert (Hsame : same_inputs df (assign_smc_phase c df))
    by (apply same_inputs_of_map, assign_smc_phase_keeps; reflexivity).
  apply Forall_forall. intros r' Hr'.
  apply (phase_ok_same_inputs c df _ r' Hsame).
  unfold assign_smc_phase, assign_all in Hr'.
  apply list_elem_of_fmap in Hr'. destruct Hr' as (r & -> & Hr).
  unfold phase_ok. cbn [Metrics.SMC_Phase Metrics._fy Metrics.set_SMC_Phase].
  unfold fy_phase. rewrite list_to_map_lookup.
  rewrite bool_decide_eq_true_2 by (apply elem_of_fy_index; exact Hr).
  reflexivity.
Qed.

Lemma phase_ok_transfer c (df df' : list Metrics.row) :
  map inputs df' = map inputs df ->
  map Metrics.SMC_Phase df' = map Metrics.SMC_Phase df ->
  Forall (phase_ok c df) df -> Forall (phase_ok c df') df'.
Proof.
  intros Hi Hp H.
  assert (Hsame : same_inputs df df') by (apply same_inputs_of_map; exact Hi).
  assert (Hboth : map (fun r => (inputs r, Metrics.SMC_Phase r)) df'
                  = map (fun r => (inputs r, Metrics.SMC_Phase r)) df).
  { apply map_pair_eq; assumption. }
  assert (H' : Forall (phase_ok c df') df).
  { eapply Forall_impl; [exact H|]. intros r. apply phase_ok_same_inputs, Hsame. }
  eapply Forall_of_map_eq; [exact Hboth| |exact H'].
  intros a b Hab Ha. apply pair_equal_spec in Hab. destruct Hab as [Hinp Hph].
  unfold phase_ok in *. rewrite Hph, Ha.
  apply inputs_eq in Hinp. destruct Hinp as (_ & _ & _ & _ & ->). reflexivity.
Qed.

(** Evaluate a test [SMC_Phase == label] on a row whose phase is known. *)
Ltac decide_phase :=
  cbn [Metrics.SMC_Phase Metrics.SMC_Monthly Metrics.set_SMC_Monthly andb];
  match goal with
  | |- context [bool_decide (?a = ?b)] =>
      let v := eval vm_compute in (bool_decide (a = b)) in
      match v with
      | true => change (bool_decide (a = b)) with true
      | false => change (bool_decide (a = b)) with false
      end
  end;
  cbn [Metrics.SMC_Phase Metrics.SMC_Monthly Metrics.set_SMC_Monthly andb].

Lemma assign_raw_smc_rows c (df : list Metrics.row) :
  Forall (fun r => Metrics.SMC_Monthly r = raw_smc c r) (assign_raw_smc c df).
Proof.
  unfold assign_raw_smc, assign_all, loc_assign. rewrite map_map.
  apply Forall_forall. intros r' Hr'. apply list_elem_of_fmap in Hr'.
  destruct Hr' as (r & -> & _). unfold raw_smc.
  change (Metrics.Date (Metrics.set_SMC_Monthly 0.0 r)) with (Metrics.Date r).
  destruct (date_geb (Metrics.Date r) c) eqn:E; cbn; rewrite E; reflexivity.
Qed.

Lemma apply_smc_rules_rows c (df : list Metrics.row) :
  Forall (fun r => Metrics.SMC_Monthly r = raw_smc c r) df ->
  Forall (smc_rule_ok c) (apply_smc_rules df).
Proof.
  intros H. unfold apply_smc_rules, loc_assign. rewrite !map_map.
  apply Forall_forall. intros r' Hr'. apply list_elem_of_fmap in Hr'.
  destruct Hr' as (r & -> & Hr). rewrite Forall_forall in H. specialize (H r Hr).
  unfold smc_rule_ok.
  destruct r as [d e1 e2 e3 rom site grid ph ei fy bl bu bi ie ins smc sp ex cum].
  unfold raw_smc in *. cbn in H. subst smc.
  clear Hr.
  destruct sp; repeat decide_phase; try reflexivity.
  destruct (Qltb (if date_geb d c then bu - e1 else 0.0) 0) eqn:E;
    repeat decide_phase;
    cbn [Metrics.Date Metrics.Baseline_Unfloored Metrics.Scope1_tCO2e
         Metrics.set_SMC_Monthly];
    rewrite ?E; reflexivity.
Qed.

Lemma smc_rule_ok_transfer c (df df' : list Metrics.row) :
  map smc_cols df' = map smc_cols df ->
  Forall (smc_rule_ok c) df -> Forall (smc_rule_ok c) df'.
Proof.
  intros Hmap. apply (Forall_of_map_eq smc_cols); [exact Hmap|].
  intros a b [= Hd Hs Hb Hp Hm] Ha. unfold smc_rule_ok, raw_smc in *.
  rewrite Hd, Hs, Hb, Hp, Hm. exact Ha.
Qed.

Lemma smc_stage_rows c (df : list Metrics.row) :
  Forall (smc_rule_ok c) (smc_stage c df)
  /\ Forall (phase_ok c (smc_stage c df)) (smc_stage c df).
Proof.
  unfold smc_stage.
  set (df7 := assign_raw_smc c (assign_in_safeguard (assign_baseline_intensity df))).
  split.
  - apply (smc_rule_ok_transfer c (apply_smc_rules (assign_smc_phase c df7))).
    + rewrite cumsum_from_keeps, assign_exit_fy_keeps by reflexivity. reflexivity.
    + apply apply_smc_rules_rows.
      apply (Forall_of_map_eq
               (fun r => (Metrics.Date r, Metrics.Scope1_tCO2e r,
                          Metrics.Baseline_Unfloored r, Metrics.SMC_Monthly r))
               _ df7).
      * apply assign_smc_phase_keeps. reflexivity.
      * intros a b [= Hd Hs Hb Hm] Ha. unfold raw_smc in *.
        rewrite Hd, Hs, Hb, Hm. exact Ha.
      * apply assign_raw_smc_rows.
  - apply (phase_ok_transfer c (assign_smc_phase c df7)).
    + rewrite cumsum_from_keeps, assign_exit_fy_keeps, apply_smc_rules_keeps
        by reflexivity. reflexivity.
    + rewrite cumsum_from_keeps, assign_exit_fy_keeps, apply_smc_rules_keeps
        by reflexivity. reflexivity.
    + apply assign_smc_phase_ok.
Qed.

Lemma metrics_rows_smc fsr fse c d1 d2 d3 rate2 (monthly : list Monthly.row) :
  let out := Metrics.rows (calculate_safeguard_metrics monthly fsr fse c d1 d2 d3 rate2) in
  Forall (smc_rule_ok c) out /\ Forall (phase_ok c out) out.
Proof.
  intros out. subst out.
  destruct (base_rows monthly) as [|r0 l] eqn:E.
  - rewrite metrics_rows_empty by exact E. simpl. split; constructor.
  - rewrite metrics_rows_nonempty by (rewrite E; discriminate).
    apply smc_stage_rows.
Qed.

Lemma fy_start_le_date (d : date) :
  wf_date d -> date_leb (fst (fy_to_date_range (date_to_fy d))) d = true.
Proof.
  intros [[Hm1 Hm2] [Hd1 Hd2]]. destruct d as [y m dd]. simpl in *.
  unfold date_to_fy, date_leb, date_ltb, NGER_FY_START_MONTH. simpl.
  destruct (Z.leb_spec 7 m); simpl;
    destruct (Z.ltb_spec y (y + 1 - 1)), (Z.eqb_spec y (y + 1 - 1)),
      (Z.ltb_spec y (y - 1)), (Z.eqb_spec y (y - 1)),
      (Z.ltb_spec m 7), (Z.eqb_spec m 7), (Z.ltb_spec dd 1); simpl; auto; lia.
Qed.

Lemma date_after_credit_start (d c : date) :
  wf_date d ->
  date_ltb (fst (fy_to_date_range (date_to_fy d))) c = false ->
  date_geb d c = true.
Proof.
  intros Hwf Hc. unfold date_geb.
  apply (date_leb_trans c (fst (fy_to_date_range (date_to_fy d))) d).
  - unfold date_leb. rewrite Hc. reflexivity.
  - apply fy_start_le_date, Hwf.
Qed.

Lemma cumsum_from_lookup (acc : Q) (df : list Metrics.row) (i : nat) (r : Metrics.row) :
  cumsum_from acc df !! i = Some r ->
  Metrics.SMC_Cumulative r
  == acc + Qsum (map Metrics.SMC_Monthly (take (S i) (cumsum_from acc df))).
Proof.
  revert acc i. induction df as [|r0 df IH]; intros acc i; [discriminate|].
  cbn [cumsum_from]. destruct i as [|i].
  - intros [= <-].
    cbn [firstn map Qsum fold_right Metrics.SMC_Cumulative Metrics.SMC_Monthly
         Metrics.set_SMC_Cumulative].
    rewrite take_0. cbn [map fold_right]. ring.
  - intros H. change ((cumsum_from (acc + Metrics.SMC_Monthly r0) df) !! i = Some r) in H.
    rewrite (IH _ _ H).
    cbn [firstn map Qsum fold_right Metrics.SMC_Monthly Metrics.set_SMC_Cumulative].
    change (fold_right Qplus 0 ?x) with (Qsum x).
    ring.
Qed.

Lemma Qsum_take_S {R} (f : R -> Q) (l : list R) (i : nat) (r : R) :
  l !! S i = Some r ->
  Qsum (map f (take (S (S i)) l)) == Qsum (map f (take (S i) l)) + f r.
Proof.
  revert i. induction l as [|x l IH]; intros i; [discriminate|].
  intros H. change (l !! i = Some r) in H.
  destruct i as [|i].
  - destruct l as [|y l]; [discriminate|]. injection H as ->.
    cbn [firstn map Qsum fold_right]. rewrite take_0. cbn [map fold_right]. ring.
  - specialize (IH _ H).
    change (take (S (S (S i))) (x :: l)) with (x :: take (S (S i)) l).
    change (take (S (S i)) (x :: l)) with (x :: take (S i) l).
    cbn [map Qsum fold_right]. change (fold_right Qplus 0 ?y) with (Qsum y).
    rewrite IH. ring.
Qed.

Lemma filter_sorted {A} (R : A -> A -> Prop) (p : A -> bool) (l : list A) :
  StronglySorted R l -> StronglySorted R (List.filter p l).
Proof.
  induction 1 as [|x l Hs IH Hall]; simpl; [constructor|].
  destruct (p x); [|exact IH]. constructor; [exact IH|].
  rewrite Forall_forall in *. intros y Hy.
  apply Hall. apply list_elem_of_In. apply list_elem_of_In, filter_In in Hy. tauto.
Qed.

Lemma Qgeb_ge (a b : Q) : Qgeb a b = true <-> b <= a.
Proof. unfold Qgeb. apply Qle_bool_iff. Qed.

Lemma classify_fy_safeguard (f : Z -> Q) (covered : gset Z) (c : date) (fy : Z) :
  date_ltb (fst (fy_to_date_range fy)) c = false ->
  SAFEGUARD_THRESHOLD <= f fy ->
  classify_fy f covered c fy = Safeguard.
Proof.
  intros Hc Hs. unfold classify_fy. rewrite Hc.
  rewrite (proj2 (Qgeb_ge _ _) Hs). reflexivity.
Qed.

Lemma classify_fy_not_exited (f : Z -> Q) (covered : gset Z) (c : date) (fy : Z) :
  SAFEGUARD_THRESHOLD <= f fy ->
  classify_fy f covered c fy <> Exited.
Proof.
  intros Hs. unfold classify_fy.
  destruct (date_ltb _ c); [discriminate|].
  rewrite (proj2 (Qgeb_ge _ _) Hs). discriminate.
Qed.

(** Case analysis on every integer comparison of a date goal. *)
Ltac date_cases :=
  repeat match goal with
    | H : context [(?a <? ?b)%Z] |- _ => destruct (Z.ltb_spec a b)
    | H : context [(?a =? ?b)%Z] |- _ => destruct (Z.eqb_spec a b)
    | H : context [(?a <=? ?b)%Z] |- _ => destruct (Z.leb_spec a b)
    | |- context [(?a <? ?b)%Z] => destruct (Z.ltb_spec a b)
    | |- context [(?a =? ?b)%Z] => destruct (Z.eqb_spec a b)
    | |- context [(?a <=? ?b)%Z] => destruct (Z.leb_spec a b)
    end;
  cbn [andb orb negb year month day fst] in *;
  try discriminate; try reflexivity; try lia.

Lemma fy_start_after_default_credit_start (d : date) :
  date_geb d SAFEGUARD_START_DATE = true ->
  date_ltb (fst (fy_to_date_range (date_to_fy d))) CREDIT_START_DATE = false.
Proof.
  destruct d as [y m dd].
  unfold date_geb, date_leb, date_ltb, date_to_fy, fy_to_date_range,
    NGER_FY_START_MONTH, SAFEGUARD_START_DATE, CREDIT_START_DATE.
  cbn [year month day fst]. intros H.
  destruct (Z.leb_spec 7 m); cbn [year month day fst]; date_cases.
Qed.

(** C3. A fiscal year whose annual Scope-1 total is at or above the 100,000
    tCO2e threshold and whose start is not before the credit-scheme start
    date is labelled Safeguard on all of its rows (with the default credit
    start date, every year of the table at or above the threshold); so a year
    that rises back to the threshold after a dip year is Safeguard, and no
    year at or above the threshold is ever Exited. *)
Theorem C3_threshold_year_is_safeguard
        (monthly : list Monthly.row) (fsei_rom fsei_elec : Q)
        (credit_start_date d1 d2 d3 : date) (rate2 : option Q) :
  let out := Metrics.rows (calculate_safeguard_metrics
                             monthly fsei_rom fsei_elec credit_start_date
                             d1 d2 d3 rate2) in
  let annual_scope1 := fy_sum Metrics.Scope1_tCO2e out in
  SAFEGUARD_THRESHOLD == 100000
  /\ (forall r, r ∈ out -> Metrics._fy r = date_to_fy (Metrics.Date r))
  /\ (forall r, r ∈ out ->
        let fy := date_to_fy (Metrics.Date r) in
        SAFEGUARD_THRESHOLD <= annual_scope1 fy ->
        date_ltb (fst (fy_to_date_range fy)) credit_start_date = false ->
        Metrics.SMC_Phase r = Safeguard)
  /\ (forall r_dip r_rise, r_dip ∈ out -> r_rise ∈ out ->
        let fy_dip := date_to_fy (Metrics.Date r_dip) in
        let fy_rise := date_to_fy (Metrics.Date r_rise) in
        fy_rise = (fy_dip + 1)%Z ->
        annual_scope1 fy_dip < SAFEGUARD_THRESHOLD ->
        SAFEGUARD_THRESHOLD <= annual_scope1 fy_rise ->
        date_ltb (fst (fy_to_date_range fy_rise)) credit_start_date = false ->
        Metrics.SMC_Phase r_rise = Safeguard /\ Metrics.SMC_Phase r_rise <> Exited)
  /\ (forall r, r ∈ out ->
        SAFEGUARD_THRESHOLD <= annual_scope1 (date_to_fy (Metrics.Date r)) ->
        Metrics.SMC_Phase r <> Exited)
  /\ (credit_start_date = CREDIT_START_DATE ->
      forall r, r ∈ out ->
        SAFEGUARD_THRESHOLD <= annual_scope1 (date_to_fy (Metrics.Date r)) ->
        Metrics.SMC_Phase r = Safeguard).
Proof.
  intros out annual_scope1.
  destruct (metrics_rows_smc fsei_rom fsei_elec credit_start_date d1 d2 d3 rate2 monthly)
    as [_ Hphase].
  destruct (metrics_rows_baseline_ok fsei_rom fsei_elec credit_start_date
              d1 d2 d3 rate2 monthly) as [_ Hfy].
  fold out in Hphase, Hfy. rewrite Forall_forall in Hphase, Hfy.
  assert (Hsafe : forall r, r ∈ out ->
            SAFEGUARD_THRESHOLD <= annual_scope1 (date_to_fy (Metrics.Date r)) ->
            date_ltb (fst (fy_to_date_range (date_to_fy (Metrics.Date r))))
                     credit_start_date = false ->
            Metrics.SMC_Phase r = Safeguard).
  { intros r Hr Hs Hc. rewrite (Hphase r Hr), (Hfy r Hr).
    apply classify_fy_safeguard; assumption. }
  split; [reflexivity|]. split; [exact Hfy|]. split; [exact Hsafe|].
  split; [|split].
  - intros r_dip r_rise _ Hrise fy_dip fy_rise _ _ Hs Hc.
    assert (H : Metrics.SMC_Phase r_rise = Safeguard) by (apply Hsafe; assumption).
    split; [exact H | rewrite H; discriminate].
  - intros r Hr Hs. rewrite (Hphase r Hr), (Hfy r Hr).
    apply classify_fy_not_exited. exact Hs.
  - intros -> r Hr Hs. apply Hsafe; [exact Hr | exact Hs |].
    apply fy_start_after_default_credit_start.
    eapply metrics_rows_after_start. exact Hr.
Qed.

Lemma C3_threshold_year_witness :
  exists r_dip r_rise,
    r_dip ∈ Metrics.rows example_metrics
    /\ r_rise ∈ Metrics.rows example_metrics
    /\ Metrics.SMC_Phase r_rise = Safeguard
    /\ Metrics.SMC_Phase r_rise <> Exited.
Proof.
  destruct (Metrics.rows example_metrics !! 2%nat) as [r_dip|] eqn:E2;
    [|vm_compute in E2; discriminate E2].
  destruct (Metrics.rows example_metrics !! 4%nat) as [r_rise|] eqn:E4;
    [|vm_compute in E4; discriminate E4].
  assert (H2 : r_dip ∈ Metrics.rows example_metrics)
    by (eapply list_elem_of_lookup_2; exact E2).
  assert (H4 : r_rise ∈ Metrics.rows example_metrics)
    by (eapply list_elem_of_lookup_2; exact E4).
  exists r_dip, r_rise. split; [exact H2|]. split; [exact H4|].
  destruct (C3_threshold_year_is_safeguard
              example_monthly FSEI_ROM FSEI_ELEC CREDIT_START_DATE
              (mkdate 2037 3 31) (mkdate 2039 12 31) (mkdate 2044 12 31) None)
    as (_ & _ & _ & Hreentry & _).
  apply (Hreentry r_dip r_rise H2 H4);
    vm_compute in E2; vm_compute in E4;
    injection E2 as E2; injection E4 as E4; subst r_dip r_rise;
    vm_compute; first [reflexivity | discriminate].
Defined.

(** C2. The monthly SMC of every output row follows the phase of its fiscal
    year: in Safeguard phase it is the unfloored-baseline share minus Scope 1
    (possibly negative) for a date at or after the credit start date and 0
    for an earlier date; in Gap phase 0; in Opt-In phase the same difference
    floored at 0; in Exited phase 0.  [SMC_Cumulative] is the running sum of
    the monthly values over the whole table in row order, with no reset, and
    the rows are in date order when the input is, as it is in every table
    that [build_projection] returns. *)
Theorem C2_monthly_smc_by_phase
        (monthly : list Monthly.row) (fsei_rom fsei_elec : Q)
        (credit_start_date d1 d2 d3 : date) (rate2 : option Q) :
  let out := Metrics.rows (calculate_safeguard_metrics
                             monthly fsei_rom fsei_elec credit_start_date
                             d1 d2 d3 rate2) in
  (forall r, r ∈ out ->
     let diff := Metrics.Baseline_Unfloored r - Metrics.Scope1_tCO2e r in
     Metrics.SMC_Phase r
     = classify_fy (fy_sum Metrics.Scope1_tCO2e out) (covered_fys out)
                   credit_start_date (date_to_fy (Metrics.Date r))
     /\ (Metrics.SMC_Phase r = Safeguard ->
         (date_geb (Metrics.Date r) credit_start_date = true ->
          Metrics.SMC_Monthly r == diff)
         /\ (date_geb (Metrics.Date r) credit_start_date = false ->
             Metrics.SMC_Monthly r == 0))
     /\ (Metrics.SMC_Phase r = Gap -> Metrics.SMC_Monthly r == 0)
     /\ (Metrics.SMC_Phase r = Opt_In ->
         0 <= Metrics.SMC_Monthly r
         /\ (wf_date (Metrics.Date r) -> Metrics.SMC_Monthly r == Qmax diff 0))
     /\ (Metrics.SMC_Phase r = Exited -> Metrics.SMC_Monthly r == 0))
  /\ (forall i r, out !! i = Some r ->
        Metrics.SMC_Cumulative r == Qsum (map Metrics.SMC_Monthly (take (S i) out)))
  /\ (forall i r r', out !! i = Some r -> out !! S i = Some r' ->
        Metrics.SMC_Cumulative r' == Metrics.SMC_Cumulative r + Metrics.SMC_Monthly r')
  /\ (StronglySorted (fun a b => date_leb a b = true) (map Monthly.Date monthly) ->
      StronglySorted (fun a b => date_leb a b = true) (map Metrics.Date out))
  /\ (forall (df : list Ledger.row) (dataset : string) (nga_csv : list NGA.row)
             (table : Metrics.table),
         build_projection df dataset nga_csv d1 d2 d3 fsei_rom fsei_elec
                          credit_start_date rate2 = Ok table ->
         StronglySorted (fun a b => date_leb a b = true)
                        (map Metrics.Date (Metrics.rows table))).
Proof.
  intros out.
  destruct (metrics_rows_smc fsei_rom fsei_elec credit_start_date d1 d2 d3 rate2 monthly)
    as [Hrule Hphase].
  destruct (metrics_rows_baseline_ok fsei_rom fsei_elec credit_start_date
              d1 d2 d3 rate2 monthly) as [_ Hfy].
  fold out in Hrule, Hphase, Hfy. rewrite Forall_forall in Hrule, Hphase, Hfy.
  assert (Hcum : forall i r, out !! i = Some r ->
            Metrics.SMC_Cumulative r
            == Qsum (map Metrics.SMC_Monthly (take (S i) out))).
  { intros i r Hi. subst out.
    destruct (base_rows monthly) as [|r0 l] eqn:E.
    - rewrite metrics_rows_empty in Hi by exact E. discriminate Hi.
    - rewrite metrics_rows_nonempty in * by (rewrite E; discriminate).
      unfold smc_stage in *. rewrite (cumsum_from_lookup _ _ _ _ Hi). ring. }
  split; [|split; [exact Hcum|split; [|split]]].
  - intros r Hr diff. subst diff.
    set (diff := Metrics.Baseline_Unfloored r - Metrics.Scope1_tCO2e r).
    pose proof (Hrule r Hr) as Hr1. pose proof (Hphase r Hr) as Hr2.
    unfold smc_rule_ok, raw_smc in Hr1. fold diff in Hr1. unfold phase_ok in Hr2.
    rewrite (Hfy r Hr) in Hr2.
    split; [exact Hr2|]. split; [|split; [|split]].
    + intros Hp. rewrite Hp in Hr1. split; intros Hd; rewrite Hd in Hr1;
        rewrite Hr1; reflexivity.
    + intros Hp. rewrite Hp in Hr1. rewrite Hr1. reflexivity.
    + intros Hp.
      assert (Hmax : Metrics.SMC_Monthly r
                     == Qmax (if date_geb (Metrics.Date r) credit_start_date
                              then diff else 0) 0).
      { rewrite Hp in Hr1. rewrite Hr1.
        assert (Hz : 0.0 == 0) by reflexivity.
        destruct (date_geb (Metrics.Date r) credit_start_date).
        - destruct (Qltb diff 0) eqn:E.
          + apply Qltb_lt in E. rewrite Q.max_r; [exact Hz | lra].
          + apply Qltb_ge in E. rewrite Q.max_l; [reflexivity | exact E].
        - destruct (Qltb 0.0 0); rewrite Q.max_l; try reflexivity; lra. }
      split.
      * rewrite Hmax. apply Q.le_max_r.
      * intros Hwf. rewrite Hmax.
        rewrite (date_after_credit_start _ credit_start_date Hwf); [reflexivity|].
        rewrite Hp in Hr2. unfold classify_fy in Hr2.
        destruct (date_ltb _ credit_start_date); [discriminate Hr2 | reflexivity].
    + intros Hp. rewrite Hp in Hr1. rewrite Hr1. reflexivity.
  - intros i r r' Hi Hi'.
    rewrite (Hcum _ _ Hi'), (Hcum _ _ Hi).
    apply Qsum_take_S. exact Hi'.
  - intros Hsorted. subst out. rewrite metrics_rows_dates.
    apply filter_sorted. exact Hsorted.
  - intros df dataset nga_csv table. unfold build_projection.
    destruct (length _ =? 0)%nat; [intros [= <-]; constructor|].
    destruct (length _ =? 0)%nat; [intros [= <-]; constructor|].
    unfold bind. destruct (recalculate_emissions _ _) as [budget_prime|e];
      [|discriminate].
    intros [= <-]. rewrite metrics_rows_dates. apply filter_sorted.
    rewrite aggregate_to_monthly_dates.
    apply py_sorted_sorted; [apply date_leb_total | apply date_leb_trans].
Qed.

Lemma C2_monthly_smc_witness :
  exists r,
    r ∈ Metrics.rows example_metrics_optin
    /\ Metrics.SMC_Phase r = Opt_In
    /\ wf_date (Metrics.Date r)
    /\ 0 <= Metrics.SMC_Monthly r
    /\ Metrics.SMC_Monthly r
       == Qmax (Metrics.Baseline_Unfloored r - Metrics.Scope1_tCO2e r) 0.
Proof.
  destruct (Metrics.rows example_metrics_optin !! 3%nat) as [r|] eqn:E;
    [|vm_compute in E; discriminate E].
  assert (Hr : r ∈ Metrics.rows example_metrics_optin)
    by (eapply list_elem_of_lookup_2; exact E).
  assert (Hp : Metrics.SMC_Phase r = Opt_In).
  { vm_compute in E. injection E as E. subst r. reflexivity. }
  assert (Hwf : wf_date (Metrics.Date r)).
  { vm_compute in E. injection E as E. subst r. unfold wf_date. simpl. lia. }
  destruct (C2_monthly_smc_by_phase
              example_monthly_optin FSEI_ROM FSEI_ELEC CREDIT_START_DATE
              (mkdate 2037 3 31) (mkdate 2039 12 31) (mkdate 2044 12 31) None)
    as (Hrows & _).
  destruct (Hrows r Hr) as (_ & _ & _ & Hoptin & _).
  destruct (Hoptin Hp) as [Hnonneg Hmax].
  exists r. repeat split; auto; apply Hwf.
Defined.

(** ** Emissions calculator *)

Section FoldMasked.
Context {R K : Type} `{EqDecision K}.
Variable owner : R -> option K.
Variable g : K -> R -> R.
Hypothesis g_owner : forall k r, owner (g k r) = owner r.

Lemma fold_masked_step (ks : list K) (df : list R) :
  NoDup ks ->
  fold_left (masked_step owner g) ks df
  = map (fun r => match owner r with
                  | Some k => if decide (k ∈ ks) then g k r else r
                  | None => r
                  end) df.
Proof.
  intros Hnd. revert df. induction Hnd as [|k ks Hk Hnd IH]; intros df;
    cbn [fold_left].
  - symmetry. rewrite <- (map_id df) at 2. apply map_ext. intros r.
    destruct (owner r) as [k|]; [|reflexivity].
    rewrite decide_False by apply not_elem_of_nil. reflexivity.
  - rewrite IH. unfold masked_step. rewrite map_map. apply map_ext. intros r.
    destruct (decide (owner r = Some k)) as [Ho|Ho].
    + rewrite g_owner, Ho.
      rewrite decide_False by exact Hk.
      rewrite decide_True by left. reflexivity.
    + destruct (owner r) as [k'|]; [|reflexivity].
      destruct (decide (k' ∈ ks)) as [Hin|Hnin].
      * rewrite decide_True by (right; exact Hin). reflexivity.
      * rewrite decide_False; [reflexivity|].
        rewrite elem_of_cons. intros [->|?]; [congruence | contradiction].
Qed.

Variable step : list R -> K -> list R.
Variable sim : list R -> Prop.
Hypothesis step_masked : forall df k, sim df -> step df k = masked_step owner g df k.
Hypothesis sim_step : forall df k, sim df -> sim (masked_step owner g df k).

Lemma fold_step_masked (ks : list K) (df : list R) :
  sim df -> fold_left step ks df = fold_left (masked_step owner g) ks df.
Proof.
  revert df. induction ks as [|k ks IH]; intros df Hsim; cbn [fold_left].
  - reflexivity.
  - rewrite step_masked by exact Hsim. apply IH, sim_step, Hsim.
Qed.
End FoldMasked.

Section Emissions.
Variable year_factor_map : gmap Z (list (string * factors)).
Variable fy_col : Ledger.row -> Z.
Hypothesis fy_col_reads : reads_no_emissions fy_col.

Lemma apply_factors_row_keeps {A} (f : Ledger.row -> A) (yf : factors) (r : Ledger.row) :
  reads_no_emissions f -> f (apply_factors_row yf r) = f r.
Proof.
  intros (H1 & H2 & H3 & H4). unfold apply_factors_row.
  destruct (truthy (s1 yf)), (truthy (s2 yf)), (truthy (s3 yf)),
    (truthy (energy yf)); rewrite ?H4, ?H3, ?H2, ?H1; reflexivity.
Qed.

Lemma reads_NGAFuel : reads_no_emissions Ledger.NGAFuel.
Proof. repeat split. Qed.

Lemma reads_Quantity : reads_no_emissions Ledger.Quantity.
Proof. repeat split. Qed.

Lemma reads_fuel_mask (nga_fuel : string) : reads_no_emissions (fuel_mask nga_fuel).
Proof. repeat split. Qed.

Lemma reads_has_fuel : reads_no_emissions has_fuel.
Proof. repeat split. Qed.

Lemma reads_selectors : reads_no_emissions (selectors fy_col).
Proof.
  destruct fy_col_reads as (H1 & H2 & H3 & H4). unfold selectors.
  repeat split; intros v r; rewrite ?H1, ?H2, ?H3, ?H4; reflexivity.
Qed.

Lemma year_row_keeps {A} (f : Ledger.row -> A) (key : string) (year : Z)
      (r : Ledger.row) :
  reads_no_emissions f -> f (year_row year_factor_map key year r) = f r.
Proof.
  intros H. unfold year_row. destruct (dict_get _ _); [|reflexivity].
  apply apply_factors_row_keeps, H.
Qed.

Lemma guarded_assign {R} (b : bool) (mask : R -> bool) (g : R -> R) (df : list R) :
  (if b then loc_assign mask g df else df)
  = map (fun r => if mask r then (if b then g r else r) else r) df.
Proof.
  destruct b; [reflexivity|].
  rewrite <- (map_id df) at 1. apply map_ext. intros r.
  destruct (mask r); reflexivity.
Qed.

Lemma apply_factors_map (yf : factors) (ymask : Ledger.row -> bool)
      (df : list Ledger.row) :
  reads_no_emissions ymask ->
  apply_factors yf ymask df
  = map (fun r => if ymask r then apply_factors_row yf r else r) df.
Proof.
  intros (H1 & H2 & H3 & H4). unfold apply_factors, apply_factors_row.
  rewrite !guarded_assign, !map_map. apply map_ext. intros r.
  destruct (ymask r) eqn:E;
    destruct (truthy (s1 yf)), (truthy (s2 yf)), (truthy (s3 yf)),
      (truthy (energy yf));
    repeat first [rewrite H1 | rewrite H2 | rewrite H3 | rewrite H4 | rewrite E];
    reflexivity.
Qed.

Lemma year_owner_mask (nga_fuel : string) (year : Z) (r : Ledger.row) :
  fuel_mask nga_fuel r && (fy_col r =? year)%Z
  = bool_decide (year_owner fy_col nga_fuel r = Some year).
Proof.
  unfold year_owner. destruct (fuel_mask nga_fuel r); cbn [andb].
  - destruct (Z.eqb_spec (fy_col r) year) as [->|Hne].
    + rewrite bool_decide_eq_true_2; reflexivity.
    + rewrite bool_decide_eq_false_2; [reflexivity | congruence].
  - rewrite bool_decide_eq_false_2; [reflexivity | discriminate].
Qed.

Lemma year_step_masked (nga_fuel key : string) (df : list Ledger.row) (year : Z) :
  year_step year_factor_map fy_col nga_fuel key df year
  = masked_step (year_owner fy_col nga_fuel) (year_row year_factor_map key) df year.
Proof.
  unfold year_step, masked_step.
  assert (Hmask : forall r,
             (if decide (year_owner fy_col nga_fuel r = Some year)
              then year_row year_factor_map key year r else r)
             = if fuel_mask nga_fuel r && (fy_col r =? year)%Z
               then year_row year_factor_map key year r else r).
  { intros r. rewrite year_owner_mask.
    destruct (decide (year_owner fy_col nga_fuel r = Some year)) as [e|n];
      [rewrite bool_decide_eq_true_2 by exact e
      |rewrite bool_decide_eq_false_2 by exact n]; reflexivity. }
  rewrite (map_ext _ _ Hmask).
  destruct (existsb _ df) eqn:Eex; cbn [negb].
  - unfold year_row. destruct (dict_get key _) as [yf|].
    + apply apply_factors_map.
      destruct fy_col_reads as (H1 & H2 & H3 & H4).
      repeat split; intros v r; rewrite ?H1, ?H2, ?H3, ?H4; reflexivity.
    + symmetry. rewrite <- (map_id df) at 2. apply map_ext. intros r.
      destruct (_ && _); reflexivity.
  - symmetry. rewrite <- (map_id df) at 2. apply map_ext_in. intros r Hr.
    destruct (fuel_mask nga_fuel r && (fy_col r =? year)%Z) eqn:E; [|reflexivity].
    exfalso. assert (Hex : existsb
               (fun r => fuel_mask nga_fuel r && (fy_col r =? year)%Z) df = true)
      by (apply existsb_exists; eauto).
    congruence.
Qed.

Lemma year_fold_rows (nga_fuel key : string) (df : list Ledger.row) :
  fold_left (year_step year_factor_map fy_col nga_fuel key)
            (unique (map fy_col (List.filter (fuel_mask nga_fuel) df))) df
  = map (fun r => if fuel_mask nga_fuel r
                  then year_row year_factor_map key (fy_col r) r else r) df.
Proof.
  rewrite (fold_step_masked (year_owner fy_col nga_fuel)
             (year_row year_factor_map key)
             (year_step year_factor_map fy_col nga_fuel key) (fun _ => True))
    by (auto using year_step_masked).
  rewrite fold_masked_step.
  - apply map_ext_in. intros r Hr. unfold year_owner.
    destruct (fuel_mask nga_fuel r) eqn:E; [|reflexivity].
    rewrite decide_True; [reflexivity|].
    apply elem_of_unique, list_elem_of_fmap. exists r. split; [reflexivity|].
    apply list_elem_of_In, filter_In. auto.
  - intros k r. unfold year_owner.
    rewrite (year_row_keeps (fuel_mask nga_fuel)) by apply reads_fuel_mask.
    rewrite (year_row_keeps fy_col) by exact fy_col_reads. reflexivity.
  - apply NoDup_unique.
Qed.
End Emissions.

Section EmissionsByFuel.
Variable year_factor_map : gmap Z (list (string * factors)).
Variable fy_col : Ledger.row -> Z.
Hypothesis fy_col_reads : reads_no_emissions fy_col.

Lemma masked_fy_selectors (nga_fuel : string) (df df' : list Ledger.row) :
  map (selectors fy_col) df' = map (selectors fy_col) df ->
  map fy_col (List.filter (fuel_mask nga_fuel) df')
  = map fy_col (List.filter (fuel_mask nga_fuel) df).
Proof.
  revert df'. induction df as [|r df IH]; intros [|r' df']; cbn [map];
    try discriminate; [reflexivity|].
  intros H. apply (f_equal (fun l => (hd_error l, tl l))) in H. cbn in H.
  apply pair_equal_spec in H. destruct H as [Hhd Htl].
  injection Hhd as Hfuel Hfy.
  assert (Hm : fuel_mask nga_fuel r' = fuel_mask nga_fuel r)
    by (unfold fuel_mask, has_fuel; rewrite Hfuel; reflexivity).
  cbn [List.filter]. rewrite Hm. destruct (fuel_mask nga_fuel r); cbn [map].
  - rewrite Hfy. f_equal. apply IH, Htl.
  - apply IH, Htl.
Qed.

Lemma resolved_key_selectors (nga_fuel : string) (df df' : list Ledger.row) :
  map (selectors fy_col) df' = map (selectors fy_col) df ->
  resolved_key year_factor_map fy_col df' nga_fuel
  = resolved_key year_factor_map fy_col df nga_fuel.
Proof.
  intros H. apply (masked_fy_selectors nga_fuel) in H. unfold resolved_key.
  destruct (List.filter (fuel_mask nga_fuel) df') as [|x l],
           (List.filter (fuel_mask nga_fuel) df) as [|y l'];
    cbn [map] in H; try discriminate; [reflexivity|].
  injection H as -> _. reflexivity.
Qed.

Lemma fuel_owner_mask (nga_fuel : string) (r : Ledger.row) :
  fuel_mask nga_fuel r = bool_decide (fuel_owner r = Some nga_fuel).
Proof.
  unfold fuel_mask, fuel_owner. destruct (has_fuel r); cbn [andb].
  - destruct (Ledger.NGAFuel r) as [s|].
    + destruct (String.eqb_spec s nga_fuel) as [->|Hne].
      * rewrite bool_decide_eq_true_2; reflexivity.
      * rewrite bool_decide_eq_false_2; [reflexivity | congruence].
    + rewrite bool_decide_eq_false_2; [reflexivity | discriminate].
  - rewrite bool_decide_eq_false_2; [reflexivity | discriminate].
Qed.

Lemma fuel_row_keeps {A} (f : Ledger.row -> A) (df : list Ledger.row)
      (nga_fuel : string) (r : Ledger.row) :
  reads_no_emissions f -> f (fuel_row year_factor_map fy_col df nga_fuel r) = f r.
Proof.
  intros H. unfold fuel_row. destruct (resolved_key _ _ _ _); [|reflexivity].
  apply year_row_keeps, H.
Qed.

Lemma fuel_step_masked (df0 df : list Ledger.row) (nga_fuel : string) :
  map (selectors fy_col) df = map (selectors fy_col) df0 ->
  fuel_step year_factor_map fy_col df nga_fuel
  = masked_step fuel_owner (fuel_row year_factor_map fy_col df0) df nga_fuel.
Proof.
  intros Hsel. unfold fuel_step, masked_step, fuel_row.
  rewrite (resolved_key_selectors nga_fuel df0 df Hsel).
  destruct (resolved_key year_factor_map fy_col df0 nga_fuel) as [key|].
  - rewrite year_fold_rows by exact fy_col_reads.
    apply map_ext. intros r. rewrite fuel_owner_mask.
    destruct (decide (fuel_owner r = Some nga_fuel)) as [e|n];
      [rewrite bool_decide_eq_true_2 by exact e
      |rewrite bool_decide_eq_false_2 by exact n]; reflexivity.
  - rewrite <- (map_id df) at 1. apply map_ext. intros r.
    destruct (decide _); reflexivity.
Qed.

Lemma apply_emissions_rows (agg_df : list Ledger.row) :
  apply_emissions_to_df agg_df year_factor_map fy_col
  = map (fun r => emit_row year_factor_map fy_col (map init_emissions agg_df)
                           (init_emissions r))
        agg_df.
Proof.
  unfold apply_emissions_to_df.
  set (df0 := map init_emissions agg_df).
  rewrite <- (map_map init_emissions (emit_row year_factor_map fy_col df0)).
  fold df0.
  destruct (existsb has_fuel df0) eqn:Eex; cbn [negb].
  - rewrite (fold_step_masked fuel_owner (fuel_row year_factor_map fy_col df0)
               (fuel_step year_factor_map fy_col)
               (fun df => map (selectors fy_col) df = map (selectors fy_col) df0)).
    + rewrite fold_masked_step.
      * apply map_ext_in. intros r Hr. unfold fuel_owner, emit_row, fuel_row.
        destruct (has_fuel r) eqn:Ehf; [|reflexivity].
        destruct (Ledger.NGAFuel r) as [f|] eqn:Ef; [|reflexivity].
        rewrite decide_True; [reflexivity|].
        apply elem_of_unique, list_elem_of_omap. exists r. split; [|exact Ef].
        apply list_elem_of_In, filter_In. auto.
      * intros k r. unfold fuel_owner.
        rewrite (fuel_row_keeps has_fuel) by apply reads_has_fuel.
        rewrite (fuel_row_keeps Ledger.NGAFuel) by apply reads_NGAFuel.
        reflexivity.
      * apply NoDup_unique.
    + intros df k Hsim. apply fuel_step_masked, Hsim.
    + intros df k Hsim. rewrite <- Hsim. unfold masked_step.
      apply map_keeps. intros r. destruct (decide _); [|reflexivity].
      apply fuel_row_keeps, reads_selectors, fy_col_reads.
    + reflexivity.
  - symmetry. etransitivity; [|apply (map_id df0)].
    apply map_ext_in. intros r Hr.
    unfold emit_row. destruct (has_fuel r) eqn:E; [|reflexivity].
    exfalso. assert (existsb has_fuel df0 = true) by (apply existsb_exists; eauto).
    congruence.
Qed.
End EmissionsByFuel.

Lemma truthy_false (x : Q) : truthy x = false -> x == 0.
Proof.
  unfold truthy. rewrite negb_false_iff. apply Qeq_bool_eq.
Qed.

Lemma apply_factors_row_values (yf : factors) (r : Ledger.row) :
  Ledger.Scope1_tCO2e r == 0 -> Ledger.Scope2_tCO2e r == 0 ->
  Ledger.Scope3_tCO2e r == 0 -> Ledger.Energy_GJ r == 0 ->
  let o := apply_factors_row yf r in
  Ledger.Scope1_tCO2e o == Ledger.Quantity r * s1 yf / 1000
  /\ Ledger.Scope2_tCO2e o == Ledger.Quantity r * s2 yf / 1000
  /\ Ledger.Scope3_tCO2e o == Ledger.Quantity r * s3 yf / 1000
  /\ Ledger.Energy_GJ o == Ledger.Quantity r * energy yf.
Proof.
  intros Z1 Z2 Z3 Z4. unfold apply_factors_row.
  destruct (truthy (s1 yf)) eqn:E1, (truthy (s2 yf)) eqn:E2,
    (truthy (s3 yf)) eqn:E3, (truthy (energy yf)) eqn:E4;
    cbn [Ledger.Scope1_tCO2e Ledger.Scope2_tCO2e Ledger.Scope3_tCO2e
         Ledger.Energy_GJ Ledger.Quantity Ledger.set_Scope1_tCO2e
         Ledger.set_Scope2_tCO2e Ledger.set_Scope3_tCO2e Ledger.set_Energy_GJ];
    try apply truthy_false in E1; try apply truthy_false in E2;
    try apply truthy_false in E3; try apply truthy_false in E4;
    rewrite ?Z1, ?Z2, ?Z3, ?Z4, ?E1, ?E2, ?E3, ?E4;
    repeat split; try reflexivity; unfold Qdiv; ring.
Qed.

Lemma resolve_factor_key_keys (l l' : list (string * factors)) (nga_fuel : string) :
  dict_keys l = dict_keys l' ->
  resolve_factor_key l nga_fuel = resolve_factor_key l' nga_fuel.
Proof. intros H. unfold resolve_factor_key. rewrite H. reflexivity. Qed.

Lemma apply_emissions_formulas
      (agg_df : list Ledger.row)
      (year_factor_map : gmap Z (list (string * factors)))
      (fy_col : Ledger.row -> Z) :
  reads_no_emissions fy_col ->
  forall i r o nga_fuel factor_key year_factors yf,
    agg_df !! i = Some r ->
    apply_emissions_to_df agg_df year_factor_map fy_col !! i = Some o ->
    Ledger.NGAFuel r = Some nga_fuel -> nga_fuel <> "" ->
    resolved_key year_factor_map fy_col agg_df nga_fuel = Some factor_key ->
    year_factor_map !! fy_col r = Some year_factors ->
    dict_get factor_key year_factors = Some yf ->
    emission_formulas r o yf.
Proof.
  intros Hreads i r o nga_fuel factor_key year_factors yf Hi Ho Hfuel Hne Hkey Hyf Hget.
  assert (Hsel : map (selectors fy_col) (map init_emissions agg_df)
                 = map (selectors fy_col) agg_df).
  { apply map_keeps. intros r0. destruct Hreads as (H1 & H2 & H3 & H4).
    unfold selectors, init_emissions. rewrite H4, H3, H2, H1. reflexivity. }
  rewrite apply_emissions_rows, list_lookup_fmap, Hi in Ho by exact Hreads.
  injection Ho as <-.
  assert (Hfy : fy_col (init_emissions r) = fy_col r).
  { destruct Hreads as (H1 & H2 & H3 & H4). unfold init_emissions.
    rewrite H4, H3, H2, H1. reflexivity. }
  unfold emit_row.
  assert (Hhas : has_fuel (init_emissions r) = true).
  { unfold has_fuel. cbn. rewrite Hfuel.
    destruct (String.eqb_spec nga_fuel ""); [contradiction | reflexivity]. }
  rewrite Hhas.
  change (Ledger.NGAFuel (init_emissions r)) with (Ledger.NGAFuel r).
  rewrite Hfuel, (resolved_key_selectors _ _ nga_fuel _ _ Hsel), Hkey.
  unfold year_row. rewrite Hfy, Hyf.
  change (default [] (Some year_factors)) with year_factors. rewrite Hget.
  destruct (apply_factors_row_values yf (init_emissions r))
    as (V1 & V2 & V3 & V4); try reflexivity.
  change (Ledger.Quantity (init_emissions r)) with (Ledger.Quantity r) in *.
  unfold emission_formulas.
  split; [rewrite (apply_factors_row_keeps Ledger.Quantity) by apply reads_Quantity;
          reflexivity|].
  repeat split; auto.
  - intros Hz. rewrite V1, Hz. unfold Qdiv. ring.
  - intros Hz. rewrite V2, Hz. unfold Qdiv. ring.
  - intros Hz. rewrite V3, Hz. unfold Qdiv. ring.
Qed.

Lemma apply_emissions_formulas_uniform
      (agg_df : list Ledger.row)
      (year_factor_map : gmap Z (list (string * factors)))
      (fy_col : Ledger.row -> Z) :
  reads_no_emissions fy_col ->
  (forall y y' l l', year_factor_map !! y = Some l ->
                     year_factor_map !! y' = Some l' ->
                     dict_keys l = dict_keys l') ->
  (forall r, r ∈ agg_df -> has_fuel r = true ->
             is_Some (year_factor_map !! fy_col r)) ->
  forall i r o nga_fuel factor_key year_factors yf,
    agg_df !! i = Some r ->
    apply_emissions_to_df agg_df year_factor_map fy_col !! i = Some o ->
    Ledger.NGAFuel r = Some nga_fuel -> nga_fuel <> "" ->
    year_factor_map !! fy_col r = Some year_factors ->
    resolve_factor_key year_factors nga_fuel = Some factor_key ->
    dict_get factor_key year_factors = Some yf ->
    emission_formulas r o yf.
Proof.
  intros Hreads Huniform Hcovers i r o nga_fuel factor_key year_factors yf
         Hi Ho Hfuel Hne Hyf Hkey Hget.
  apply (apply_emissions_formulas agg_df year_factor_map fy_col Hreads
           i r o nga_fuel factor_key year_factors yf); auto.
  assert (Hmask : fuel_mask nga_fuel r = true).
  { unfold fuel_mask, has_fuel. rewrite Hfuel, String.eqb_refl.
    destruct (String.eqb_spec nga_fuel ""); [contradiction | reflexivity]. }
  unfold resolved_key.
  destruct (List.filter (fuel_mask nga_fuel) agg_df) as [|first rest] eqn:Ef.
  - exfalso. assert (Hin : In r (List.filter (fuel_mask nga_fuel) agg_df)).
    { apply filter_In. split; [|exact Hmask].
      apply list_elem_of_In. eapply list_elem_of_lookup_2. exact Hi. }
    rewrite Ef in Hin. destruct Hin.
  - assert (Hfirst : In first (List.filter (fuel_mask nga_fuel) agg_df))
      by (rewrite Ef; left; reflexivity).
    apply filter_In in Hfirst. destruct Hfirst as [Hfin Hfm].
    assert (Hfhas : has_fuel first = true).
    { unfold fuel_mask in Hfm. apply andb_prop in Hfm. tauto. }
    destruct (Hcovers first (proj2 (list_elem_of_In _ _) Hfin) Hfhas) as [l Hl].
    rewrite Hl. rewrite (resolve_factor_key_keys l year_factors); [exact Hkey|].
    eapply Huniform; eassumption.
Qed.

(** C6. For a consumption row whose fuel tag resolves to a factor key, the
    calculator sets Scope1_tCO2e = Quantity * F1 / 1000 with F1 the key's
    Scope-1 factor for the row's year, and likewise, independently, for
    Scope 2 and Scope 3 (a zero factor giving zero), and
    Energy_GJ = Quantity * energy per unit, in exact arithmetic; the quantity
    itself is not altered.  The key is resolved once per tag against the
    factors of the year of the tag's first row; when every year of the map
    carries the same keys and covers the years of the table, as the maps of
    the factor-map builder do, this is the resolution against the row's own
    year. *)
Theorem C6_emissions_from_factors
        (agg_df : list Ledger.row)
        (year_factor_map : gmap Z (list (string * factors)))
        (fy_col : Ledger.row -> Z) :
  reads_no_emissions fy_col ->
  let out := apply_emissions_to_df agg_df year_factor_map fy_col in
  length out = length agg_df
  /\ (forall i r o nga_fuel factor_key year_factors yf,
        agg_df !! i = Some r -> out !! i = Some o ->
        Ledger.NGAFuel r = Some nga_fuel -> nga_fuel <> "" ->
        resolved_key year_factor_map fy_col agg_df nga_fuel = Some factor_key ->
        year_factor_map !! fy_col r = Some year_factors ->
        dict_get factor_key year_factors = Some yf ->
        emission_formulas r o yf)
  /\ ((forall y y' l l', year_factor_map !! y = Some l ->
                         year_factor_map !! y' = Some l' ->
                         dict_keys l = dict_keys l') ->
      (forall r, r ∈ agg_df -> has_fuel r = true ->
                 is_Some (year_factor_map !! fy_col r)) ->
      forall i r o nga_fuel factor_key year_factors yf,
        agg_df !! i = Some r -> out !! i = Some o ->
        Ledger.NGAFuel r = Some nga_fuel -> nga_fuel <> "" ->
        year_factor_map !! fy_col r = Some year_factors ->
        resolve_factor_key year_factors nga_fuel = Some factor_key ->
        dict_get factor_key year_factors = Some yf ->
        emission_formulas r o yf)
  /\ (forall (nga_by_year : NGA.store) (recalculated : list Ledger.row),
        recalculate_emissions agg_df nga_by_year = Ok recalculated ->
        exists m,
          build_year_factor_map
            nga_by_year (unique (map (fun r => date_to_fy (Ledger.Date r)) agg_df))
            "QLD" = Ok m
          /\ forall i r o nga_fuel factor_key year_factors yf,
               agg_df !! i = Some r -> recalculated !! i = Some o ->
               Ledger.NGAFuel r = Some nga_fuel -> nga_fuel <> "" ->
               m !! date_to_fy (Ledger.Date r) = Some year_factors ->
               resolve_factor_key year_factors nga_fuel = Some factor_key ->
               dict_get factor_key year_factors = Some yf ->
               emission_formulas r o yf).
Proof.
  intros Hreads out.
  split; [subst out; rewrite apply_emissions_rows by exact Hreads; apply length_map|].
  split; [apply apply_emissions_formulas, Hreads|].
  split; [apply apply_emissions_formulas_uniform, Hreads|].
  intros nga_by_year recalculated. unfold recalculate_emissions, bind.
  destruct (build_year_factor_map _ _ _) as [m|e] eqn:E; [|discriminate].
  intros [= <-]. exists m. split; [reflexivity|].
  destruct (build_year_factor_map_keys _ _ _ _ E) as [Hcov Hkeys].
  apply apply_emissions_formulas_uniform.
  - repeat split.
  - intros y y' l l' Hl Hl'. rewrite (Hkeys y l Hl), (Hkeys y' l' Hl'). reflexivity.
  - intros r Hr _. apply Hcov, elem_of_unique, list_elem_of_fmap. eauto.
Qed.

Lemma C6_emissions_from_factors_witness :
  exists o yf,
    apply_emissions_to_df example_ledger_gap example_factor_map Ledger.FY !! 1%nat
    = Some o
    /\ dict_get "Diesel oil" (default [] (example_factor_map !! 2024%Z)) = Some yf
    /\ Ledger.Scope1_tCO2e o == 12 * s1 yf / 1000
    /\ Ledger.Scope3_tCO2e o == 12 * s3 yf / 1000
    /\ Ledger.Energy_GJ o == 12 * energy yf.
Proof.
  destruct (apply_emissions_to_df example_ledger_gap example_factor_map Ledger.FY
              !! 1%nat) as [o|] eqn:Eo;
    [|vm_compute in Eo; discriminate Eo].
  destruct (example_factor_map !! 2024%Z) as [yfs|] eqn:Em;
    [|vm_compute in Em; discriminate Em].
  destruct (dict_get "Diesel oil" yfs) as [yf|] eqn:Eg;
    [|vm_compute in Em; injection Em as Em; subst yfs;
      vm_compute in Eg; discriminate Eg].
  exists o, yf. split; [reflexivity|]. split; [exact Eg|].
  assert (Hreads : reads_no_emissions Ledger.FY) by (repeat split).
  destruct (C6_emissions_from_factors example_ledger_gap example_factor_map
              Ledger.FY Hreads) as (_ & Hrow & _).
  destruct (Hrow 1%nat
              (example_ledger_row (mkdate 2024 3 1) "Diesel" "Hauling"
                                  (Some "Diesel oil") 12)
              o "Diesel oil" "Diesel oil" yfs yf)
    as (_ & H1 & _ & H3 & H4 & _).
  - reflexivity.
  - exact Eo.
  - reflexivity.
  - discriminate.
  - vm_compute. reflexivity.
  - exact Em.
  - exact Eg.
  - auto.
Defined.

(** * Further properties *)

(** ** Transition proportion, hybrid intensity and ERC *)

Lemma transition_schedule_lookup (fy : Z) :
  TRANSITION_SCHEDULE !! fy
  = if (fy =? 2024)%Z then Some 0.10
    else if (fy =? 2025)%Z then Some 0.20
    else if (fy =? 2026)%Z then Some 0.30
    else if (fy =? 2027)%Z then Some 0.40
    else if (fy =? 2028)%Z then Some 0.60
    else if (fy =? 2029)%Z then Some 0.80
    else if (fy =? 2030)%Z then Some 1.00
    else None.
Proof.
  unfold TRANSITION_SCHEDULE. cbn [list_to_map foldr fst snd uncurry].
  repeat (rewrite lookup_insert; case_decide;
          [subst fy; reflexivity|];
          match goal with
          | |- context [(fy =? ?k)%Z] =>
              destruct (Z.eqb_spec fy k); [congruence|]
          end).
  apply lookup_empty.
Qed.

Lemma transition_proportion_cases (fy : Z) :
  ((fy < 2024)%Z /\ get_transition_proportion fy = 0.0)
  \/ (fy = 2024%Z /\ get_transition_proportion fy = 0.10)
  \/ (fy = 2025%Z /\ get_transition_proportion fy = 0.20)
  \/ (fy = 2026%Z /\ get_transition_proportion fy = 0.30)
  \/ (fy = 2027%Z /\ get_transition_proportion fy = 0.40)
  \/ (fy = 2028%Z /\ get_transition_proportion fy = 0.60)
  \/ (fy = 2029%Z /\ get_transition_proportion fy = 0.80)
  \/ (fy = 2030%Z /\ get_transition_proportion fy = 1.00)
  \/ ((2030 < fy)%Z /\ get_transition_proportion fy = 1.0).
Proof.
  unfold get_transition_proportion, DECLINE_PHASE1_START.
  rewrite transition_schedule_lookup.
  destruct (Z.ltb_spec fy 2024); [left; auto|].
  repeat match goal with
         | |- context [(fy =? ?k)%Z] =>
             destruct (Z.eqb_spec fy k) as [->|?]; [tauto|]
         end.
  do 8 right. split; [lia | reflexivity].
Qed.

Ltac transition_cases fy H :=
  destruct (transition_proportion_cases fy)
    as [[H ->]|[[H ->]|[[H ->]|[[H ->]|[[H ->]|[[H ->]|[[H ->]|[[H ->]|[H ->]]]]]]]]].

Lemma transition_proportion_range (fy : Z) : 0 <= get_transition_proportion fy <= 1.
Proof. transition_cases fy H; split; vm_compute; discriminate. Qed.

Lemma transition_proportion_before (fy : Z) :
  (fy < 2024)%Z -> get_transition_proportion fy == 0.
Proof. intros Hfy. transition_cases fy H; try lia; reflexivity. Qed.

Lemma transition_proportion_after (fy : Z) :
  (2030 <= fy)%Z -> get_transition_proportion fy == 1.
Proof. intros Hfy. transition_cases fy H; try lia; reflexivity. Qed.

(** X1. The transition proportion h lies in [0, 1] for every fiscal year,
    never decreases from one year to a later one, is 0 before FY2024 and 1
    from FY2030 on. *)
Theorem X1_transition_proportion_bounds :
  (forall fy, 0 <= get_transition_proportion fy <= 1)
  /\ (forall fy1 fy2, (fy1 <= fy2)%Z ->
        get_transition_proportion fy1 <= get_transition_proportion fy2)
  /\ (forall fy, (fy < 2024)%Z -> get_transition_proportion fy == 0)
  /\ (forall fy, (2030 <= fy)%Z -> get_transition_proportion fy == 1).
Proof.
  split; [exact transition_proportion_range|].
  split; [|split; [exact transition_proportion_before
                  |exact transition_proportion_after]].
  intros fy1 fy2 Hle.
  transition_cases fy1 H1; transition_cases fy2 H2;
    try lia; vm_compute; discriminate.
Qed.

Lemma X1_transition_proportion_witness :
  (2026 <= 2029)%Z
  /\ get_transition_proportion 2026 <= get_transition_proportion 2029
  /\ get_transition_proportion 2020 == 0
  /\ get_transition_proportion 2035 == 1.
Proof.
  destruct X1_transition_proportion_bounds as (_ & Hmono & Hlo & Hhi).
  split; [lia|]. split; [apply Hmono; lia|].
  split; [apply Hlo; lia | apply Hhi; lia].
Defined.

Lemma convex_between (h d f : Q) :
  0 <= h <= 1 -> Qmin f d <= h * d + (1 - h) * f <= Qmax f d.
Proof.
  intros [H0 H1].
  assert (E : h * d + (1 - h) * f == f + h * (d - f)) by ring.
  rewrite E.
  destruct (Qlt_le_dec f d) as [Hlt|Hge].
  - rewrite Q.min_l, Q.max_r by lra.
    assert (0 <= h * (d - f)) by (apply Qmult_le_0_compat; lra).
    assert (0 <= (1 - h) * (d - f)) by (apply Qmult_le_0_compat; lra).
    split; lra.
  - rewrite Q.min_r, Q.max_l by lra.
    assert (0 <= h * (f - d)) by (apply Qmult_le_0_compat; lra).
    assert (0 <= (1 - h) * (f - d)) by (apply Qmult_le_0_compat; lra).
    split; lra.
Qed.

(** X2. Each hybrid emissions intensity is a blend that lies between the
    facility-specific and the default intensity; it is the facility-specific
    value before FY2024 and the default value from FY2030 on. *)
Theorem X2_hybrid_ei_between (fy : Z) (fsei_rom fsei_elec d_rom d_elec : Q) :
  let hybrid := calculate_hybrid_ei_with fy fsei_rom fsei_elec d_rom d_elec in
  (Qmin fsei_rom d_rom <= fst hybrid <= Qmax fsei_rom d_rom)
  /\ (Qmin fsei_elec d_elec <= snd hybrid <= Qmax fsei_elec d_elec)
  /\ ((fy < 2024)%Z -> fst hybrid == fsei_rom /\ snd hybrid == fsei_elec)
  /\ ((2030 <= fy)%Z -> fst hybrid == d_rom /\ snd hybrid == d_elec).
Proof.
  intros hybrid. subst hybrid. unfold calculate_hybrid_ei_with. cbn [fst snd].
  split; [apply convex_between, transition_proportion_range|].
  split; [apply convex_between, transition_proportion_range|].
  split; intros Hfy.
  - rewrite (transition_proportion_before fy Hfy). split; ring.
  - rewrite (transition_proportion_after fy Hfy). split; ring.
Qed.

Lemma X2_hybrid_ei_witness :
  (2030 <= 2031)%Z
  /\ fst (calculate_hybrid_ei_with 2031 FSEI_ROM FSEI_ELEC
            DEFAULT_INDUSTRY_EI_ROM DEFAULT_INDUSTRY_EI_ELEC)
     == DEFAULT_INDUSTRY_EI_ROM.
Proof.
  split; [lia|].
  apply (proj2 (proj2 (proj2 (X2_hybrid_ei_between 2031 FSEI_ROM FSEI_ELEC
           DEFAULT_INDUSTRY_EI_ROM DEFAULT_INDUSTRY_EI_ELEC)))). lia.
Defined.

(** ** ERC with a caller-supplied phase-2 rate *)

Lemma erc_upto_2030 (fy : Z) (rate : option Q) :
  (fy <= 2030)%Z ->
  calculate_erc_for_fy fy rate
  = if (fy <? 2024)%Z then 1.0
    else Qmax (1.0 - inject_Z (fy - (2024 - 1)) * 0.049) 0.0.
Proof.
  intros Hfy. unfold calculate_erc_for_fy, DECLINE_PHASE1_START, DECLINE_PHASE1_END,
    DECLINE_RATE_PHASE1.
  destruct (Z.ltb_spec fy 2024); [reflexivity|].
  destruct (Z.leb_spec fy 2030); [reflexivity|lia].
Qed.

Lemma erc_after_2030 (fy : Z) (r : Q) :
  (2030 < fy)%Z ->
  calculate_erc_for_fy fy (Some r)
  == Qmax (0.657 - inject_Z (Z.min fy 2050 - 2030) * r) 0.
Proof.
  intros Hfy. unfold calculate_erc_for_fy, DECLINE_PHASE1_START, DECLINE_PHASE1_END,
    DECLINE_PHASE2_END, DECLINE_RATE_PHASE1.
  destruct (Z.ltb_spec fy 2024); [lia|].
  destruct (Z.leb_spec fy 2030); [lia|].
  change (inject_Z (2030 - (2024 - 1))) with 7.
  destruct (Z.leb_spec fy 2050).
  - rewrite Z.min_l by lia.
    apply Qmax_eq_compat; [|reflexivity]. lra.
  - rewrite Z.min_r by lia.
    apply Qmax_eq_compat; [|reflexivity]. lra.
Qed.

Lemma Qmax_zero_nonneg (a : Q) : 0 <= Qmax a 0.0.
Proof. eapply Qle_trans; [|apply Q.le_max_r]. vm_compute; discriminate. Qed.

Lemma erc_range (fy : Z) (r : Q) :
  0 <= r -> 0 <= calculate_erc_for_fy fy (Some r) <= 1.
Proof.
  intros Hr.
  destruct (Z.le_gt_cases fy 2030) as [Hle|Hgt].
  - rewrite erc_upto_2030 by exact Hle.
    destruct (Z.ltb_spec fy 2024); [split; vm_compute; discriminate|].
    split; [apply Qmax_zero_nonneg|].
    apply Q.max_lub; [|vm_compute; discriminate].
    assert (Hq : 0 <= inject_Z (fy - (2024 - 1)))
      by (change 0 with (inject_Z 0); rewrite <- Zle_Qle; lia).
    assert (0 <= inject_Z (fy - (2024 - 1)) * 0.049)
      by (apply Qmult_le_0_compat; [exact Hq | vm_compute; discriminate]).
    lra.
  - rewrite erc_after_2030 by lia.
    split; [apply Q.le_max_r|].
    apply Q.max_lub; [|vm_compute; discriminate].
    assert (Hq : 0 <= inject_Z (Z.min fy 2050 - 2030))
      by (change 0 with (inject_Z 0); rewrite <- Zle_Qle; lia).
    assert (0 <= inject_Z (Z.min fy 2050 - 2030) * r)
      by (apply Qmult_le_0_compat; assumption).
    lra.
Qed.

Lemma Qmax_le_compat_l (a b c : Q) : a <= b -> Qmax a c <= Qmax b c.
Proof.
  intros H. apply Q.max_lub.
  - eapply Qle_trans; [exact H | apply Q.le_max_l].
  - apply Q.le_max_r.
Qed.

Lemma erc_mono (a b : Z) (r : Q) :
  0 <= r -> (a <= b)%Z ->
  calculate_erc_for_fy b (Some r) <= calculate_erc_for_fy a (Some r).
Proof.
  intros Hr Hab.
  destruct (Z.le_gt_cases b 2030) as [Hb|Hb].
  - rewrite !erc_upto_2030 by lia.
    destruct (Z.ltb_spec a 2024), (Z.ltb_spec b 2024); try lia.
    + apply Qle_refl.
    + apply Q.max_lub; [|vm_compute; discriminate].
      assert (Hq : 0 <= inject_Z (b - (2024 - 1)))
        by (change 0 with (inject_Z 0); rewrite <- Zle_Qle; lia).
      assert (0 <= inject_Z (b - (2024 - 1)) * 0.049)
        by (apply Qmult_le_0_compat; [exact Hq | vm_compute; discriminate]).
      lra.
    + apply Qmax_le_compat_l.
      assert (Hq : inject_Z (a - (2024 - 1)) <= inject_Z (b - (2024 - 1)))
        by (rewrite <- Zle_Qle; lia).
      assert (inject_Z (a - (2024 - 1)) * 0.049 <= inject_Z (b - (2024 - 1)) * 0.049)
        by (apply Qmult_le_compat_r; [exact Hq | vm_compute; discriminate]).
      lra.
  - rewrite (erc_after_2030 b) by lia.
    destruct (Z.le_gt_cases a 2030) as [Ha|Ha].
    + rewrite (erc_upto_2030 a) by lia.
      assert (Hb0 : 0 <= inject_Z (Z.min b 2050 - 2030))
        by (change 0 with (inject_Z 0); rewrite <- Zle_Qle; lia).
      assert (0 <= inject_Z (Z.min b 2050 - 2030) * r)
        by (apply Qmult_le_0_compat; assumption).
      destruct (Z.ltb_spec a 2024).
      * apply Q.max_lub; [lra | vm_compute; discriminate].
      * apply Q.max_lub; [|apply Qmax_zero_nonneg].
        eapply Qle_trans; [|apply Q.le_max_l].
        assert (Hq : inject_Z (a - (2024 - 1)) <= 7)
          by (change 7 with (inject_Z 7); rewrite <- Zle_Qle; lia).
        assert (inject_Z (a - (2024 - 1)) * 0.049 <= 7 * 0.049)
          by (apply Qmult_le_compat_r; [exact Hq | vm_compute; discriminate]).
        lra.
    + rewrite (erc_after_2030 a) by lia.
      apply Qmax_le_compat_l.
      assert (Hq : inject_Z (Z.min a 2050 - 2030) <= inject_Z (Z.min b 2050 - 2030))
        by (rewrite <- Zle_Qle; lia).
      assert (inject_Z (Z.min a 2050 - 2030) * r <= inject_Z (Z.min b 2050 - 2030) * r)
        by (apply Qmult_le_compat_r; assumption).
      lra.
Qed.

(** X3. With a caller-supplied, nonnegative phase-2 decline rate the ERC
    stays in [0, 1], never increases from one fiscal year to a later one and
    is frozen at its FY2050 value after FY2050; up to FY2030 it does not
    depend on the phase-2 rate at all, and from FY2031 to FY2050 it is
    max(0.657 - (fy - 2030) * rate, 0). *)
Theorem X3_erc_custom_rate (r : Q) :
  0 <= r ->
  (forall fy, 0 <= calculate_erc_for_fy fy (Some r) <= 1)
  /\ (forall fy1 fy2, (fy1 <= fy2)%Z ->
        calculate_erc_for_fy fy2 (Some r) <= calculate_erc_for_fy fy1 (Some r))
  /\ (forall fy, (2050 < fy)%Z ->
        calculate_erc_for_fy fy (Some r) == calculate_erc_for_fy 2050 (Some r))
  /\ (forall fy rate, (fy <= 2030)%Z ->
        calculate_erc_for_fy fy rate = calculate_erc_for_fy fy None)
  /\ (forall fy, (2030 < fy <= 2050)%Z ->
        calculate_erc_for_fy fy (Some r)
        == Qmax (0.657 - inject_Z (fy - 2030) * r) 0).
Proof.
  intros Hr.
  split; [intros fy; apply erc_range, Hr|].
  split; [intros fy1 fy2; apply erc_mono, Hr|].
  split; [|split].
  - intros fy Hfy. rewrite !erc_after_2030 by lia.
    rewrite Z.min_r by lia. reflexivity.
  - intros fy rate Hfy. rewrite !erc_upto_2030 by exact Hfy. reflexivity.
  - intros fy Hfy. rewrite erc_after_2030 by lia.
    rewrite Z.min_l by lia. reflexivity.
Qed.

Lemma X3_erc_custom_rate_witness :
  0 <= 0.05
  /\ (2031 <= 2040)%Z
  /\ calculate_erc_for_fy 2040 (Some 0.05) <= calculate_erc_for_fy 2031 (Some 0.05)
  /\ calculate_erc_for_fy 2060 (Some 0.05) == calculate_erc_for_fy 2050 (Some 0.05)
  /\ calculate_erc_for_fy 2045 (Some 0.05) == 0.
Proof.
  assert (H5 : 0 <= 0.05) by (vm_compute; discriminate).
  destruct (X3_erc_custom_rate 0.05 H5) as (_ & Hmono & Hfrozen & _ & Hform).
  split; [exact H5|]. split; [lia|].
  split; [apply Hmono; lia|].
  split; [apply Hfrozen; lia|].
  rewrite Hform by lia. reflexivity.
Defined.

(** ** Regimes of the annual baseline *)

Lemma hybrid_ei_before (fy : Z) (fr fe : Q) :
  (fy < 2024)%Z ->
  fst (calculate_hybrid_ei fy fr fe) == fr /\ snd (calculate_hybrid_ei fy fr fe) == fe.
Proof.
  intros Hfy. unfold calculate_hybrid_ei, calculate_hybrid_ei_with. cbn [fst snd].
  rewrite (transition_proportion_before fy Hfy). split; ring.
Qed.

Lemma hybrid_ei_after (fy : Z) (fr fe : Q) :
  (2030 <= fy)%Z ->
  fst (calculate_hybrid_ei fy fr fe) == DEFAULT_INDUSTRY_EI_ROM
  /\ snd (calculate_hybrid_ei fy fr fe) == DEFAULT_INDUSTRY_EI_ELEC.
Proof.
  intros Hfy. unfold calculate_hybrid_ei, calculate_hybrid_ei_with. cbn [fst snd].
  rewrite (transition_proportion_after fy Hfy). split; ring.
Qed.

Lemma annual_baseline_unfloored (fy : Z) (rom mwh fr fe : Q) (rate : option Q) :
  snd (calculate_annual_baseline fy rom mwh fr fe rate)
  = calculate_erc_for_fy fy rate
    * (fst (calculate_hybrid_ei fy fr fe) * rom
       + snd (calculate_hybrid_ei fy fr fe) * mwh).
Proof.
  unfold calculate_annual_baseline.
  destruct (calculate_hybrid_ei fy fr fe). reflexivity.
Qed.

Lemma annual_baseline_floored (fy : Z) (rom mwh fr fe : Q) (rate : option Q) :
  fst (calculate_annual_baseline fy rom mwh fr fe rate)
  = Qmax (snd (calculate_annual_baseline fy rom mwh fr fe rate))
         SAFEGUARD_MINIMUM_BASELINE.
Proof.
  unfold calculate_annual_baseline.
  destruct (calculate_hybrid_ei fy fr fe). reflexivity.
Qed.

(** X4. Before FY2024 the unfloored annual baseline is the facility-specific
    intensities applied to production, with no decline; from FY2030 on both
    baselines are independent of the facility-specific intensities; and for
    nonnegative production, intensities and phase-2 rate the unfloored
    baseline is never negative. *)
Theorem X4_annual_baseline_regimes
        (fy : Z) (rom_t site_mwh fsei_rom fsei_elec : Q) (rate2 : option Q) :
  let baseline := calculate_annual_baseline fy rom_t site_mwh in
  ((fy < 2024)%Z ->
     snd (baseline fsei_rom fsei_elec rate2)
     == fsei_rom * rom_t + fsei_elec * site_mwh)
  /\ ((2030 <= fy)%Z ->
      forall fsei_rom' fsei_elec',
        snd (baseline fsei_rom fsei_elec rate2) == snd (baseline fsei_rom' fsei_elec' rate2)
        /\ fst (baseline fsei_rom fsei_elec rate2)
           == fst (baseline fsei_rom' fsei_elec' rate2))
  /\ (0 <= rom_t -> 0 <= site_mwh -> 0 <= fsei_rom -> 0 <= fsei_elec ->
      forall r, 0 <= r -> 0 <= snd (baseline fsei_rom fsei_elec (Some r))).
Proof.
  intros baseline. subst baseline. cbv beta.
  split; [|split].
  - intros Hfy. rewrite annual_baseline_unfloored.
    destruct (hybrid_ei_before fy fsei_rom fsei_elec Hfy) as [-> ->].
    rewrite erc_upto_2030 by lia.
    destruct (Z.ltb_spec fy 2024); [ring | lia].
  - intros Hfy fr' fe'.
    assert (Hs : snd (calculate_annual_baseline fy rom_t site_mwh fsei_rom fsei_elec rate2)
                 == snd (calculate_annual_baseline fy rom_t site_mwh fr' fe' rate2)).
    { rewrite !annual_baseline_unfloored.
      destruct (hybrid_ei_after fy fsei_rom fsei_elec Hfy) as [-> ->].
      destruct (hybrid_ei_after fy fr' fe' Hfy) as [-> ->]. reflexivity. }
    split; [exact Hs|].
    rewrite !annual_baseline_floored. apply Qmax_eq_compat; [exact Hs | reflexivity].
  - intros Hrom Hmwh Hfr Hfe r Hr. rewrite annual_baseline_unfloored.
    assert (Hd1 : 0 <= DEFAULT_INDUSTRY_EI_ROM) by (vm_compute; discriminate).
    assert (Hd2 : 0 <= DEFAULT_INDUSTRY_EI_ELEC) by (vm_compute; discriminate).
    pose proof (convex_between (get_transition_proportion fy)
                  DEFAULT_INDUSTRY_EI_ROM fsei_rom
                  (transition_proportion_range fy)) as [Hr1 _].
    pose proof (convex_between (get_transition_proportion fy)
                  DEFAULT_INDUSTRY_EI_ELEC fsei_elec
                  (transition_proportion_range fy)) as [He1 _].
    apply Qmult_le_0_compat; [apply erc_range, Hr|].
    unfold calculate_hybrid_ei, calculate_hybrid_ei_with. cbn [fst snd].
    assert (0 <= Qmin fsei_rom DEFAULT_INDUSTRY_EI_ROM) by (apply Q.min_glb; assumption).
    assert (0 <= Qmin fsei_elec DEFAULT_INDUSTRY_EI_ELEC) by (apply Q.min_glb; assumption).
    assert (0 <= (get_transition_proportion fy * DEFAULT_INDUSTRY_EI_ROM
                  + (1 - get_transition_proportion fy) * fsei_rom) * rom_t)
      by (apply Qmult_le_0_compat; [lra | assumption]).
    assert (0 <= (get_transition_proportion fy * DEFAULT_INDUSTRY_EI_ELEC
                  + (1 - get_transition_proportion fy) * fsei_elec) * site_mwh)
      by (apply Qmult_le_0_compat; [lra | assumption]).
    lra.
Qed.

Lemma X4_annual_baseline_witness :
  (2030 <= 2032)%Z
  /\ 0 <= 3000000 /\ 0 <= 50000 /\ 0 <= FSEI_ROM /\ 0 <= FSEI_ELEC /\ 0 <= 0.04
  /\ fst (calculate_annual_baseline 2032 3000000 50000 FSEI_ROM FSEI_ELEC None)
     == fst (calculate_annual_baseline 2032 3000000 50000 0 0 None)
  /\ 0 <= snd (calculate_annual_baseline 2032 3000000 50000 FSEI_ROM FSEI_ELEC
                                         (Some 0.04)).
Proof.
  pose proof (X4_annual_baseline_regimes 2032 3000000 50000 FSEI_ROM FSEI_ELEC None)
    as (_ & Hafter & _).
  pose proof (X4_annual_baseline_regimes 2032 3000000 50000 FSEI_ROM FSEI_ELEC
                                         (Some 0.04))
    as (_ & _ & Hpos).
  assert (H1 : 0 <= 3000000) by (vm_compute; discriminate).
  assert (H2 : 0 <= 50000) by (vm_compute; discriminate).
  assert (H3 : 0 <= FSEI_ROM) by (vm_compute; discriminate).
  assert (H4 : 0 <= FSEI_ELEC) by (vm_compute; discriminate).
  assert (H5 : 0 <= 0.04) by (vm_compute; discriminate).
  split; [lia|]. repeat (split; [assumption|]).
  split; [apply (Hafter ltac:(lia) 0 0) | apply (Hpos H1 H2 H3 H4 0.04 H5)].
Defined.

(** ** Fiscal and calendar years *)

Lemma date_in_fy_range (d : date) (fy : Z) :
  valid_date d ->
  date_geb d (fst (fy_to_date_range fy)) && date_leb d (snd (fy_to_date_range fy))
  = (date_to_fy d =? fy)%Z.
Proof.
  destruct d as [y m dd]. unfold valid_date, days_in_month. cbn [year month day].
  intros [Hm Hd].
  unfold date_geb, date_leb, date_ltb, date_to_fy, fy_to_date_range,
    NGER_FY_START_MONTH.
  cbn [year month day fst snd].
  assert (Hjune : m = 6%Z -> (dd <= 30)%Z).
  { intros ->. simpl in Hd. lia. }
  assert (Hd1 : (1 <= dd)%Z) by lia.
  clear Hd.
  destruct (Z.leb_spec 7 m);
    repeat match goal with
      | |- context [(?a <? ?b)%Z] => destruct (Z.ltb_spec a b)
      | |- context [(?a =? ?b)%Z] => destruct (Z.eqb_spec a b)
      end; cbn [negb andb orb]; try reflexivity; try lia.
Qed.

Lemma date_in_cy_range (d : date) (cy : Z) :
  valid_date d ->
  date_geb d (fst (cy_to_date_range cy)) && date_leb d (snd (cy_to_date_range cy))
  = (date_to_cy d =? cy)%Z.
Proof.
  destruct d as [y m dd]. unfold valid_date, days_in_month. cbn [year month day].
  intros [Hm Hd].
  unfold date_geb, date_leb, date_ltb, date_to_cy, cy_to_date_range.
  cbn [year month day fst snd].
  assert (Hdec : (dd <= 31)%Z).
  { destruct (m =? 2)%Z; [destruct (is_leap y); lia|].
    destruct ((m =? 4) || (m =? 6) || (m =? 9) || (m =? 11))%Z; lia. }
  assert (Hd1 : (1 <= dd)%Z) by lia.
  clear Hd.
  repeat match goal with
    | |- context [(?a <? ?b)%Z] => destruct (Z.ltb_spec a b)
    | |- context [(?a =? ?b)%Z] => destruct (Z.eqb_spec a b)
    end; cbn [negb andb orb]; try reflexivity; try lia.
Qed.

Lemma filter_ext_elem {R} (p q : R -> bool) (l : list R) :
  (forall r, r ∈ l -> p r = q r) -> List.filter p l = List.filter q l.
Proof.
  induction l as [|a l IH]; intros H; [reflexivity|]. cbn [List.filter].
  rewrite (H a) by apply list_elem_of_here.
  rewrite IH by (intros r Hr; apply H, list_elem_of_further, Hr). reflexivity.
Qed.

Lemma filter_none {R} (p : R -> bool) (l : list R) :
  (forall r, r ∈ l -> p r = false) -> List.filter p l = [].
Proof.
  induction l as [|a l IH]; intros H; [reflexivity|]. cbn [List.filter].
  rewrite (H a) by apply list_elem_of_here.
  apply IH. intros r Hr. apply H, list_elem_of_further, Hr.
Qed.

(** X5. The two dates returned for a fiscal year are 1 July and 30 June, both
    fall in that fiscal year, and on a table of calendar dates [filter_by_fy]
    keeps exactly the rows whose date falls in the fiscal year, in their
    order. *)
Theorem X5_filter_by_fy {R} (Date : R -> date) (df : list R) (fy : Z) :
  fy_to_date_range fy = (mkdate (fy - 1) 7 1, mkdate fy 6 30)
  /\ date_to_fy (fst (fy_to_date_range fy)) = fy
  /\ date_to_fy (snd (fy_to_date_range fy)) = fy
  /\ valid_date (fst (fy_to_date_range fy))
  /\ valid_date (snd (fy_to_date_range fy))
  /\ ((forall r, r ∈ df -> valid_date (Date r)) ->
      filter_by_fy Date df fy
      = List.filter (fun r => (date_to_fy (Date r) =? fy)%Z) df).
Proof.
  split; [reflexivity|].
  split; [unfold date_to_fy, fy_to_date_range, NGER_FY_START_MONTH;
          cbn [fst month year]; simpl; lia|].
  split; [reflexivity|].
  split; [unfold valid_date, fy_to_date_range, NGER_FY_START_MONTH;
          cbn [fst snd year month day]; repeat split; vm_compute; discriminate|].
  split; [unfold valid_date, fy_to_date_range, NGER_FY_START_MONTH;
          cbn [fst snd year month day]; repeat split; vm_compute; discriminate|].
  intros Hvalid. unfold filter_by_fy.
  destruct (fy_to_date_range fy) as [s e] eqn:E.
  apply filter_ext_elem. intros r Hr.
  rewrite <- (date_in_fy_range (Date r) fy (Hvalid r Hr)), E. reflexivity.
Qed.

Lemma example_monthly_valid : forall r, r ∈ example_monthly -> valid_date (Monthly.Date r).
Proof.
  apply Forall_forall. unfold example_monthly.
  repeat (constructor; [repeat split; vm_compute; discriminate|]). constructor.
Qed.

Lemma X5_filter_by_fy_witness :
  filter_by_fy Monthly.Date example_monthly 2024
  = [example_month 2023 7 60000 100 0; example_month 2024 1 50000 300 1000].
Proof.
  rewrite (proj2 (proj2 (proj2 (proj2 (proj2
             (X5_filter_by_fy Monthly.Date example_monthly 2024)))))
             example_monthly_valid).
  reflexivity.
Defined.

(** X6. On a table of calendar dates [filter_by_cy] keeps exactly the rows
    whose date falls in the calendar year; a row of fiscal year fy lies in
    calendar year fy - 1 (July to December) or fy (January to June), so the
    rows of a fiscal year found in any other calendar year are none. *)
Theorem X6_filter_by_cy {R} (Date : R -> date) (df : list R) :
  (forall r, r ∈ df -> valid_date (Date r)) ->
  (forall cy, filter_by_cy Date df cy
              = List.filter (fun r => (date_to_cy (Date r) =? cy)%Z) df)
  /\ (forall fy r, r ∈ filter_by_fy Date df fy ->
        (date_to_cy (Date r) = (fy - 1)%Z /\ (7 <= month (Date r))%Z)
        \/ (date_to_cy (Date r) = fy /\ (month (Date r) <= 6)%Z))
  /\ (forall fy cy, cy <> (fy - 1)%Z -> cy <> fy ->
        filter_by_cy Date (filter_by_fy Date df fy) cy = []).
Proof.
  intros Hvalid.
  assert (Hcy : forall l : list R, (forall r, r ∈ l -> valid_date (Date r)) ->
            forall cy, filter_by_cy Date l cy
                       = List.filter (fun r => (date_to_cy (Date r) =? cy)%Z) l).
  { intros l Hl cy. unfold filter_by_cy.
    destruct (cy_to_date_range cy) as [s e] eqn:E.
    apply filter_ext_elem. intros r Hr.
    rewrite <- (date_in_cy_range (Date r) cy (Hl r Hr)), E. reflexivity. }
  assert (Hfy : forall fy r, r ∈ filter_by_fy Date df fy ->
            r ∈ df /\ date_to_fy (Date r) = fy).
  { intros fy r Hr. unfold filter_by_fy in Hr.
    destruct (fy_to_date_range fy) as [s e] eqn:E.
    apply list_elem_of_In, filter_In in Hr. destruct Hr as [Hin Hb].
    apply list_elem_of_In in Hin. split; [exact Hin|].
    pose proof (date_in_fy_range (Date r) fy (Hvalid r Hin)) as Hd.
    rewrite E in Hd. cbn [fst snd] in Hd. rewrite Hb in Hd.
    symmetry in Hd. apply Z.eqb_eq in Hd. exact Hd. }
  assert (Hsplit : forall fy r, r ∈ filter_by_fy Date df fy ->
            (date_to_cy (Date r) = (fy - 1)%Z /\ (7 <= month (Date r))%Z)
            \/ (date_to_cy (Date r) = fy /\ (month (Date r) <= 6)%Z)).
  { intros fy r Hr. destruct (Hfy fy r Hr) as [_ Hd].
    unfold date_to_fy, NGER_FY_START_MONTH in Hd. unfold date_to_cy.
    destruct (Z.leb_spec 7 (month (Date r))); [left | right]; lia. }
  split; [apply Hcy, Hvalid|]. split; [exact Hsplit|].
  intros fy cy H1 H2.
  rewrite Hcy by (intros r Hr; apply Hvalid, (Hfy fy r Hr)).
  apply filter_none. intros r Hr.
  destruct (Hsplit fy r Hr) as [[E _]|[E _]];
    destruct (Z.eqb_spec (date_to_cy (Date r)) cy); congruence.
Qed.

Lemma X6_filter_by_cy_witness :
  filter_by_cy Monthly.Date example_monthly 2024
  = [example_month 2024 1 50000 300 1000; example_month 2024 7 10 0 0;
     example_month 2024 8 20 0 0]
  /\ filter_by_cy Monthly.Date (filter_by_fy Monthly.Date example_monthly 2024) 2025
     = [].
Proof.
  destruct (X6_filter_by_cy Monthly.Date example_monthly example_monthly_valid)
    as (Hcy & _ & Hnone).
  split; [rewrite Hcy; reflexivity | apply Hnone; lia].
Defined.

Lemma days_in_month_range (y m : Z) : (28 <= days_in_month y m <= 31)%Z.
Proof.
  unfold days_in_month.
  destruct (m =? 2)%Z; [destruct (is_leap y); lia|].
  destruct ((m =? 4) || (m =? 6) || (m =? 9) || (m =? 11))%Z; lia.
Qed.

Lemma days_in_month_other (y y' m : Z) :
  m <> 2%Z -> days_in_month y' m = days_in_month y m.
Proof.
  intros Hm. unfold days_in_month.
  destruct (Z.eqb_spec m 2); [contradiction | reflexivity].
Qed.

(** X7. Adding years to a calendar date, while the year stays within 1..9999,
    gives a calendar date with the year shifted and the month kept; the day is
    kept except that 29 February becomes 28 February in a year that is not a
    leap year; the fiscal year shifts by the same number of years, adding no
    years changes nothing, and a year outside 1..9999 is an error. *)
Theorem X7_add_years (d : date) (years : Z) :
  valid_date d ->
  ((1 <= year d + years <= 9999)%Z ->
   exists d',
     add_years d years = Some d'
     /\ valid_date d'
     /\ year d' = (year d + years)%Z
     /\ month d' = month d
     /\ (day d' = day d
         \/ (month d = 2%Z /\ day d = 29%Z /\ day d' = 28%Z
             /\ is_leap (year d + years) = false))
     /\ date_to_fy d' = (date_to_fy d + years)%Z)
  /\ ((1 <= year d <= 9999)%Z -> add_years d 0 = Some d)
  /\ (~ (1 <= year d + years <= 9999)%Z -> add_years d years = None).
Proof.
  destruct d as [y m dd]. unfold valid_date. cbn [year month day].
  intros [Hm Hd]. unfold add_years. cbn [year month day].
  split; [|split].
  - intros Hy.
    destruct (Z.leb_spec 1 (y + years)); [|lia].
    destruct (Z.leb_spec (y + years) 9999); [|lia]. cbn [andb].
    eexists. split; [reflexivity|]. cbn [year month day].
    pose proof (days_in_month_range (y + years) m) as Hr.
    split; [split; [exact Hm | lia]|].
    split; [reflexivity|]. split; [reflexivity|].
    split.
    + destruct (Z.eq_dec m 2%Z) as [->|Hne].
      * unfold days_in_month in *. cbn [Z.eqb Pos.eqb] in *.
        destruct (is_leap y), (is_leap (y + years)); try (left; lia).
        destruct (Z.eq_dec dd 29%Z); [right; repeat split; lia | left; lia].
      * left. rewrite (days_in_month_other y (y + years) m Hne). lia.
    + unfold date_to_fy, NGER_FY_START_MONTH. cbn [year month].
      destruct (7 <=? m)%Z; lia.
  - intros Hy. rewrite Z.add_0_r.
    destruct (Z.leb_spec 1 y); [|lia]. destruct (Z.leb_spec y 9999); [|lia].
    cbn [andb]. rewrite Z.min_l by lia. reflexivity.
  - intros Hy.
    destruct (Z.leb_spec 1 (y + years)); [|reflexivity].
    destruct (Z.leb_spec (y + years) 9999); [lia | reflexivity].
Qed.

Lemma X7_add_years_witness :
  valid_date (mkdate 2024 2 29)
  /\ (1 <= 2024 + 1 <= 9999)%Z
  /\ add_years (mkdate 2024 2 29) 1 = Some (mkdate 2025 2 28)
  /\ ~ (1 <= 2024 + 9000 <= 9999)%Z
  /\ add_years (mkdate 2024 2 29) 9000 = None.
Proof.
  assert (Hv : valid_date (mkdate 2024 2 29))
    by (repeat split; vm_compute; discriminate).
  assert (Hy : (1 <= year (mkdate 2024 2 29) + 1 <= 9999)%Z) by (cbn; lia).
  assert (Hn : ~ (1 <= year (mkdate 2024 2 29) + 9000 <= 9999)%Z) by (cbn; lia).
  destruct (X7_add_years (mkdate 2024 2 29) 1 Hv) as (Hsome & _ & _).
  destruct (X7_add_years (mkdate 2024 2 29) 9000 Hv) as (_ & _ & Hnone).
  split; [exact Hv|]. split; [exact Hy|].
  split; [destruct (Hsome Hy) as (d' & Hd' & _); rewrite Hd'; vm_compute in Hd';
          symmetry; exact Hd'|].
  split; [exact Hn | exact (Hnone Hn)].
Defined.

(** ** The factor store: nearest publication year *)

Lemma list_min_spec (x : Z) (l : list Z) :
  list_min x l ∈ x :: l /\ forall y, y ∈ x :: l -> (list_min x l <= y)%Z.
Proof.
  revert x. induction l as [|a l IH]; intros x; unfold list_min; cbn [fold_left].
  - split; [left|]. intros y Hy. apply elem_of_cons in Hy as [->|Hy]; [lia|].
    inversion Hy.
  - destruct (IH (Z.min x a)) as [Hin Hle]. unfold list_min in Hin, Hle. split.
    + apply elem_of_cons in Hin as [E|Hin].
      * rewrite E. destruct (Z.min_spec x a) as [[_ ->]|[_ ->]];
          [left | right; left].
      * right; right; exact Hin.
    + intros y Hy.
      assert (Hm : (fold_left Z.min l (Z.min x a) <= Z.min x a)%Z)
        by (apply Hle; left).
      apply elem_of_cons in Hy as [->|Hy]; [lia|].
      apply elem_of_cons in Hy as [->|Hy]; [lia|].
      apply Hle. right. exact Hy.
Qed.

Lemma list_max_spec (x : Z) (l : list Z) :
  list_max x l ∈ x :: l /\ forall y, y ∈ x :: l -> (y <= list_max x l)%Z.
Proof.
  revert x. induction l as [|a l IH]; intros x; unfold list_max; cbn [fold_left].
  - split; [left|]. intros y Hy. apply elem_of_cons in Hy as [->|Hy]; [lia|].
    inversion Hy.
  - destruct (IH (Z.max x a)) as [Hin Hle]. unfold list_max in Hin, Hle. split.
    + apply elem_of_cons in Hin as [E|Hin].
      * rewrite E. destruct (Z.max_spec x a) as [[_ ->]|[_ ->]];
          [right; left | left].
      * right; right; exact Hin.
    + intros y Hy.
      assert (Hm : (Z.max x a <= fold_left Z.max l (Z.max x a))%Z)
        by (apply Hle; left).
      apply elem_of_cons in Hy as [->|Hy]; [lia|].
      apply elem_of_cons in Hy as [->|Hy]; [lia|].
      apply Hle. right. exact Hy.
Qed.

(** [min(l, key=...)] returns the first element of least key. *)
Lemma min_by_key_spec (key : Z -> Z) (x : Z) (l : list Z) :
  exists l1 l2,
    x :: l = l1 ++ min_by_key key x l :: l2
    /\ (forall y, y ∈ l1 -> (key (min_by_key key x l) < key y)%Z)
    /\ (forall y, y ∈ l2 -> (key (min_by_key key x l) <= key y)%Z).
Proof.
  revert x. induction l as [|a l IH]; intros x; unfold min_by_key; cbn [fold_left].
  - exists [], []. split; [reflexivity|]. split; intros y Hy; inversion Hy.
  - destruct (Z.ltb_spec (key a) (key x)) as [Hlt|Hge].
    + destruct (IH a) as (l1 & l2 & E & H1 & H2). unfold min_by_key in E, H1, H2.
      set (b := fold_left (fun best y => if (key y <? key best)%Z then y else best) l a)
        in *.
      exists (x :: l1), l2. split; [rewrite E; reflexivity|]. split; [|exact H2].
      intros y Hy. apply elem_of_cons in Hy as [->|Hy]; [|apply H1, Hy].
      assert (Ha : a ∈ l1 ++ b :: l2) by (rewrite <- E; left).
      apply elem_of_app in Ha as [Ha|Ha].
      * specialize (H1 a Ha). lia.
      * apply elem_of_cons in Ha as [Ha|Ha]; [rewrite <- Ha; lia|].
        specialize (H2 a Ha). lia.
    + destruct (IH x) as (l1 & l2 & E & H1 & H2). unfold min_by_key in E, H1, H2.
      set (b := fold_left (fun best y => if (key y <? key best)%Z then y else best) l x)
        in *.
      destruct l1 as [|x' l1].
      * cbn [app] in E. injection E as Eb El.
        exists [], (a :: l2). split; [cbn [app]; rewrite <- Eb, <- El; reflexivity|].
        split; [intros y Hy; inversion Hy|].
        intros y Hy. apply elem_of_cons in Hy as [->|Hy]; [rewrite <- Eb; lia|].
        apply H2, Hy.
      * cbn [app] in E. injection E as Ex El. subst x'.
        exists (x :: a :: l1), l2. split; [cbn [app]; rewrite El; reflexivity|].
        split; [|exact H2].
        assert (Hx : (key b < key x)%Z) by (apply H1; left).
        intros y Hy. apply elem_of_cons in Hy as [->|Hy]; [exact Hx|].
        apply elem_of_cons in Hy as [->|Hy]; [lia|].
        apply H1. right. exact Hy.
Qed.

Lemma StronglySorted_lt_after (l1 l2 : list Z) (b : Z) :
  StronglySorted Z.lt (l1 ++ b :: l2) -> forall y, y ∈ l2 -> (b < y)%Z.
Proof.
  intros Hs y Hy. apply StronglySorted_drop_app in Hs.
  inversion Hs as [|? ? _ Hall]; subst.
  rewrite List.Forall_forall in Hall. apply Hall, list_elem_of_In, Hy.
Qed.

Lemma sorted_leb_NoDup_lt (l : list Z) :
  StronglySorted (fun a b => Z.leb a b = true) l -> NoDup l -> StronglySorted Z.lt l.
Proof.
  induction 1 as [|a l Hs IH Hall]; intros Hnd; [constructor|].
  apply NoDup_cons in Hnd as [Hnotin Hnd].
  constructor; [apply IH, Hnd|].
  rewrite List.Forall_forall in *. intros y Hy.
  specialize (Hall y Hy). apply Z.leb_le in Hall.
  assert (a <> y) by (intros ->; apply Hnotin, list_elem_of_In, Hy). lia.
Qed.

Lemma Zleb_total (a b : Z) : Z.leb a b = true \/ Z.leb b a = true.
Proof. destruct (Z.leb_spec a b); [left; reflexivity|right; apply Z.leb_le; lia]. Qed.

Lemma Zleb_trans (a b c : Z) :
  Z.leb a b = true -> Z.leb b c = true -> Z.leb a c = true.
Proof. rewrite !Z.leb_le. lia. Qed.

Lemma available_years_sorted (df : list NGA.row) :
  StronglySorted Z.lt (NGA.available_years (_load df)).
Proof.
  unfold _load. cbn [NGA.available_years].
  apply sorted_leb_NoDup_lt.
  - apply py_sorted_sorted; [exact Zleb_total | exact Zleb_trans].
  - apply NoDup_py_sorted, NoDup_unique.
Qed.

Lemma resolve_year_nearest (self : NGA.store) (year y : Z) :
  _resolve_year self year = Some y ->
  y ∈ NGA.available_years self
  /\ forall y', y' ∈ NGA.available_years self ->
                (Z.abs (y - year) <= Z.abs (y' - year))%Z.
Proof.
  unfold _resolve_year. case_bool_decide as Hin.
  - intros [= <-]. split; [exact Hin|]. intros y' _. lia.
  - destruct (NGA.available_years self) as [|y0 ys]; [discriminate|].
    destruct (list_min_spec y0 ys) as [Hmin_in Hmin].
    destruct (list_max_spec y0 ys) as [Hmax_in Hmax].
    destruct (Z.ltb_spec year (list_min y0 ys)) as [Hlo|Hlo].
    + intros [= <-]. split; [exact Hmin_in|].
      intros y' Hy'. specialize (Hmin y' Hy'). lia.
    + destruct (Z.ltb_spec (list_max y0 ys) year) as [Hhi|Hhi].
      * intros [= <-]. split; [exact Hmax_in|].
        intros y' Hy'. specialize (Hmax y' Hy'). lia.
      * intros [= <-].
        destruct (min_by_key_spec (fun y => Z.abs (y - year)) y0 ys)
          as (l1 & l2 & E & H1 & H2).
        set (b := min_by_key (fun y => Z.abs (y - year)) y0 ys) in *.
        split; [rewrite E; apply elem_of_app; right; left|].
        intros y' Hy'. rewrite E in Hy'.
        apply elem_of_app in Hy' as [Hy'|Hy'].
        -- specialize (H1 y' Hy'). cbv beta in H1. lia.
        -- apply elem_of_cons in Hy' as [->|Hy']; [lia|].
           specialize (H2 y' Hy'). cbv beta in H2. lia.
Qed.

Lemma resolve_year_tie (self : NGA.store) (year y : Z) :
  StronglySorted Z.lt (NGA.available_years self) ->
  _resolve_year self year = Some y ->
  forall y', y' ∈ NGA.available_years self ->
             Z.abs (y' - year) = Z.abs (y - year) -> (y <= y')%Z.
Proof.
  unfold _resolve_year. intros Hsorted. case_bool_decide as Hin.
  - intros [= <-] y' _ Hd. lia.
  - destruct (NGA.available_years self) as [|y0 ys]; [discriminate|].
    destruct (list_min_spec y0 ys) as [Hmin_in Hmin].
    destruct (list_max_spec y0 ys) as [Hmax_in Hmax].
    destruct (Z.ltb_spec year (list_min y0 ys)) as [Hlo|Hlo].
    + intros [= <-] y' Hy' Hd. specialize (Hmin y' Hy'). lia.
    + destruct (Z.ltb_spec (list_max y0 ys) year) as [Hhi|Hhi].
      * intros [= <-] y' Hy' Hd. specialize (Hmax y' Hy'). lia.
      * intros [= <-] y' Hy' Hd.
        destruct (min_by_key_spec (fun y => Z.abs (y - year)) y0 ys)
          as (l1 & l2 & E & H1 & H2).
        set (b := min_by_key (fun y => Z.abs (y - year)) y0 ys) in *.
        rewrite E in Hy', Hsorted.
        apply elem_of_app in Hy' as [Hy'|Hy'].
        -- specialize (H1 y' Hy'). cbv beta in H1. lia.
        -- apply elem_of_cons in Hy' as [->|Hy']; [lia|].
           pose proof (StronglySorted_lt_after l1 l2 b Hsorted y' Hy'). lia.
Qed.

(** X8. The factor store resolves a requested year to an available
    publication year that is nearest to it: an available year resolves to
    itself, no other available year is strictly nearer than the result, and
    nothing is returned only when the store holds no year at all.  The years
    of a loaded store are strictly ascending, so of two equally near years the
    earlier one is returned. *)
Theorem X8_resolve_year_nearest (self : NGA.store) (year : Z) :
  (_resolve_year self year = None <-> NGA.available_years self = [])
  /\ (year ∈ NGA.available_years self -> _resolve_year self year = Some year)
  /\ (forall y, _resolve_year self year = Some y ->
        y ∈ NGA.available_years self
        /\ forall y', y' ∈ NGA.available_years self ->
                      (Z.abs (y - year) <= Z.abs (y' - year))%Z)
  /\ (forall df, StronglySorted Z.lt (NGA.available_years (_load df)))
  /\ (StronglySorted Z.lt (NGA.available_years self) ->
      forall y y', _resolve_year self year = Some y ->
                   y' ∈ NGA.available_years self ->
                   Z.abs (y' - year) = Z.abs (y - year) -> (y <= y')%Z).
Proof.
  split; [|split; [|split; [|split]]].
  - unfold _resolve_year. split.
    + case_bool_decide; [discriminate|].
      destruct (NGA.available_years self) as [|y0 ys]; [reflexivity|].
      destruct (_ <? _)%Z; [discriminate|]. destruct (_ <? _)%Z; discriminate.
    + intros E. rewrite E. case_bool_decide as Hin; [inversion Hin | reflexivity].
  - intros Hin. unfold _resolve_year. rewrite bool_decide_eq_true_2 by exact Hin.
    reflexivity.
  - intros y. apply resolve_year_nearest.
  - exact available_years_sorted.
  - intros Hs y y' Hy Hy' Hd. eapply resolve_year_tie; eassumption.
Qed.

Lemma X8_resolve_year_witness :
  _resolve_year (_load example_nga_two_years) 2022 = Some 2021%Z
  /\ 2023%Z ∈ NGA.available_years (_load example_nga_two_years)
  /\ (2021 <= 2023)%Z.
Proof.
  destruct (X8_resolve_year_nearest (_load example_nga_two_years) 2022)
    as (_ & _ & _ & Hsorted & Htie).
  assert (Hr : _resolve_year (_load example_nga_two_years) 2022 = Some 2021%Z)
    by (vm_compute; reflexivity).
  assert (Hin : 2023%Z ∈ NGA.available_years (_load example_nga_two_years))
    by (apply list_elem_of_In; vm_compute; auto).
  split; [exact Hr|]. split; [exact Hin|].
  apply (Htie (Hsorted _) 2021%Z 2023%Z Hr Hin). reflexivity.
Defined.

(** ** The factor store: record lookup *)

Lemma filter_first {R} (p : R -> bool) (l : list R) (r : R) (rs : list R) :
  List.filter p l = r :: rs ->
  exists before after,
    l = before ++ r :: after
    /\ p r = true
    /\ forall x, x ∈ before -> p x = false.
Proof.
  induction l as [|a l IH]; [discriminate|]. cbn [List.filter].
  destruct (p a) eqn:Ea.
  - intros [= -> <-]. exists [], l. split; [reflexivity|]. split; [exact Ea|].
    intros x Hx. inversion Hx.
  - intros H. destruct (IH H) as (before & after & -> & Hr & Hb).
    exists (a :: before), after. split; [reflexivity|]. split; [exact Hr|].
    intros x Hx. apply elem_of_cons in Hx as [->|Hx]; [exact Ea | apply Hb, Hx].
Qed.

(** X9. A record returned by the factor lookup is read from the first row of
    the table, in table order, whose publication year is the resolved year,
    whose fuel name is the resolved name, whose scope is the requested scope
    and whose state matches: blank (missing or empty) for a lookup without a
    state, equal to the requested state otherwise.  Missing units are
    returned as empty text. *)
Theorem X9_match_fuel_factor_row
        (self : NGA.store) (year : Z) (prefix : string) (scope : Z)
        (state : string) (rec : NGA.factor) :
  match_fuel_factor self year prefix scope state = Some rec ->
  exists y r before after,
    _resolve_year self year = Some y
    /\ _resolve_fuel_name self y prefix = Some (NGA.f_Fuel_Name rec)
    /\ NGA.df self = before ++ r :: after
    /\ NGA.NGA_Year r = y
    /\ NGA.Fuel_Name r = NGA.f_Fuel_Name rec
    /\ NGA.Scope r = scope
    /\ (state = "" -> NGA.State r = None \/ NGA.State r = Some "")
    /\ (state <> "" -> NGA.State r = Some state)
    /\ NGA.f_EF_kgCO2e_per_unit rec = NGA.EF_kgCO2e_per_unit r
    /\ NGA.f_EF_Unit rec = default "" (NGA.EF_Unit r)
    /\ NGA.f_Energy_Content rec = NGA.Energy_Content r
    /\ NGA.f_Energy_Unit rec = default "" (NGA.Energy_Unit r)
    /\ (forall x, x ∈ before ->
          ~ (NGA.NGA_Year x = y /\ NGA.Fuel_Name x = NGA.f_Fuel_Name rec
             /\ NGA.Scope x = scope
             /\ (if String.eqb state "" then state_blank (NGA.State x)
                 else state_is (NGA.State x) state) = true)).
Proof.
  unfold match_fuel_factor.
  destruct (_resolve_year self year) as [y|]; [|discriminate].
  destruct (_resolve_fuel_name self y prefix) as [full_name|] eqn:En; [|discriminate].
  destruct (List.filter _ (NGA.df self)) as [|r rs] eqn:Ef; [discriminate|].
  intros [= <-]. cbn [NGA.f_Fuel_Name NGA.f_EF_kgCO2e_per_unit NGA.f_EF_Unit
                      NGA.f_Energy_Content NGA.f_Energy_Unit].
  destruct (filter_first _ _ _ _ Ef) as (before & after & Hdf & Hr & Hbefore).
  exists y, r, before, after.
  apply andb_prop in Hr. destruct Hr as [Hr Hstate].
  apply andb_prop in Hr. destruct Hr as [Hr Hscope].
  apply andb_prop in Hr. destruct Hr as [Hyear Hname].
  apply Z.eqb_eq in Hyear, Hscope. apply String.eqb_eq in Hname.
  split; [reflexivity|]. split; [exact En|]. split; [exact Hdf|].
  split; [exact Hyear|]. split; [exact Hname|]. split; [exact Hscope|].
  split; [|split].
  - intros ->. cbn [String.eqb negb] in Hstate.
    destruct (NGA.State r) as [s|]; [right | left; reflexivity].
    cbn [state_blank] in Hstate. apply String.eqb_eq in Hstate. congruence.
  - intros Hne. apply String.eqb_neq in Hne. rewrite Hne in Hstate.
    cbn [negb] in Hstate. destruct (NGA.State r) as [s|]; [|discriminate].
    cbn [state_is] in Hstate. apply String.eqb_eq in Hstate. congruence.
  - repeat (split; [reflexivity|]).
    intros x Hx (Hxy & Hxn & Hxs & Hxst).
    specialize (Hbefore x Hx). cbv beta in Hbefore.
    rewrite Hxy, Hxn, Hxs, !Z.eqb_refl, String.eqb_refl in Hbefore.
    cbn [andb] in Hbefore.
    destruct (String.eqb state ""); cbn [negb] in Hbefore; congruence.
Qed.

Lemma X9_match_fuel_factor_witness :
  exists rec r,
    match_fuel_factor (_load example_nga_csv) 2025 "Grid electricity" 2 "QLD" = Some rec
    /\ r ∈ example_nga_csv
    /\ NGA.State r = Some "QLD"%string
    /\ NGA.f_EF_kgCO2e_per_unit rec = NGA.EF_kgCO2e_per_unit r.
Proof.
  destruct (match_fuel_factor (_load example_nga_csv) 2025 "Grid electricity" 2 "QLD")
    as [rec|] eqn:E; [|vm_compute in E; discriminate].
  destruct (X9_match_fuel_factor_row _ _ _ _ _ _ E)
    as (y & r & before & after & _ & _ & Hdf & _ & _ & _ & _ & Hst & Hef & _).
  exists rec, r. split; [reflexivity|].
  split; [change example_nga_csv with (NGA.df (_load example_nga_csv));
          rewrite Hdf; apply elem_of_app; right; left|].
  split; [apply Hst; discriminate | exact Hef].
Defined.

(** ** The factor-map builder: success, errors and entries *)

Lemma fuel_factors_loop_total (self : NGA.store) (year : Z) (prefixes : list string)
      (acc : list (string * factors)) :
  (forall p, p ∈ prefixes -> match_fuel_factor self year p 1 "" <> None) ->
  exists yf, fuel_factors_loop self year prefixes acc = Ok yf.
Proof.
  revert acc. induction prefixes as [|q prefixes IH]; intros acc H; cbn [fuel_factors_loop].
  - eauto.
  - destruct (match_fuel_factor self year q 1 "") as [rec1|] eqn:E.
    + apply IH. intros p Hp. apply H. right. exact Hp.
    + exfalso. apply (H q); [left | exact E].
Qed.

(** The requested year has every record the builder insists on. *)
Lemma year_factors_for_success (self : NGA.store) (year : Z) (state : string) :
  (exists yf, year_factors_for self year state = Ok yf)
  <-> (forall p, p ∈ FUEL_PREFIXES -> match_fuel_factor self year p 1 "" <> None)
      /\ get_electricity_factor self year state 2 <> None.
Proof.
  split.
  - intros [yf Hyf]. split.
    + intros p Hp. destruct (year_factors_for_Ok _ _ _ _ Hyf p Hp) as (rec1 & -> & _).
      discriminate.
    + unfold year_factors_for, bind in Hyf.
      destruct (fuel_factors_loop self year FUEL_PREFIXES []); [|discriminate].
      destruct (get_electricity_factor self year state 2); [discriminate|discriminate].
  - intros [Hfuel Helec]. unfold year_factors_for, bind.
    destruct (fuel_factors_loop_total self year FUEL_PREFIXES [] Hfuel) as [yf0 ->].
    destruct (get_electricity_factor self year state 2); [eauto | contradiction].
Qed.

Lemma build_loop_Raise_first (self : NGA.store) (years : list Z) (state : string)
      (acc : gmap Z (list (string * factors))) (e : exn) :
  build_year_factor_map_loop self years state acc = Raise e ->
  exists before y after,
    years = before ++ y :: after
    /\ (forall y', y' ∈ before -> exists yf, year_factors_for self y' state = Ok yf)
    /\ year_factors_for self y state = Raise e.
Proof.
  revert acc. induction years as [|y years IH]; intros acc;
    cbn [build_year_factor_map_loop]; [discriminate|].
  unfold bind.
  destruct (year_factors_for self y state) as [yf|e0] eqn:E.
  - intros H. destruct (IH _ H) as (before & y1 & after & -> & Hb & Hr).
    exists (y :: before), y1, after. split; [reflexivity|]. split; [|exact Hr].
    intros y' Hy'. apply elem_of_cons in Hy' as [->|Hy']; [eauto | apply Hb, Hy'].
  - intros [= <-]. exists [], y, years. split; [reflexivity|]. split; [|exact E].
    intros y' Hy'. inversion Hy'.
Qed.

Lemma build_loop_total (self : NGA.store) (years : list Z) (state : string)
      (acc : gmap Z (list (string * factors))) :
  (forall y, y ∈ years -> exists yf, year_factors_for self y state = Ok yf) ->
  exists m, build_year_factor_map_loop self years state acc = Ok m.
Proof.
  revert acc. induction years as [|y years IH]; intros acc H;
    cbn [build_year_factor_map_loop]; [eauto|].
  destruct (H y) as [yf Hyf]; [left|]. rewrite Hyf. cbn [bind].
  apply IH. intros y' Hy'. apply H. right. exact Hy'.
Qed.

(** X10. The factor-map builder returns a map exactly when every requested
    year has a Scope-1 record for each of the six fuel categories and a
    Scope-2 electricity record for the state; a missing Scope-3 record never
    stops it.  Otherwise it raises the error of the first requested year, in
    the order given, that lacks such a record; an electricity error names the
    requested state and a year whose fuel records are all present. *)
Theorem X10_factor_map_success
        (self : NGA.store) (unique_years : list Z) (state : string) :
  let built := build_year_factor_map self unique_years state in
  let complete y :=
    (forall p, p ∈ FUEL_PREFIXES -> match_fuel_factor self y p 1 "" <> None)
    /\ get_electricity_factor self y state 2 <> None in
  ((exists m, built = Ok m) <-> forall y, y ∈ unique_years -> complete y)
  /\ (forall e, built = Raise e ->
        exists before y after,
          unique_years = before ++ y :: after
          /\ (forall y', y' ∈ before -> complete y')
          /\ ~ complete y
          /\ year_factors_for self y state = Raise e)
  /\ (forall s y, built = Raise (ValueError_no_electricity_scope2 s y) ->
        s = state /\ y ∈ unique_years
        /\ get_electricity_factor self y state 2 = None
        /\ forall p, p ∈ FUEL_PREFIXES -> match_fuel_factor self y p 1 "" <> None).
Proof.
  intros built complete. subst built. unfold build_year_factor_map.
  split; [|split].
  - split.
    + intros [m Hm] y Hy.
      destruct (build_loop_Ok _ _ _ _ _ Hm y) as [Hin _].
      destruct (Hin Hy) as (yf & Hyf & _).
      apply year_factors_for_success. eauto.
    + intros H. apply build_loop_total. intros y Hy.
      apply year_factors_for_success, H, Hy.
  - intros e He.
    destruct (build_loop_Raise_first _ _ _ _ _ He) as (before & y & after & E & Hb & Hr).
    exists before, y, after. split; [exact E|]. split; [|split; [|exact Hr]].
    + intros y' Hy'. apply year_factors_for_success, Hb, Hy'.
    + intros Hc. apply year_factors_for_success in Hc as [yf Hyf]. congruence.
  - intros s y He.
    destruct (build_loop_Raise _ _ _ _ _ He) as (y1 & Hy1 & Hr).
    destruct (year_factors_for_Raise _ _ _ _ Hr) as [(p & _ & Hp & _)|[Hs Hnone]];
      [discriminate Hp|].
    injection Hs as -> ->. split; [reflexivity|]. split; [exact Hy1|].
    split; [exact Hnone|].
    intros p Hp. unfold year_factors_for, bind in Hr.
    destruct (fuel_factors_loop self y1 FUEL_PREFIXES []) as [yf0|e0] eqn:Eloop.
    + destruct (fuel_factors_loop_Ok _ _ _ _ _ Eloop p) as [Hin _].
      destruct (Hin Hp) as (rec1 & -> & _). discriminate.
    + injection Hr as ->.
      destruct (fuel_factors_loop_Raise _ _ _ _ _ Eloop) as (q & _ & Hq & _).
      discriminate Hq.
Qed.

Lemma X10_factor_map_witness :
  (exists m, build_year_factor_map (_load example_nga_csv) [2024%Z; 2025%Z] "QLD" = Ok m)
  /\ build_year_factor_map (_load example_nga_csv) [2025%Z] "NSW"
     = Raise (ValueError_no_electricity_scope2 "NSW" 2025)
  /\ get_electricity_factor (_load example_nga_csv) 2025 "NSW" 2 = None.
Proof.
  assert (E : build_year_factor_map (_load example_nga_csv) [2025%Z] "NSW"
              = Raise (ValueError_no_electricity_scope2 "NSW" 2025))
    by (vm_compute; reflexivity).
  split; [|split; [exact E|]].
  - apply (proj1 (X10_factor_map_success (_load example_nga_csv) [2024%Z; 2025%Z] "QLD")).
    intros y Hy. split.
    + intros p Hp.
      apply elem_of_cons in Hy as [->|Hy];
        [|apply elem_of_cons in Hy as [->|Hy]; [|inversion Hy]];
        unfold FUEL_PREFIXES in Hp;
        repeat (apply elem_of_cons in Hp as [->|Hp];
                [vm_compute; discriminate|]);
        inversion Hp.
    + apply elem_of_cons in Hy as [->|Hy];
        [|apply elem_of_cons in Hy as [->|Hy]; [|inversion Hy]];
        vm_compute; discriminate.
  - apply (proj2 (proj2 (X10_factor_map_success (_load example_nga_csv) [2025%Z] "NSW"))
             "NSW"%string 2025%Z E).
Defined.

(** X11. In a map returned by the builder the keys are exactly the requested
    years, and the entry of a year is what the builder computes for that year
    alone, whatever other years were requested: its keys are the six fuel
    categories followed by grid electricity; the grid-electricity bundle has
    no Scope-1 factor, the state's Scope-2 factor, the state's Scope-3 factor
    or 0 when there is none, 0.0036 GJ per kWh and the unit kWh; every fuel
    bundle has a zero Scope-2 factor. *)
Theorem X11_factor_map_entries
        (self : NGA.store) (unique_years : list Z) (state : string)
        (m : gmap Z (list (string * factors))) :
  build_year_factor_map self unique_years state = Ok m ->
  (forall y, is_Some (m !! y) <-> y ∈ unique_years)
  /\ (forall y yf, m !! y = Some yf ->
        year_factors_for self y state = Ok yf
        /\ dict_keys yf = FUEL_PREFIXES ++ ["Grid electricity"%string]
        /\ (exists e2,
              get_electricity_factor self y state 2 = Some e2
              /\ dict_get "Grid electricity" yf
                 = Some (mkfactors 0 e2
                           (default 0 (get_electricity_factor self y state 3))
                           0.0036 "kWh"))
        /\ (forall p b, p ∈ FUEL_PREFIXES -> dict_get p yf = Some b -> s2 b = 0)).
Proof.
  intros E. unfold build_year_factor_map in E.
  assert (Hentry : forall y yf, m !! y = Some yf ->
            y ∈ unique_years /\ year_factors_for self y state = Ok yf).
  { intros y yf Hl. destruct (build_loop_Ok _ _ _ _ _ E y) as [Hin Hout].
    destruct (decide (y ∈ unique_years)) as [Hy|Hy].
    - destruct (Hin Hy) as (yf' & Hyf & Hm). split; [exact Hy | congruence].
    - rewrite (Hout Hy), lookup_empty in Hl. discriminate Hl. }
  split.
  - intros y. split.
    + intros [yf Hl]. apply (Hentry y yf Hl).
    + intros Hy. destruct (build_loop_Ok _ _ _ _ _ E y) as [Hin _].
      destruct (Hin Hy) as (yf & _ & ->). eauto.
  - intros y yf Hl. destruct (Hentry y yf Hl) as [_ Hyf].
    split; [exact Hyf|]. split; [eapply year_factors_for_keys, Hyf|]. split.
    + pose proof Hyf as Hyf'. unfold year_factors_for, bind in Hyf'.
      destruct (fuel_factors_loop self y FUEL_PREFIXES []); [|discriminate].
      destruct (get_electricity_factor self y state 2) as [e2|]; [|discriminate].
      injection Hyf' as <-. exists e2. split; [reflexivity|]. apply dict_get_set_eq.
    + intros p b Hp Hb.
      destruct (year_factors_for_Ok _ _ _ _ Hyf p Hp) as (rec1 & _ & Hget).
      rewrite Hget in Hb. injection Hb as <-. reflexivity.
Qed.

Lemma X11_factor_map_entries_witness :
  exists yf,
    example_factor_map !! 2024%Z = Some yf
    /\ dict_get "Grid electricity" yf = Some (mkfactors 0 0.67 0.09 0.0036 "kWh").
Proof.
  assert (E : build_year_factor_map (_load example_nga_csv) [2024%Z; 2025%Z] "QLD"
              = Ok example_factor_map) by (vm_compute; reflexivity).
  destruct (X11_factor_map_entries _ _ _ _ E) as [Hdom Hentries].
  destruct (proj2 (Hdom 2024%Z)) as [yf Hyf]; [left|].
  exists yf. split; [exact Hyf|].
  destruct (Hentries 2024%Z yf Hyf) as (_ & _ & (e2 & He2 & Hget) & _).
  rewrite Hget. vm_compute in He2. injection He2 as <-. reflexivity.
Defined.

(** ** The expected unit of measure *)

Lemma after_last_slash_None (s : string) :
  after_last_slash s = None <-> has_char "/" s = false.
Proof.
  induction s as [|c s IH]; cbn [after_last_slash has_char]; [tauto|].
  destruct (after_last_slash s) as [t|].
  - split; [discriminate|]. intros H. apply orb_false_elim in H as [_ H].
    apply IH in H. discriminate.
  - destruct (Ascii.eqb c "/"); cbn [orb]; [split; discriminate|].
    split; [intros _; apply IH; reflexivity | reflexivity].
Qed.

Lemma after_last_slash_Some (s t : string) :
  after_last_slash s = Some t ->
  has_char "/" t = false /\ exists a, s = (a ++ String "/" t)%string.
Proof.
  revert t. induction s as [|c s IH]; intros t; cbn [after_last_slash]; [discriminate|].
  destruct (after_last_slash s) as [t'|] eqn:E.
  - intros [= <-]. destruct (IH t' eq_refl) as (Hn & a & ->).
    split; [exact Hn|]. exists (String c a). reflexivity.
  - destruct (Ascii.eqb_spec c "/") as [->|]; [|discriminate].
    intros [= <-]. split; [apply after_last_slash_None, E|].
    exists EmptyString. reflexivity.
Qed.

Lemma after_last_slash_app (a u : string) :
  has_char "/" u = false -> after_last_slash (a ++ String "/" u) = Some u.
Proof.
  intros Hu. induction a as [|c a IH].
  - change (after_last_slash (String "/" u) = Some u). cbn [after_last_slash].
    apply after_last_slash_None in Hu. rewrite Hu. reflexivity.
  - change (after_last_slash (String c (a ++ String "/" u)) = Some u).
    cbn [after_last_slash]. rewrite IH. reflexivity.
Qed.

Lemma has_char_lstrip (c : ascii) (s : string) :
  has_char c s = false -> has_char c (lstrip s) = false.
Proof.
  induction s as [|d s IH]; cbn [lstrip has_char]; [auto|].
  intros H. destruct (is_space d); [|exact H].
  apply orb_false_elim in H as [_ H]. apply IH, H.
Qed.

Lemma has_char_rstrip (c : ascii) (s : string) :
  has_char c s = false -> has_char c (rstrip s) = false.
Proof.
  induction s as [|d s IH]; cbn [rstrip has_char]; [auto|].
  intros H. apply orb_false_elim in H as [Hd H]. specialize (IH H).
  destruct (rstrip s) as [|e t].
  - destruct (is_space d); cbn [has_char]; [reflexivity|]. rewrite Hd. reflexivity.
  - cbn [has_char] in *. rewrite Hd. exact IH.
Qed.

Lemma first_char_lstrip (s : string) (c : ascii) :
  first_char (lstrip s) = Some c -> is_space c = false.
Proof.
  induction s as [|d s IH]; cbn [lstrip]; [discriminate|].
  destruct (is_space d) eqn:E; [exact IH|]. cbn [first_char]. intros [= <-]. exact E.
Qed.

Lemma first_char_rstrip (s : string) (c : ascii) :
  first_char (rstrip s) = Some c -> first_char s = Some c.
Proof.
  destruct s as [|d s]; cbn [rstrip first_char]; [discriminate|].
  destruct (rstrip s); [destruct (is_space d); [discriminate|]|]; cbn [first_char]; auto.
Qed.

Lemma last_char_rstrip (s : string) (c : ascii) :
  last_char (rstrip s) = Some c -> is_space c = false.
Proof.
  induction s as [|d s IH]; cbn [rstrip]; [discriminate|].
  destruct (rstrip s) as [|e t].
  - destruct (is_space d) eqn:E; [discriminate|]. cbn [last_char].
    intros [= <-]. exact E.
  - change (last_char (String d (String e t)))
      with (match last_char (String e t) with
            | Some x => Some x
            | None => Some d
            end).
    destruct (last_char (String e t)) as [x|] eqn:El.
    + intros [= <-]. apply IH. reflexivity.
    + cbn [last_char] in El. destruct (last_char t); discriminate.
Qed.

(** X12. The expected unit is the text after the last '/' of the factor
    unit with surrounding white space removed, and the empty text when the
    factor unit has no '/'; it contains no '/' and neither starts nor ends
    with a white-space character. *)
Theorem X12_expected_uom :
  (forall s, has_char "/" s = false -> expected_uom s = EmptyString)
  /\ (forall a u, has_char "/" u = false ->
        expected_uom (a ++ String "/" u) = strip u)
  /\ (forall s, has_char "/" (expected_uom s) = false)
  /\ (forall s c, first_char (expected_uom s) = Some c -> is_space c = false)
  /\ (forall s c, last_char (expected_uom s) = Some c -> is_space c = false).
Proof.
  split; [|split; [|split; [|split]]].
  - intros s H. unfold expected_uom. apply after_last_slash_None in H.
    rewrite H. reflexivity.
  - intros a u H. unfold expected_uom. rewrite (after_last_slash_app a u H).
    reflexivity.
  - intros s. unfold expected_uom.
    destruct (after_last_slash s) as [t|] eqn:E; [|reflexivity].
    destruct (after_last_slash_Some s t E) as [Hn _].
    unfold strip. apply has_char_rstrip, has_char_lstrip, Hn.
  - intros s c. unfold expected_uom.
    destruct (after_last_slash s) as [t|]; [|discriminate].
    unfold strip. intros H. apply first_char_rstrip in H.
    eapply first_char_lstrip, H.
  - intros s c. unfold expected_uom.
    destruct (after_last_slash s) as [t|]; [|discriminate].
    unfold strip. apply last_char_rstrip.
Qed.

Lemma X12_expected_uom_witness :
  has_char "/" "kL " = false
  /\ expected_uom "kg CO2-e/ kL " = "kL"%string
  /\ has_char "/" "tonnes" = false
  /\ expected_uom "tonnes" = EmptyString.
Proof.
  destruct X12_expected_uom as (Hnone & Happ & _).
  assert (H1 : has_char "/" "kL " = false) by reflexivity.
  assert (H2 : has_char "/" "tonnes" = false) by reflexivity.
  split; [exact H1|].
  split; [exact (Happ "kg CO2-e"%string " kL "%string eq_refl)|].
  split; [exact H2 | exact (Hnone "tonnes"%string H2)].
Defined.

(** ** Matching a ledger tag to a factor key *)

Lemma longest_from_spec (best : string) (l : list string) :
  longest_from best l ∈ best :: l
  /\ forall k, k ∈ best :: l ->
               (String.length k <= String.length (longest_from best l))%nat.
Proof.
  revert best. induction l as [|k l IH]; intros best; cbn [longest_from].
  - split; [left|]. intros k Hk. apply elem_of_cons in Hk as [->|Hk]; [lia|].
    inversion Hk.
  - destruct (Nat.ltb_spec (String.length best) (String.length k)) as [Hlt|Hge].
    + destruct (IH k) as [Hin Hle]. split; [right; exact Hin|].
      intros k' Hk'. apply elem_of_cons in Hk' as [->|Hk'].
      * specialize (Hle k ltac:(left)). lia.
      * apply Hle, Hk'.
    + destruct (IH best) as [Hin Hle]. split.
      * apply elem_of_cons in Hin as [->|Hin]; [left | right; right; exact Hin].
      * intros k' Hk'. apply elem_of_cons in Hk' as [->|Hk']; [apply Hle; left|].
        apply elem_of_cons in Hk' as [->|Hk'].
        -- specialize (Hle best ltac:(left)). lia.
        -- apply Hle. right. exact Hk'.
Qed.

Lemma elem_of_filter_list {A} (p : A -> bool) (l : list A) (x : A) :
  x ∈ List.filter p l <-> x ∈ l /\ p x = true.
Proof.
  split.
  - intros H. apply list_elem_of_In, filter_In in H as [H1 H2].
    split; [apply list_elem_of_In, H1 | exact H2].
  - intros [H1 H2]. apply list_elem_of_In, filter_In.
    split; [apply list_elem_of_In, H1 | exact H2].
Qed.

(** X13. A ledger tag that is itself a factor key resolves to that key.
    Otherwise it resolves to a key that is a prefix of the tag, and to a
    longest such key, when there is one; failing that, to a key that the tag
    is a prefix of; and to nothing exactly when no key is related to the tag
    in either way. *)
Theorem X13_resolve_factor_key (year_factors : list (string * factors))
                               (nga_fuel : string) :
  let keys := dict_keys year_factors in
  let resolved := resolve_factor_key year_factors nga_fuel in
  (nga_fuel ∈ keys -> resolved = Some nga_fuel)
  /\ (forall k, resolved = Some k ->
        k ∈ keys /\ (startswith nga_fuel k = true \/ startswith k nga_fuel = true))
  /\ (forall k, resolved = Some k -> nga_fuel ∉ keys ->
        (exists k', k' ∈ keys /\ startswith nga_fuel k' = true) ->
        startswith nga_fuel k = true
        /\ forall k', k' ∈ keys -> startswith nga_fuel k' = true ->
                      (String.length k' <= String.length k)%nat)
  /\ (resolved = None <->
      forall k, k ∈ keys -> startswith nga_fuel k = false
                            /\ startswith k nga_fuel = false).
Proof.
  intros keys resolved. subst keys resolved. unfold resolve_factor_key.
  set (keys := dict_keys year_factors).
  split; [|split; [|split]].
  - intros Hin. rewrite bool_decide_eq_true_2 by exact Hin. reflexivity.
  - intros k. case_bool_decide as Hin.
    + intros [= <-]. split; [exact Hin|]. left. apply startswith_refl.
    + destruct (List.filter (fun k => startswith nga_fuel k) keys) as [|k0 ks] eqn:E1.
      * destruct (List.filter (fun k => startswith k nga_fuel) keys) as [|k1 ks1] eqn:E2;
          [discriminate|].
        intros [= <-].
        assert (Hk : k1 ∈ List.filter (fun k => startswith k nga_fuel) keys)
          by (rewrite E2; left).
        apply elem_of_filter_list in Hk as [Hk Hs]. auto.
      * intros [= <-]. destruct (longest_from_spec k0 ks) as [Hl _].
        rewrite <- E1 in Hl. apply elem_of_filter_list in Hl as [Hk Hs]. auto.
  - intros k Hres Hnin [k' [Hk' Hs']].
    rewrite bool_decide_eq_false_2 in Hres by exact Hnin.
    destruct (List.filter (fun k => startswith nga_fuel k) keys) as [|k0 ks] eqn:E1.
    + exfalso.
      assert (Hin : k' ∈ List.filter (fun k => startswith nga_fuel k) keys)
        by (apply elem_of_filter_list; auto).
      rewrite E1 in Hin. inversion Hin.
    + injection Hres as <-. destruct (longest_from_spec k0 ks) as [Hl Hmax].
      rewrite <- E1 in Hl, Hmax. split.
      * apply elem_of_filter_list in Hl as [_ Hs]. exact Hs.
      * intros k1 Hk1 Hs1. apply Hmax. apply elem_of_filter_list. auto.
  - split.
    + case_bool_decide as Hin; [discriminate|].
      destruct (List.filter (fun k => startswith nga_fuel k) keys) as [|k0 ks] eqn:E1;
        [|discriminate].
      destruct (List.filter (fun k => startswith k nga_fuel) keys) as [|k1 ks1] eqn:E2;
        [|discriminate].
      intros _ k Hk. split.
      * destruct (startswith nga_fuel k) eqn:Hs; [|reflexivity].
        assert (Hf : k ∈ List.filter (fun k => startswith nga_fuel k) keys)
          by (apply elem_of_filter_list; auto).
        rewrite E1 in Hf. inversion Hf.
      * destruct (startswith k nga_fuel) eqn:Hs; [|reflexivity].
        assert (Hf : k ∈ List.filter (fun k => startswith k nga_fuel) keys)
          by (apply elem_of_filter_list; auto).
        rewrite E2 in Hf. inversion Hf.
    + intros Hnone. case_bool_decide as Hin.
      * destruct (Hnone nga_fuel Hin) as [Hs _].
        rewrite startswith_refl in Hs. discriminate.
      * rewrite (filter_none (fun k => startswith nga_fuel k) keys)
          by (intros k Hk; apply (Hnone k Hk)).
        rewrite (filter_none (fun k => startswith k nga_fuel) keys)
          by (intros k Hk; apply (Hnone k Hk)).
        reflexivity.
Qed.

Lemma X13_resolve_factor_key_witness :
  let yf := default [] (example_factor_map !! 2025%Z) in
  let tag := "Diesel oil-Cars and light commercial vehicles (B5)"%string in
  resolve_factor_key yf tag = Some "Diesel oil-Cars and light commercial vehicles"%string
  /\ (tag ∉ dict_keys yf)
  /\ "Diesel oil"%string ∈ dict_keys yf
  /\ startswith tag "Diesel oil" = true
  /\ (String.length "Diesel oil"
      <= String.length "Diesel oil-Cars and light commercial vehicles")%nat.
Proof.
  intros yf tag.
  assert (Hres : resolve_factor_key yf tag
                 = Some "Diesel oil-Cars and light commercial vehicles"%string)
    by (vm_compute; reflexivity).
  assert (Hnin : tag ∉ dict_keys yf).
  { intros H. apply list_elem_of_In in H. vm_compute in H.
    repeat (destruct H as [H|H]; [discriminate H|]). exact H. }
  assert (Hin : "Diesel oil"%string ∈ dict_keys yf)
    by (apply list_elem_of_In; vm_compute; auto).
  assert (Hs : startswith tag "Diesel oil" = true) by reflexivity.
  split; [exact Hres|]. split; [exact Hnin|]. split; [exact Hin|].
  split; [exact Hs|].
  destruct (X13_resolve_factor_key yf tag) as (_ & _ & Hlong & _).
  destruct (Hlong _ Hres Hnin) as [_ Hmax]; [exists "Diesel oil"%string; auto|].
  exact (Hmax "Diesel oil"%string Hin Hs).
Defined.

(** ** Applying the factors: what is left alone *)

Lemma reads_ledger_inputs : reads_no_emissions ledger_inputs.
Proof. repeat split; intros v r; reflexivity. Qed.

Lemma reads_FY : reads_no_emissions Ledger.FY.
Proof. repeat split; intros v r; reflexivity. Qed.

Lemma init_emissions_keeps {A} (f : Ledger.row -> A) (r : Ledger.row) :
  reads_no_emissions f -> f (init_emissions r) = f r.
Proof.
  intros (H1 & H2 & H3 & H4). unfold init_emissions.
  rewrite H4, H3, H2, H1. reflexivity.
Qed.

Lemma init_emissions_inputs (r r' : Ledger.row) :
  ledger_inputs r' = ledger_inputs r -> init_emissions r' = init_emissions r.
Proof.
  destruct r, r'. unfold ledger_inputs. cbn. intros [= -> -> -> -> -> -> -> ->].
  reflexivity.
Qed.

Lemma emit_row_keeps {A} (f : Ledger.row -> A)
      (year_factor_map : gmap Z (list (string * factors)))
      (fy_col : Ledger.row -> Z) (df : list Ledger.row) (r : Ledger.row) :
  reads_no_emissions f -> f (emit_row year_factor_map fy_col df r) = f r.
Proof.
  intros Hf. unfold emit_row.
  destruct (has_fuel r); [|reflexivity].
  destruct (Ledger.NGAFuel r) as [tag|]; [|reflexivity].
  destruct (resolved_key year_factor_map fy_col df tag); [|reflexivity].
  apply year_row_keeps, Hf.
Qed.

Lemma apply_emissions_keeps {A} (f : Ledger.row -> A)
      (agg_df : list Ledger.row)
      (year_factor_map : gmap Z (list (string * factors)))
      (fy_col : Ledger.row -> Z) :
  reads_no_emissions fy_col -> reads_no_emissions f ->
  map f (apply_emissions_to_df agg_df year_factor_map fy_col) = map f agg_df.
Proof.
  intros Hfy Hf. rewrite apply_emissions_rows by exact Hfy.
  rewrite map_map. apply map_ext. intros r.
  rewrite emit_row_keeps by exact Hf. apply init_emissions_keeps, Hf.
Qed.

Lemma selectors_init (fy_col : Ledger.row -> Z) (agg_df : list Ledger.row) :
  reads_no_emissions fy_col ->
  map (selectors fy_col) (map init_emissions agg_df) = map (selectors fy_col) agg_df.
Proof.
  intros Hfy. rewrite map_map. apply map_ext. intros r.
  apply init_emissions_keeps, reads_selectors, Hfy.
Qed.

(** X14. The calculator changes nothing but the four emission columns: the
    rows keep their number, order and every other column.  A row without a
    fuel tag, a row whose tag resolves to no factor key, and a row whose year
    has no bundle for the resolved key get zero in all four emission columns,
    whatever those columns held before. *)
Theorem X14_emissions_untouched_columns
        (agg_df : list Ledger.row)
        (year_factor_map : gmap Z (list (string * factors)))
        (fy_col : Ledger.row -> Z) :
  reads_no_emissions fy_col ->
  let out := apply_emissions_to_df agg_df year_factor_map fy_col in
  map ledger_inputs out = map ledger_inputs agg_df
  /\ (forall i r o,
        agg_df !! i = Some r -> out !! i = Some o ->
        (has_fuel r = false
         \/ (exists tag, Ledger.NGAFuel r = Some tag
                         /\ resolved_key year_factor_map fy_col agg_df tag = None)
         \/ (exists tag key,
                Ledger.NGAFuel r = Some tag
                /\ resolved_key year_factor_map fy_col agg_df tag = Some key
                /\ dict_get key (default [] (year_factor_map !! fy_col r)) = None)) ->
        ledger_emissions o = (0.0, 0.0, 0.0, 0.0)).
Proof.
  intros Hfy out. subst out.
  split; [apply apply_emissions_keeps; [exact Hfy | exact reads_ledger_inputs]|].
  intros i r o Hi Ho Hcase.
  rewrite apply_emissions_rows, list_lookup_fmap, Hi in Ho by exact Hfy.
  injection Ho as <-. unfold emit_row.
  rewrite (init_emissions_keeps has_fuel) by apply reads_has_fuel.
  rewrite (init_emissions_keeps Ledger.NGAFuel) by apply reads_NGAFuel.
  destruct (has_fuel r) eqn:Eh; [|reflexivity].
  destruct (Ledger.NGAFuel r) as [tag|] eqn:Et; [|reflexivity].
  rewrite (resolved_key_selectors _ _ tag _ _ (selectors_init fy_col agg_df Hfy)).
  destruct Hcase as [Hc|[(tag' & Ht & Hnone)|(tag' & key & Ht & Hkey & Hget)]].
  - discriminate Hc.
  - injection Ht as <-. rewrite Hnone. reflexivity.
  - injection Ht as <-. rewrite Hkey. unfold year_row.
    rewrite (init_emissions_keeps fy_col) by exact Hfy. rewrite Hget. reflexivity.
Qed.

Lemma X14_emissions_untouched_witness :
  exists r o,
    example_ledger_gap !! 0%nat = Some r
    /\ apply_emissions_to_df example_ledger_gap example_factor_map Ledger.FY !! 0%nat
       = Some o
    /\ has_fuel r = false
    /\ ledger_emissions o = (0.0, 0.0, 0.0, 0.0).
Proof.
  destruct (example_ledger_gap !! 0%nat) as [r|] eqn:Er;
    [|vm_compute in Er; discriminate].
  destruct (apply_emissions_to_df example_ledger_gap example_factor_map Ledger.FY
              !! 0%nat) as [o|] eqn:Eo; [|vm_compute in Eo; discriminate].
  assert (Hf : has_fuel r = false)
    by (vm_compute in Er; injection Er as <-; reflexivity).
  exists r, o. split; [reflexivity|]. split; [reflexivity|]. split; [exact Hf|].
  apply (proj2 (X14_emissions_untouched_columns example_ledger_gap example_factor_map
                  Ledger.FY reads_FY) 0%nat r o Er Eo).
  left. exact Hf.
Defined.

Lemma map_init_emissions_inputs (df df' : list Ledger.row) :
  map ledger_inputs df' = map ledger_inputs df ->
  map init_emissions df' = map init_emissions df.
Proof.
  revert df'. induction df as [|r df IH]; intros [|r' df']; cbn [map];
    try discriminate; [reflexivity|].
  intros H.
  pose proof (f_equal (hd (ledger_inputs r)) H) as Hr.
  pose proof (f_equal (@tl _) H) as Hrest. cbn [hd tl] in Hr, Hrest.
  rewrite (init_emissions_inputs r r' Hr), (IH df' Hrest). reflexivity.
Qed.

Lemma apply_emissions_same_inputs
      (year_factor_map : gmap Z (list (string * factors)))
      (fy_col : Ledger.row -> Z) (df df' : list Ledger.row) :
  map ledger_inputs df' = map ledger_inputs df ->
  apply_emissions_to_df df' year_factor_map fy_col
  = apply_emissions_to_df df year_factor_map fy_col.
Proof.
  intros H. unfold apply_emissions_to_df.
  rewrite (map_init_emissions_inputs df df' H). reflexivity.
Qed.

(** X15. The result of the calculator does not depend on what the emission
    columns of its input hold: two tables that agree on all other columns give
    the same result, and applying the calculator to its own result changes
    nothing. *)
Theorem X15_emissions_recomputed
        (agg_df : list Ledger.row)
        (year_factor_map : gmap Z (list (string * factors)))
        (fy_col : Ledger.row -> Z) :
  (forall agg_df',
      map ledger_inputs agg_df' = map ledger_inputs agg_df ->
      apply_emissions_to_df agg_df' year_factor_map fy_col
      = apply_emissions_to_df agg_df year_factor_map fy_col)
  /\ (reads_no_emissions fy_col ->
      apply_emissions_to_df (apply_emissions_to_df agg_df year_factor_map fy_col)
                            year_factor_map fy_col
      = apply_emissions_to_df agg_df year_factor_map fy_col).
Proof.
  split; [intros df'; apply apply_emissions_same_inputs|].
  intros Hfy. apply apply_emissions_same_inputs.
  apply apply_emissions_keeps; [exact Hfy | exact reads_ledger_inputs].
Qed.

Lemma X15_emissions_recomputed_witness :
  apply_emissions_to_df
    (apply_emissions_to_df example_ledger_gap example_factor_map Ledger.FY)
    example_factor_map Ledger.FY
  = apply_emissions_to_df example_ledger_gap example_factor_map Ledger.FY.
Proof.
  apply (proj2 (X15_emissions_recomputed example_ledger_gap example_factor_map
                  Ledger.FY) reads_FY).
Defined.

(** ** Monthly aggregation conserves the totals *)

Lemma Qsum_ext_in {A} (f g : A -> Q) (l : list A) :
  (forall x, x ∈ l -> f x == g x) -> Qsum (map f l) == Qsum (map g l).
Proof.
  induction l as [|a l IH]; intros H; cbn [map Qsum fold_right]; [reflexivity|].
  fold (Qsum (map f l)). fold (Qsum (map g l)).
  rewrite IH by (intros x Hx; apply H; right; exact Hx).
  rewrite (H a) by left. reflexivity.
Qed.

Lemma Qsum_ext {A} (f g : A -> Q) (l : list A) :
  (forall x, f x == g x) -> Qsum (map f l) == Qsum (map g l).
Proof. intros H. apply Qsum_ext_in. intros x _. apply H. Qed.

Lemma Qsum_add {A} (f g : A -> Q) (l : list A) :
  Qsum (map (fun x => f x + g x) l) == Qsum (map f l) + Qsum (map g l).
Proof.
  induction l as [|a l IH]; cbn [map Qsum fold_right]; [reflexivity|].
  fold (Qsum (map f l)). fold (Qsum (map g l)).
  fold (Qsum (map (fun x => f x + g x) l)). rewrite IH. ring.
Qed.

Lemma Qsum_zero {A} (l : list A) : Qsum (map (fun _ => 0) l) == 0.
Proof.
  induction l as [|a l IH]; cbn [map Qsum fold_right]; [reflexivity|].
  fold (Qsum (map (fun _ : A => 0) l)). rewrite IH. ring.
Qed.

Lemma Qsum_indicator (k : date) (v : Q) (keys : list date) :
  NoDup keys -> k ∈ keys ->
  Qsum (map (fun d => if date_eqb k d then v else 0) keys) == v.
Proof.
  induction keys as [|d keys IH]; intros Hnd Hin; [inversion Hin|].
  apply NoDup_cons in Hnd as [Hnotin Hnd].
  cbn [map Qsum fold_right].
  fold (Qsum (map (fun d => if date_eqb k d then v else 0) keys)).
  destruct (date_eqb k d) eqn:E.
  - apply date_eqb_eq in E. subst d.
    rewrite (Qsum_ext_in _ (fun _ => 0)); [rewrite Qsum_zero; ring|].
    intros x Hx. destruct (date_eqb k x) eqn:Ex; [|reflexivity].
    apply date_eqb_eq in Ex. subst x. contradiction.
  - apply elem_of_cons in Hin as [->|Hin].
    + rewrite (proj2 (date_eqb_eq d d) eq_refl) in E. discriminate.
    + rewrite (IH Hnd Hin). ring.
Qed.

Lemma month_sum_cons (mask : Ledger.row -> bool) (val : Ledger.row -> Q)
      (r : Ledger.row) (df : list Ledger.row) (d : date) :
  month_sum mask val (r :: df) d
  == (if mask r then (if date_eqb (Ledger.Date r) d then val r else 0) else 0)
     + month_sum mask val df d.
Proof.
  unfold month_sum. cbn [List.filter].
  destruct (mask r); cbn [List.filter];
    [destruct (date_eqb (Ledger.Date r) d); cbn [map Qsum fold_right]|];
    unfold Qsum; ring.
Qed.

Lemma Qsum_month_sums (mask : Ledger.row -> bool) (val : Ledger.row -> Q)
      (df : list Ledger.row) (keys : list date) :
  NoDup keys ->
  (forall r, r ∈ df -> Ledger.Date r ∈ keys) ->
  Qsum (map (month_sum mask val df) keys) == Qsum (map val (List.filter mask df)).
Proof.
  intros Hnd. induction df as [|r df IH]; intros Hkeys.
  - cbn [List.filter map Qsum fold_right].
    rewrite (Qsum_ext _ (fun _ => 0)); [apply Qsum_zero|].
    intros d. reflexivity.
  - rewrite (Qsum_ext _ _ keys (month_sum_cons mask val r df)).
    rewrite (Qsum_add
               (fun d => if mask r
                         then (if date_eqb (Ledger.Date r) d then val r else 0)
                         else 0)
               (month_sum mask val df)).
    rewrite IH by (intros x Hx; apply Hkeys; right; exact Hx).
    cbn [List.filter]. destruct (mask r).
    + rewrite Qsum_indicator by (auto; apply Hkeys; left).
      cbn [map Qsum fold_right]. reflexivity.
    + rewrite Qsum_zero. ring.
Qed.

Lemma filter_true {A} (l : list A) : List.filter (fun _ => true) l = l.
Proof. induction l as [|a l IH]; cbn [List.filter]; congruence. Qed.

(** X16. Aggregation to months conserves the totals: summed over the rows of
    the monthly summary, each scope column equals the total of that column
    over the ledger, and ROM tonnes, site electricity and grid electricity
    equal the total quantity of the ledger rows of that kind. *)
Theorem X16_monthly_totals_conserved (monthly : list Ledger.row) :
  let out := aggregate_to_monthly monthly in
  Qsum (map Monthly.Scope1_tCO2e out) == Qsum (map Ledger.Scope1_tCO2e monthly)
  /\ Qsum (map Monthly.Scope2_tCO2e out) == Qsum (map Ledger.Scope2_tCO2e monthly)
  /\ Qsum (map Monthly.Scope3_tCO2e out) == Qsum (map Ledger.Scope3_tCO2e monthly)
  /\ Qsum (map Monthly.ROM_t out)
     == Qsum (map Ledger.Quantity (List.filter rom_mask monthly))
  /\ Qsum (map Monthly.Site_Electricity_kWh out)
     == Qsum (map Ledger.Quantity
                  (List.filter (description_is GRID_SITE_ELEC_DESCRIPTION) monthly))
  /\ Qsum (map Monthly.Grid_Electricity_kWh out)
     == Qsum (map Ledger.Quantity
                  (List.filter (description_is GRID_GRID_ELEC_DESCRIPTION) monthly)).
Proof.
  intros out. subst out. rewrite aggregate_to_monthly_rows, !map_map.
  cbn [Monthly.Scope1_tCO2e Monthly.Scope2_tCO2e Monthly.Scope3_tCO2e Monthly.ROM_t
       Monthly.Site_Electricity_kWh Monthly.Grid_Electricity_kWh].
  assert (Hnd : NoDup (group_dates Ledger.Date monthly))
    by (apply NoDup_py_sorted, NoDup_unique).
  assert (Hkeys : forall r, r ∈ monthly ->
                            Ledger.Date r ∈ group_dates Ledger.Date monthly)
    by (intros r Hr; apply elem_of_group_dates; eauto).
  pose proof (fun mask val => Qsum_month_sums mask val monthly _ Hnd Hkeys) as H.
  repeat split; try apply H.
  all: rewrite <- (filter_true monthly) at 2; apply H.
Qed.

(** ** Safeguard metrics: the descriptive columns *)

Lemma Forall_map_intro {A B} (g : A -> B) (P : B -> Prop) (l : list A) :
  (forall a, P (g a)) -> Forall P (map g l).
Proof. intros H. induction l; cbn [map]; constructor; auto. Qed.

(** The rule of each descriptive column, as a relation between the columns
    of one row. *)
Lemma assign_phase_labels_rows d1 d2 d3 (df : list Metrics.row) :
  Forall (fun r => Metrics.Phase r
                   = get_phase_name (Metrics.Date r) d1 d2 d3
                                    (Some DEFAULT_GRID_CONNECTION_DATE))
         (assign_phase_labels d1 d2 d3 df).
Proof.
  unfold assign_phase_labels, assign_all. apply Forall_map_intro.
  intros r. reflexivity.
Qed.

Lemma assign_emission_intensity_rows (df : list Metrics.row) :
  Forall (fun r => Metrics.Emission_Intensity r
                   = if Qltb 0 (Metrics.ROM_t r)
                     then Metrics.Scope1_tCO2e r / Metrics.ROM_t r else 0.0)
         (assign_emission_intensity df).
Proof.
  unfold assign_emission_intensity, assign_all, loc_assign. rewrite map_map.
  apply Forall_map_intro. intros r. unfold mask_rom.
  cbn [Metrics.ROM_t Metrics.set_Emission_Intensity].
  destruct (Qltb 0 (Metrics.ROM_t r)) eqn:E;
    cbn [Metrics.ROM_t Metrics.Scope1_tCO2e Metrics.Emission_Intensity
         Metrics.set_Emission_Intensity]; rewrite E; reflexivity.
Qed.

Lemma assign_baseline_intensity_rows (df : list Metrics.row) :
  Forall (fun r => Metrics.Baseline_Intensity r
                   = (if Qltb 0 (Metrics.ROM_t r)
                      then Metrics.Baseline r / Metrics.ROM_t r else 0.0)
                   /\ Metrics.Intensity_Excess r
                      = Metrics.Emission_Intensity r - Metrics.Baseline_Intensity r)
         (assign_baseline_intensity df).
Proof.
  unfold assign_baseline_intensity, assign_all, loc_assign. rewrite !map_map.
  apply Forall_map_intro. intros r. unfold mask_rom.
  cbn [Metrics.ROM_t Metrics.set_Baseline_Intensity].
  destruct (Qltb 0 (Metrics.ROM_t r)) eqn:E;
    cbn [Metrics.ROM_t Metrics.Baseline Metrics.Baseline_Intensity
         Metrics.Emission_Intensity Metrics.Intensity_Excess
         Metrics.set_Baseline_Intensity Metrics.set_Intensity_Excess];
    rewrite E; split; reflexivity.
Qed.

Lemma assign_in_safeguard_rows (df : list Metrics.row) :
  Forall (fun r => Metrics.In_Safeguard r
                   = Qgeb (fy_sum Metrics.Scope1_tCO2e (assign_in_safeguard df)
                                  (Metrics._fy r))
                          SAFEGUARD_THRESHOLD)
         (assign_in_safeguard df).
Proof.
  assert (Hsame : same_inputs df (assign_in_safeguard df))
    by (apply same_inputs_of_map, assign_in_safeguard_keeps; reflexivity).
  unfold assign_in_safeguard at 2, assign_all. apply Forall_map_intro.
  intros r. cbn [Metrics.In_Safeguard Metrics._fy Metrics.set_In_Safeguard].
  rewrite (same_inputs_scope1 _ _ _ Hsame). reflexivity.
Qed.

Lemma base_rows_columns (monthly : list Monthly.row) :
  map monthly_columns (base_rows monthly)
  = List.filter (fun m => date_geb (Monthly.Date m) SAFEGUARD_START_DATE) monthly.
Proof.
  unfold base_rows. induction monthly as [|m l IH]; cbn [map List.filter];
    [reflexivity|].
  change (Metrics.Date (Metrics.of_monthly m)) with (Monthly.Date m).
  destruct (date_geb (Monthly.Date m) SAFEGUARD_START_DATE); cbn [map];
    [|exact IH].
  rewrite IH. destruct m. reflexivity.
Qed.

Lemma smc_stage_in_safeguard c (bs : list Metrics.row) :
  Forall (fun r => Metrics.In_Safeguard r
                   = Qgeb (fy_sum Metrics.Scope1_tCO2e (smc_stage c bs) (Metrics._fy r))
                          SAFEGUARD_THRESHOLD)
         (smc_stage c bs).
Proof.
  set (df6 := assign_in_safeguard (assign_baseline_intensity bs)).
  assert (Hin : map inputs (smc_stage c bs) = map inputs df6).
  { unfold smc_stage. fold df6.
    rewrite cumsum_from_keeps, assign_exit_fy_keeps, apply_smc_rules_keeps,
      assign_smc_phase_keeps, assign_raw_smc_keeps by reflexivity. reflexivity. }
  assert (Hflag : map Metrics.In_Safeguard (smc_stage c bs)
                  = map Metrics.In_Safeguard df6).
  { unfold smc_stage. fold df6.
    rewrite cumsum_from_keeps, assign_exit_fy_keeps, apply_smc_rules_keeps,
      assign_smc_phase_keeps, assign_raw_smc_keeps by reflexivity. reflexivity. }
  apply (Forall_of_map_eq (fun r => (inputs r, Metrics.In_Safeguard r)) _ df6).
  - apply map_pair_eq; assumption.
  - intros a b Hab Ha. apply pair_equal_spec in Hab as [Hi Hf].
    apply inputs_eq in Hi. destruct Hi as (_ & _ & _ & _ & Hfy).
    rewrite Hf, Hfy. exact Ha.
  - eapply Forall_impl; [apply assign_in_safeguard_rows|].
    intros r Hr. cbv beta in Hr. rewrite Hr. fold df6.
    rewrite (same_inputs_scope1 df6 (smc_stage c bs));
      [reflexivity | apply same_inputs_of_map, Hin].
Qed.

Lemma metrics_rows_in_safeguard fsr fse c d1 d2 d3 rate2 (monthly : list Monthly.row) :
  let out := Metrics.rows (calculate_safeguard_metrics monthly fsr fse c d1 d2 d3 rate2) in
  Forall (fun r => Metrics.In_Safeguard r
                   = Qgeb (fy_sum Metrics.Scope1_tCO2e out (Metrics._fy r))
                          SAFEGUARD_THRESHOLD) out.
Proof.
  intros out. subst out.
  destruct (base_rows monthly) as [|r0 l] eqn:E.
  - rewrite metrics_rows_empty by exact E. constructor.
  - rewrite metrics_rows_nonempty by (rewrite E; discriminate).
    apply smc_stage_in_safeguard.
Qed.

(** X17. The table of safeguard metrics carries the seven monthly-summary
    columns of the months on or after the Safeguard start unchanged and in
    order.  In every row the phase label is the one of the row's date, the
    emission intensity is Scope 1 per ROM tonne and the baseline intensity
    the baseline per ROM tonne, both 0 for a month without ROM tonnes, the
    intensity excess is their difference, and the Safeguard flag tells
    whether the Scope-1 total of the row's fiscal year reaches the
    threshold. *)
Theorem X17_descriptive_columns
        (monthly : list Monthly.row) (fsei_rom fsei_elec : Q)
        (credit_start_date d1 d2 d3 : date) (rate2 : option Q) :
  let out := Metrics.rows (calculate_safeguard_metrics
                             monthly fsei_rom fsei_elec credit_start_date
                             d1 d2 d3 rate2) in
  map monthly_columns out
  = List.filter (fun m => date_geb (Monthly.Date m) SAFEGUARD_START_DATE) monthly
  /\ forall r, r ∈ out ->
       Metrics.Phase r
       = get_phase_name (Metrics.Date r) d1 d2 d3 (Some DEFAULT_GRID_CONNECTION_DATE)
       /\ Metrics.Emission_Intensity r
          = (if Qltb 0 (Metrics.ROM_t r)
             then Metrics.Scope1_tCO2e r / Metrics.ROM_t r else 0.0)
       /\ Metrics.Baseline_Intensity r
          = (if Qltb 0 (Metrics.ROM_t r)
             then Metrics.Baseline r / Metrics.ROM_t r else 0.0)
       /\ Metrics.Intensity_Excess r
          = Metrics.Emission_Intensity r - Metrics.Baseline_Intensity r
       /\ Metrics.In_Safeguard r
          = Qgeb (fy_sum Metrics.Scope1_tCO2e out (date_to_fy (Metrics.Date r)))
                 SAFEGUARD_THRESHOLD.
Proof.
  intros out. subst out.
  destruct (base_rows monthly) as [|r0 l] eqn:E.
  { rewrite metrics_rows_empty by exact E. cbn [Metrics.rows map].
    split; [rewrite <- base_rows_columns, E; reflexivity|].
    intros r Hr. inversion Hr. }
  rewrite metrics_rows_nonempty by (rewrite E; discriminate).
  set (bs := baseline_stage fsei_rom fsei_elec rate2 d1 d2 d3 monthly).
  split.
  - rewrite smc_stage_keeps by reflexivity. subst bs. unfold baseline_stage.
    rewrite assign_baselines_keeps, assign_fy_keeps, assign_emission_intensity_keeps,
      assign_phase_labels_keeps by reflexivity.
    apply base_rows_columns.
  - (* phase label *)
    assert (H1 : Forall (fun r => Metrics.Phase r
                           = get_phase_name (Metrics.Date r) d1 d2 d3
                                            (Some DEFAULT_GRID_CONNECTION_DATE))
                        (smc_stage credit_start_date bs)).
    { apply (Forall_of_map_eq (fun r => (Metrics.Date r, Metrics.Phase r)) _
               (assign_phase_labels d1 d2 d3 (base_rows monthly))).
      - rewrite smc_stage_keeps by reflexivity. subst bs. unfold baseline_stage.
        rewrite assign_baselines_keeps, assign_fy_keeps,
          assign_emission_intensity_keeps by reflexivity. reflexivity.
      - intros a b Hab Ha. apply pair_equal_spec in Hab as [Hd Hp].
        rewrite Hd, Hp. exact Ha.
      - apply assign_phase_labels_rows. }
    (* emission intensity *)
    assert (H2 : Forall (fun r => Metrics.Emission_Intensity r
                           = if Qltb 0 (Metrics.ROM_t r)
                             then Metrics.Scope1_tCO2e r / Metrics.ROM_t r else 0.0)
                        (smc_stage credit_start_date bs)).
    { apply (Forall_of_map_eq
               (fun r => (Metrics.Scope1_tCO2e r, Metrics.ROM_t r,
                          Metrics.Emission_Intensity r)) _
               (assign_emission_intensity
                  (assign_phase_labels d1 d2 d3 (base_rows monthly)))).
      - rewrite smc_stage_keeps by reflexivity. subst bs. unfold baseline_stage.
        rewrite assign_baselines_keeps, assign_fy_keeps by reflexivity. reflexivity.
      - intros a b Hab Ha. apply pair_equal_spec in Hab as [Hab He].
        apply pair_equal_spec in Hab as [Hs Hr].
        rewrite Hs, Hr, He. exact Ha.
      - apply assign_emission_intensity_rows. }
    (* baseline intensity and excess *)
    assert (H3 : Forall (fun r => Metrics.Baseline_Intensity r
                           = (if Qltb 0 (Metrics.ROM_t r)
                              then Metrics.Baseline r / Metrics.ROM_t r else 0.0)
                           /\ Metrics.Intensity_Excess r
                              = Metrics.Emission_Intensity r
                                - Metrics.Baseline_Intensity r)
                        (smc_stage credit_start_date bs)).
    { apply (Forall_of_map_eq
               (fun r => (Metrics.ROM_t r, Metrics.Baseline r,
                          Metrics.Baseline_Intensity r, Metrics.Emission_Intensity r,
                          Metrics.Intensity_Excess r)) _
               (assign_baseline_intensity bs)).
      - unfold smc_stage.
        rewrite cumsum_from_keeps, assign_exit_fy_keeps, apply_smc_rules_keeps,
          assign_smc_phase_keeps, assign_raw_smc_keeps, assign_in_safeguard_keeps
          by reflexivity. reflexivity.
      - intros a b Hab Ha. apply pair_equal_spec in Hab as [Hab Hx].
        apply pair_equal_spec in Hab as [Hab He].
        apply pair_equal_spec in Hab as [Hab Hi].
        apply pair_equal_spec in Hab as [Hr Hb].
        rewrite Hr, Hb, Hi, He, Hx. exact Ha.
      - apply assign_baseline_intensity_rows. }
    (* Safeguard flag *)
    pose proof (smc_stage_in_safeguard credit_start_date bs) as H4.
    (* the fiscal-year column holds the fiscal year of the date *)
    assert (H5 : Forall (fun r => Metrics._fy r = date_to_fy (Metrics.Date r))
                        (smc_stage credit_start_date bs)).
    { eapply Forall_transfer;
        [apply smc_stage_same_inputs | | apply baseline_stage_fy].
      intros a b Hab Ha. cbv beta in Hab. apply inputs_eq in Hab.
      destruct Hab as (Hd & _ & _ & _ & Hfy). congruence. }
    rewrite Forall_forall in H1, H2, H3, H4, H5.
    intros r Hr. specialize (H1 r Hr). specialize (H2 r Hr).
    destruct (H3 r Hr) as [H3a H3b]. specialize (H4 r Hr). specialize (H5 r Hr).
    rewrite <- H5. auto.
Qed.

Lemma X17_descriptive_columns_witness :
  exists r,
    r ∈ Metrics.rows example_metrics
    /\ Metrics.Emission_Intensity r == 600
    /\ Metrics.In_Safeguard r = true.
Proof.
  destruct example_metrics_head as (r & Hhd & Hin).
  destruct (proj2 (X17_descriptive_columns
                     example_monthly FSEI_ROM FSEI_ELEC CREDIT_START_DATE
                     (mkdate 2037 3 31) (mkdate 2039 12 31) (mkdate 2044 12 31) None)
                  r Hin) as (_ & Hei & _ & _ & Hflag).
  exists r. split; [exact Hin|].
  rewrite Hei, Hflag. vm_compute in Hhd. injection Hhd as Hhd. subst r.
  split; vm_compute; reflexivity.
Defined.

(** ** Safeguard metrics: when each SMC phase can occur *)

Lemma elem_of_py_range (a b y : Z) : y ∈ py_range a b <-> (a <= y < b)%Z.
Proof.
  unfold py_range. rewrite list_elem_of_fmap. split.
  - intros (i & -> & Hi). apply list_elem_of_In, in_seq in Hi. lia.
  - intros H. exists (Z.to_nat (y - a)). split; [lia|].
    apply list_elem_of_In, in_seq. lia.
Qed.

Lemma classify_fy_spec (f : Z -> Q) (covered : gset Z) (c : date) (fy : Z) :
  let count :=
    length (List.filter (fun y => bool_decide (y ∈ covered))
                        (py_range (fy - S58B_LOOKBACK) fy)) in
  match classify_fy f covered c fy with
  | Pre_Safeguard => date_ltb (fst (fy_to_date_range fy)) c = true
  | Safeguard =>
      date_ltb (fst (fy_to_date_range fy)) c = false /\ SAFEGUARD_THRESHOLD <= f fy
  | Opt_In =>
      date_ltb (fst (fy_to_date_range fy)) c = false /\ f fy < SAFEGUARD_THRESHOLD
      /\ (S58B_EARLIEST_FY <= fy)%Z /\ (S58B_MIN_COVERED <= count)%nat
  | Exited =>
      date_ltb (fst (fy_to_date_range fy)) c = false /\ f fy < SAFEGUARD_THRESHOLD
      /\ (S58B_EARLIEST_FY <= fy)%Z /\ (count < S58B_MIN_COVERED)%nat
      /\ exists y, (2024 <= y < fy)%Z /\ y ∈ covered
  | Gap =>
      date_ltb (fst (fy_to_date_range fy)) c = false /\ f fy < SAFEGUARD_THRESHOLD
      /\ ((fy < S58B_EARLIEST_FY)%Z
          \/ ((count < S58B_MIN_COVERED)%nat
              /\ forall y, (2024 <= y < fy)%Z -> y ∉ covered))
  end.
Proof.
  intros count. unfold classify_fy. fold count.
  destruct (date_ltb (fst (fy_to_date_range fy)) c) eqn:Ed; [reflexivity|].
  destruct (Qgeb (f fy) SAFEGUARD_THRESHOLD) eqn:Et.
  { split; [reflexivity|]. apply Qgeb_ge, Et. }
  assert (Hlt : f fy < SAFEGUARD_THRESHOLD).
  { apply Qnot_le_lt. intros Hle. apply Qgeb_ge in Hle. congruence. }
  destruct (Z.leb_spec S58B_EARLIEST_FY fy) as [Hfy|Hfy]; cbn [andb].
  - destruct (Nat.leb_spec S58B_MIN_COVERED count) as [Hc|Hc].
    + auto.
    + destruct (existsb (fun y => bool_decide (y ∈ covered)) (py_range 2024 fy))
        eqn:Eex; cbn [andb].
      * destruct (Nat.ltb_spec count S58B_MIN_COVERED) as [_|Hge]; [|lia].
        split; [reflexivity|]. split; [exact Hlt|]. split; [exact Hfy|].
        split; [exact Hc|].
        apply existsb_exists in Eex as (y & Hy & Hcov).
        apply list_elem_of_In, elem_of_py_range in Hy.
        apply bool_decide_eq_true_1 in Hcov. eauto.
      * split; [reflexivity|]. split; [exact Hlt|]. right. split; [exact Hc|].
        intros y Hy Hcov.
        assert (existsb (fun y => bool_decide (y ∈ covered)) (py_range 2024 fy) = true).
        { apply existsb_exists. exists y.
          split; [apply list_elem_of_In, elem_of_py_range, Hy|].
          apply bool_decide_eq_true_2, Hcov. }
        congruence.
  - rewrite andb_false_r. cbn [andb].
    split; [reflexivity|]. split; [exact Hlt|]. left. exact Hfy.
Qed.

Lemma elem_of_covered_fys (df : list Metrics.row) (y : Z) :
  y ∈ covered_fys df
  <-> (exists r, r ∈ df /\ Metrics._fy r = y)
      /\ SAFEGUARD_THRESHOLD <= fy_sum Metrics.Scope1_tCO2e df y.
Proof.
  unfold covered_fys. rewrite elem_of_list_to_set, elem_of_filter_list.
  unfold fy_index. rewrite elem_of_py_sorted, elem_of_unique, list_elem_of_fmap.
  rewrite Qgeb_ge. split.
  - intros [(r & -> & Hr) Ht]. split; [eauto | exact Ht].
  - intros [(r & Hr & <-) Ht]. split; [eauto | exact Ht].
Qed.

(** X18. The SMC phase of a row tells where its fiscal year stands: a
    Pre-Safeguard year starts before the credit start date and no other year
    does; an Opt-In year and an Exited year are FY2029 or later and below the
    threshold, the first with at least three covered years among the five
    before it, the second with fewer than three but with a covered year since
    FY2024; a Gap year is below the threshold and is either before FY2029 or
    has no covered year since FY2024.  A covered year is a fiscal year of the
    table whose Scope-1 total reaches the threshold. *)
Theorem X18_smc_phase_conditions
        (monthly : list Monthly.row) (fsei_rom fsei_elec : Q)
        (credit_start_date d1 d2 d3 : date) (rate2 : option Q) :
  let out := Metrics.rows (calculate_safeguard_metrics
                             monthly fsei_rom fsei_elec credit_start_date
                             d1 d2 d3 rate2) in
  let annual_scope1 := fy_sum Metrics.Scope1_tCO2e out in
  let covered_before fy :=
    length (List.filter (fun y => bool_decide (y ∈ covered_fys out))
                        (py_range (fy - 5) fy)) in
  (forall y, y ∈ covered_fys out
             <-> (exists r, r ∈ out /\ date_to_fy (Metrics.Date r) = y)
                 /\ 100000 <= annual_scope1 y)
  /\ forall r, r ∈ out ->
       let fy := date_to_fy (Metrics.Date r) in
       (Metrics.SMC_Phase r = Pre_Safeguard
        <-> date_ltb (fst (fy_to_date_range fy)) credit_start_date = true)
       /\ (Metrics.SMC_Phase r = Opt_In ->
           (2029 <= fy)%Z /\ annual_scope1 fy < 100000
           /\ (3 <= covered_before fy)%nat)
       /\ (Metrics.SMC_Phase r = Exited ->
           (2029 <= fy)%Z /\ annual_scope1 fy < 100000
           /\ (covered_before fy < 3)%nat
           /\ exists y, (2024 <= y < fy)%Z /\ y ∈ covered_fys out)
       /\ (Metrics.SMC_Phase r = Gap ->
           annual_scope1 fy < 100000
           /\ ((fy < 2029)%Z
               \/ forall y, (2024 <= y < fy)%Z -> y ∉ covered_fys out))
       /\ ((fy < 2029)%Z ->
           Metrics.SMC_Phase r <> Opt_In /\ Metrics.SMC_Phase r <> Exited).
Proof.
  intros out annual_scope1 covered_before.
  destruct (metrics_rows_smc fsei_rom fsei_elec credit_start_date d1 d2 d3 rate2 monthly)
    as [_ Hphase].
  destruct (metrics_rows_baseline_ok fsei_rom fsei_elec credit_start_date
              d1 d2 d3 rate2 monthly) as [_ Hfy].
  fold out in Hphase, Hfy. rewrite Forall_forall in Hphase, Hfy.
  split.
  - intros y. rewrite elem_of_covered_fys. fold annual_scope1.
    split; intros [(r & Hr & E) Ht]; (split; [|exact Ht]); exists r;
      (split; [exact Hr|]); rewrite <- E; [symmetry|]; apply Hfy, Hr.
  - intros r Hr fy. specialize (Hphase r Hr). specialize (Hfy r Hr).
    unfold phase_ok in Hphase. rewrite Hfy in Hphase. fold fy in Hphase.
    pose proof (classify_fy_spec (fy_sum Metrics.Scope1_tCO2e out) (covered_fys out)
                  credit_start_date fy) as Hspec.
    cbv zeta in Hspec. rewrite <- Hphase in Hspec.
    unfold S58B_EARLIEST_FY, S58B_MIN_COVERED, S58B_LOOKBACK, SAFEGUARD_THRESHOLD
      in Hspec.
    fold annual_scope1 in Hspec. fold (covered_before fy) in Hspec.
    destruct (Metrics.SMC_Phase r).
    + split; [tauto|]. repeat split; try discriminate; intros; discriminate.
    + destruct Hspec as [Hd _].
      split; [split; [discriminate | congruence]|].
      repeat split; try discriminate; intros; discriminate.
    + destruct Hspec as (Hd & Hlt & Hor).
      split; [split; [discriminate | congruence]|].
      split; [discriminate|]. split; [discriminate|].
      split; [|split; discriminate].
      intros _. split; [exact Hlt|]. destruct Hor as [?|[_ ?]]; auto.
    + destruct Hspec as (Hd & Hlt & Hfy29 & Hc).
      split; [split; [discriminate | congruence]|].
      split; [intros _; auto|]. split; [discriminate|]. split; [discriminate|].
      intros Hlt29. lia.
    + destruct Hspec as (Hd & Hlt & Hfy29 & Hc & Hex).
      split; [split; [discriminate | congruence]|].
      split; [discriminate|]. split; [intros _; auto|]. split; [discriminate|].
      intros Hlt29. lia.
Qed.

Lemma X18_smc_phase_witness :
  exists r,
    r ∈ Metrics.rows example_metrics_optin
    /\ Metrics.SMC_Phase r = Opt_In
    /\ (2029 <= date_to_fy (Metrics.Date r))%Z
    /\ fy_sum Metrics.Scope1_tCO2e (Metrics.rows example_metrics_optin)
              (date_to_fy (Metrics.Date r)) < 100000.
Proof.
  destruct (Metrics.rows example_metrics_optin !! 3%nat) as [r|] eqn:E;
    [|vm_compute in E; discriminate].
  assert (Hin : r ∈ Metrics.rows example_metrics_optin)
    by (eapply list_elem_of_lookup_2; exact E).
  assert (Hp : Metrics.SMC_Phase r = Opt_In)
    by (vm_compute in E; injection E as E; subst r; reflexivity).
  destruct (proj2 (X18_smc_phase_conditions
                     example_monthly_optin FSEI_ROM FSEI_ELEC CREDIT_START_DATE
                     (mkdate 2037 3 31) (mkdate 2039 12 31) (mkdate 2044 12 31) None)
                  r Hin) as (_ & Hopt & _).
  destruct (Hopt Hp) as (H29 & Hlt & _).
  exists r. auto.
Defined.

(** ** The exit date *)

Lemma StronglySorted_snoc (l : list Z) (x : Z) :
  StronglySorted Z.lt (l ++ [x]) ->
  StronglySorted Z.lt l /\ forall y, y ∈ l -> (y < x)%Z.
Proof.
  induction l as [|a l IH]; cbn [app]; intros Hs.
  - split; [constructor|]. intros y Hy. inversion Hy.
  - inversion Hs as [|? ? Hs' Hall]; subst.
    destruct (IH Hs') as [Hl Hlt]. split.
    + constructor; [exact Hl|].
      rewrite List.Forall_forall in *. intros y Hy. apply Hall, in_or_app. auto.
    + intros y Hy. apply elem_of_cons in Hy as [->|Hy]; [|apply Hlt, Hy].
      rewrite List.Forall_forall in Hall. apply Hall, in_or_app. right. left.
      reflexivity.
Qed.

(** The loop of [find_exit_date] over ascending fiscal years: the result is
    the first year of the final unbroken run of eligible years below the
    threshold. *)
Lemma exit_loop_spec (S : Z) (below : Z -> bool) (l : list Z) :
  StronglySorted Z.lt l ->
  match fold_left
          (fun (exit_fy : option Z) (fy : Z) =>
             if (fy <? S)%Z then exit_fy
             else if below fy then
                    match exit_fy with
                    | None => Some fy
                    | Some _ => exit_fy
                    end
                  else None) l None with
  | Some e =>
      e ∈ l /\ (S <= e)%Z
      /\ (forall y, y ∈ l -> (e <= y)%Z -> below y = true)
      /\ (forall y, y ∈ l -> (S <= y)%Z -> (y < e)%Z ->
            exists z, z ∈ l /\ (y <= z < e)%Z /\ below z = false)
  | None =>
      forall y, y ∈ l -> (S <= y)%Z ->
        exists z, z ∈ l /\ (y <= z)%Z /\ below z = false
  end.
Proof.
  induction l as [|x l IH] using rev_ind; intros Hs.
  - cbn [fold_left]. intros y Hy. inversion Hy.
  - apply StronglySorted_snoc in Hs as [Hs Hlt]. specialize (IH Hs).
    rewrite fold_left_app. cbn [fold_left].
    destruct (fold_left _ l None) as [e|].
    + destruct IH as (He & HS & Hrun & Hbreak).
      pose proof (Hlt e He) as Hex.
      destruct (Z.ltb_spec x S) as [HxS|HxS]; [lia|].
      destruct (below x) eqn:Eb.
      * split; [apply elem_of_app; left; exact He|]. split; [exact HS|]. split.
        -- intros y Hy Hey. apply elem_of_app in Hy as [Hy|Hy]; [apply Hrun; auto|].
           apply elem_of_cons in Hy as [->|Hy]; [exact Eb | inversion Hy].
        -- intros y Hy HSy Hye. apply elem_of_app in Hy as [Hy|Hy].
           ++ destruct (Hbreak y Hy HSy Hye) as (z & Hz & Hyz & Hbz).
              exists z. split; [apply elem_of_app; left; exact Hz | auto].
           ++ apply elem_of_cons in Hy as [->|Hy]; [lia | inversion Hy].
      * intros y Hy HSy. exists x.
        split; [apply elem_of_app; right; left|]. split; [|exact Eb].
        apply elem_of_app in Hy as [Hy|Hy]; [specialize (Hlt y Hy); lia|].
        apply elem_of_cons in Hy as [->|Hy]; [lia | inversion Hy].
    + destruct (Z.ltb_spec x S) as [HxS|HxS].
      * intros y Hy HSy. apply elem_of_app in Hy as [Hy|Hy];
          [specialize (Hlt y Hy); lia|].
        apply elem_of_cons in Hy as [->|Hy]; [lia | inversion Hy].
      * destruct (below x) eqn:Eb.
        -- split; [apply elem_of_app; right; left|]. split; [exact HxS|]. split.
           ++ intros y Hy Hxy. apply elem_of_app in Hy as [Hy|Hy];
                [specialize (Hlt y Hy); lia|].
              apply elem_of_cons in Hy as [->|Hy]; [exact Eb | inversion Hy].
           ++ intros y Hy HSy Hyx. apply elem_of_app in Hy as [Hy|Hy].
              ** destruct (IH y Hy HSy) as (z & Hz & Hyz & Hbz).
                 exists z. split; [apply elem_of_app; left; exact Hz|].
                 specialize (Hlt z Hz). split; [lia | exact Hbz].
              ** apply elem_of_cons in Hy as [->|Hy]; [lia | inversion Hy].
        -- intros y Hy HSy. exists x.
           split; [apply elem_of_app; right; left|]. split; [|exact Eb].
           apply elem_of_app in Hy as [Hy|Hy]; [specialize (Hlt y Hy); lia|].
           apply elem_of_cons in Hy as [->|Hy]; [lia | inversion Hy].
Qed.

Lemma find_exit_date_spec (monthly : list Metrics.row) (start : date) :
  let fys := map (fun r => date_to_fy (Metrics.Date r)) monthly in
  let annual fy :=
    Qsum (map Metrics.Scope1_tCO2e
              (List.filter (fun r => (date_to_fy (Metrics.Date r) =? fy)%Z) monthly)) in
  let S := date_to_fy start in
  (forall d, find_exit_date monthly start = Some d ->
     exists e,
       d = mkdate (e - 1) 7 1 /\ e <> 0%Z
       /\ e ∈ fys /\ (S <= e)%Z
       /\ (forall y, y ∈ fys -> (e <= y)%Z -> annual y < SAFEGUARD_THRESHOLD)
       /\ (forall y, y ∈ fys -> (S <= y)%Z -> (y < e)%Z ->
             exists z, z ∈ fys /\ (y <= z < e)%Z /\ SAFEGUARD_THRESHOLD <= annual z))
  /\ (find_exit_date monthly start = None ->
      (0%Z ∈ fys)
      \/ forall y, y ∈ fys -> (S <= y)%Z ->
           exists z, z ∈ fys /\ (y <= z)%Z /\ SAFEGUARD_THRESHOLD <= annual z).
Proof.
  intros fys annual S. unfold find_exit_date.
  set (l := py_sorted Z.leb (unique (map (fun r => date_to_fy (Metrics.Date r)) monthly))).
  assert (Hl : forall y, y ∈ l <-> y ∈ fys).
  { intros y. subst l fys. rewrite elem_of_py_sorted, elem_of_unique. reflexivity. }
  assert (Hsorted : StronglySorted Z.lt l).
  { apply sorted_leb_NoDup_lt.
    - apply py_sorted_sorted; [exact Zleb_total | exact Zleb_trans].
    - apply NoDup_py_sorted, NoDup_unique. }
  pose proof (exit_loop_spec S (fun fy => Qltb (annual fy) SAFEGUARD_THRESHOLD) l Hsorted)
    as Hspec.
  cbv beta in Hspec. fold annual. fold S.
  destruct (fold_left _ l None) as [e|].
  - destruct Hspec as (He & HS & Hrun & Hbreak). split.
    + destruct (Z.eqb_spec e 0) as [E0|E0]; [discriminate|].
      intros d [= <-]. exists e. split; [reflexivity|]. split; [exact E0|].
      split; [apply Hl, He|]. split; [exact HS|]. split.
      * intros y Hy Hey. apply Qltb_lt, Hrun; [apply Hl, Hy | exact Hey].
      * intros y Hy HSy Hye.
        destruct (Hbreak y (proj2 (Hl y) Hy) HSy Hye) as (z & Hz & Hyz & Hbz).
        exists z. split; [apply Hl, Hz|]. split; [exact Hyz|]. apply Qltb_ge, Hbz.
    + destruct (Z.eqb_spec e 0) as [E0|E0]; [|discriminate].
      intros _. left. apply Hl. rewrite <- E0. exact He.
  - split; [discriminate|]. intros _. right. intros y Hy HSy.
    destruct (Hspec y (proj2 (Hl y) Hy) HSy) as (z & Hz & Hyz & Hbz).
    exists z. split; [apply Hl, Hz|]. split; [exact Hyz|]. apply Qltb_ge, Hbz.
Qed.

(** X19. The exit date, when there is one, is 1 July at the start of a
    fiscal year e of the table, not before the fiscal year of the Safeguard
    start, such that e and every later fiscal year of the table are below the
    threshold, while any earlier eligible year is followed, before e, by a
    year that reaches the threshold: e starts the final unbroken run of years
    below the threshold.  For dates with a positive year there is no exit
    date only if every eligible year is itself, or is followed by, a year that
    reaches the threshold; in particular there is none when the last fiscal
    year of the table is eligible and reaches the threshold. *)
Theorem X19_find_exit_date (monthly : list Metrics.row) (safeguard_start_date : date) :
  let fys := map (fun r => date_to_fy (Metrics.Date r)) monthly in
  let annual fy :=
    Qsum (map Metrics.Scope1_tCO2e
              (List.filter (fun r => (date_to_fy (Metrics.Date r) =? fy)%Z) monthly)) in
  let S := date_to_fy safeguard_start_date in
  (forall d, find_exit_date monthly safeguard_start_date = Some d ->
     exists e,
       d = fst (fy_to_date_range e) /\ date_to_fy d = e
       /\ e ∈ fys /\ (S <= e)%Z
       /\ (forall y, y ∈ fys -> (e <= y)%Z -> annual y < 100000)
       /\ (forall y, y ∈ fys -> (S <= y)%Z -> (y < e)%Z ->
             exists z, z ∈ fys /\ (y <= z < e)%Z /\ 100000 <= annual z))
  /\ ((forall r, r ∈ monthly -> (1 <= year (Metrics.Date r))%Z) ->
      find_exit_date monthly safeguard_start_date = None ->
      forall y, y ∈ fys -> (S <= y)%Z ->
        exists z, z ∈ fys /\ (y <= z)%Z /\ 100000 <= annual z)
  /\ (forall z, z ∈ fys -> (forall y, y ∈ fys -> (y <= z)%Z) -> (S <= z)%Z ->
        100000 <= annual z ->
        find_exit_date monthly safeguard_start_date = None).
Proof.
  intros fys annual S.
  destruct (find_exit_date_spec monthly safeguard_start_date) as [Hsome Hnone].
  fold fys in Hsome, Hnone. fold annual in Hsome, Hnone. fold S in Hsome, Hnone.
  unfold SAFEGUARD_THRESHOLD in Hsome, Hnone.
  split; [|split].
  - intros d Hd. destruct (Hsome d Hd) as (e & -> & _ & He & HS & Hrun & Hbreak).
    exists e. split; [reflexivity|].
    split; [unfold date_to_fy, NGER_FY_START_MONTH; cbn [month year]; simpl; lia|].
    auto.
  - intros Hyear Hd. destruct (Hnone Hd) as [H0|H]; [|exact H].
    exfalso. subst fys. apply list_elem_of_fmap in H0 as (r & E & Hr).
    specialize (Hyear r Hr). unfold date_to_fy, NGER_FY_START_MONTH in E.
    destruct (7 <=? month (Metrics.Date r))%Z; lia.
  - intros z Hz Hmax HSz Hzt.
    destruct (find_exit_date monthly safeguard_start_date) as [d|] eqn:Hd;
      [|reflexivity].
    exfalso. destruct (Hsome d eq_refl) as (e & _ & _ & He & _ & Hrun & _).
    specialize (Hrun z Hz (Hmax e He)). exact (Qlt_not_le _ _ Hrun Hzt).
Qed.

Lemma X19_find_exit_date_witness :
  find_exit_date (Metrics.rows example_metrics_optin) SAFEGUARD_START_DATE
  = Some (mkdate 2028 7 1)
  /\ (exists e, mkdate 2028 7 1 = fst (fy_to_date_range e)
                /\ date_to_fy (mkdate 2028 7 1) = e)
  /\ find_exit_date (Metrics.rows example_metrics) SAFEGUARD_START_DATE = None.
Proof.
  assert (E : find_exit_date (Metrics.rows example_metrics_optin) SAFEGUARD_START_DATE
              = Some (mkdate 2028 7 1)) by (vm_compute; reflexivity).
  split; [exact E|]. split.
  - destruct (proj1 (X19_find_exit_date (Metrics.rows example_metrics_optin)
                                        SAFEGUARD_START_DATE) _ E)
      as (e & H1 & H2 & _).
    exists e. auto.
  - apply (proj2 (proj2 (X19_find_exit_date (Metrics.rows example_metrics)
                                            SAFEGUARD_START_DATE)) 2026%Z).
    + apply list_elem_of_In. vm_compute. auto 10.
    + intros y Hy.
      assert (Hl : map (fun r => date_to_fy (Metrics.Date r))
                       (Metrics.rows example_metrics)
                   = [2024; 2024; 2025; 2025; 2026]%Z) by (vm_compute; reflexivity).
      rewrite Hl in Hy.
      repeat (apply elem_of_cons in Hy as [->|Hy]; [lia|]). inversion Hy.
    + vm_compute. discriminate.
    + vm_compute. discriminate.
Defined.

(** ** The exit-year column *)

Lemma fold_left_ext {A B} (f g : A -> B -> A) (l : list B) (a : A) :
  (forall a x, f a x = g a x) -> fold_left f l a = fold_left g l a.
Proof.
  intros H. revert a. induction l as [|x l IH]; intros a; cbn [fold_left];
    [reflexivity|].
  rewrite H. apply IH.
Qed.

Lemma filter_map_ext {R A B} (k : R -> A) (v : R -> B) (p : A -> bool)
      (l l' : list R) :
  map (fun r => (k r, v r)) l' = map (fun r => (k r, v r)) l ->
  map v (List.filter (fun r => p (k r)) l') = map v (List.filter (fun r => p (k r)) l).
Proof.
  revert l'. induction l as [|a l IH]; intros [|b l']; cbn [map]; try discriminate;
    [reflexivity|].
  intros H.
  pose proof (f_equal (hd (k a, v a)) H) as Hh.
  pose proof (f_equal (@tl _) H) as Ht. cbn [hd tl] in Hh, Ht.
  apply pair_equal_spec in Hh as [Hk Hv].
  cbn [List.filter]. rewrite Hk. destruct (p (k a)); cbn [map];
    rewrite ?Hv, (IH l' Ht); reflexivity.
Qed.

Lemma find_exit_date_ext (df df' : list Metrics.row) (start : date) :
  map (fun r => (Metrics.Date r, Metrics.Scope1_tCO2e r)) df'
  = map (fun r => (Metrics.Date r, Metrics.Scope1_tCO2e r)) df ->
  find_exit_date df' start = find_exit_date df start.
Proof.
  intros H. unfold find_exit_date.
  assert (Hd : map (fun r => date_to_fy (Metrics.Date r)) df'
               = map (fun r => date_to_fy (Metrics.Date r)) df).
  { pose proof (f_equal (map (fun p : date * Q => date_to_fy (fst p))) H) as Hm.
    rewrite !map_map in Hm. exact Hm. }
  rewrite Hd.
  erewrite fold_left_ext; [reflexivity|].
  intros a fy. cbv beta.
  rewrite (filter_map_ext Metrics.Date Metrics.Scope1_tCO2e
             (fun d => (date_to_fy d =? fy)%Z) df df' H).
  reflexivity.
Qed.

Lemma fy_sum_by_date (val : Metrics.row -> Q) (df : list Metrics.row) (fy : Z) :
  (forall r, r ∈ df -> Metrics._fy r = date_to_fy (Metrics.Date r)) ->
  fy_sum val df fy
  = Qsum (map val (List.filter (fun r => (date_to_fy (Metrics.Date r) =? fy)%Z) df)).
Proof.
  intros H. unfold fy_sum. f_equal. f_equal.
  apply filter_ext_elem. intros r Hr. rewrite (H r Hr). reflexivity.
Qed.

(** X20. Every row of the metrics table carries the same exit year: the
    fiscal year of the exit date found on the table itself.  When there is
    one, it is FY2024 or later and a fiscal year of the table, and every row
    of that or a later fiscal year is below the threshold: its Safeguard flag
    is off and its SMC phase is not Safeguard. *)
Theorem X20_exit_fy_column
        (monthly : list Monthly.row) (fsei_rom fsei_elec : Q)
        (credit_start_date d1 d2 d3 : date) (rate2 : option Q) :
  let out := Metrics.rows (calculate_safeguard_metrics
                             monthly fsei_rom fsei_elec credit_start_date
                             d1 d2 d3 rate2) in
  (forall r, r ∈ out ->
     Metrics.Exit_FY r
     = option_map date_to_fy (find_exit_date out SAFEGUARD_START_DATE))
  /\ (forall r e, r ∈ out -> Metrics.Exit_FY r = Some e ->
        (2024 <= e)%Z
        /\ (exists r0, r0 ∈ out /\ date_to_fy (Metrics.Date r0) = e)
        /\ forall r', r' ∈ out -> (e <= date_to_fy (Metrics.Date r'))%Z ->
             fy_sum Metrics.Scope1_tCO2e out (date_to_fy (Metrics.Date r')) < 100000
             /\ Metrics.In_Safeguard r' = false
             /\ Metrics.SMC_Phase r' <> Safeguard).
Proof.
  intros out.
  assert (Hcol : forall r, r ∈ out ->
            Metrics.Exit_FY r
            = option_map date_to_fy (find_exit_date out SAFEGUARD_START_DATE)).
  { subst out. destruct (base_rows monthly) as [|r0 l] eqn:E.
    { rewrite metrics_rows_empty by exact E. intros r Hr. inversion Hr. }
    rewrite metrics_rows_nonempty by (rewrite E; discriminate).
    set (bs := baseline_stage fsei_rom fsei_elec rate2 d1 d2 d3 monthly).
    unfold smc_stage.
    set (df9 := apply_smc_rules _).
    assert (Hext : find_exit_date (cumsum_from 0 (assign_exit_fy df9))
                                  SAFEGUARD_START_DATE
                   = find_exit_date df9 SAFEGUARD_START_DATE).
    { apply find_exit_date_ext.
      rewrite cumsum_from_keeps, assign_exit_fy_keeps by reflexivity. reflexivity. }
    rewrite Hext.
    assert (Hmap : map Metrics.Exit_FY (cumsum_from 0 (assign_exit_fy df9))
                   = map (fun _ => option_map date_to_fy
                                     (find_exit_date df9 SAFEGUARD_START_DATE)) df9).
    { rewrite cumsum_from_keeps by reflexivity.
      unfold assign_exit_fy, assign_all. rewrite map_map. reflexivity. }
    intros r Hr.
    assert (Hin : Metrics.Exit_FY r
                  ∈ map Metrics.Exit_FY (cumsum_from 0 (assign_exit_fy df9)))
      by (apply list_elem_of_fmap; eauto).
    rewrite Hmap in Hin. apply list_elem_of_fmap in Hin as (x & -> & _).
    reflexivity. }
  split; [exact Hcol|].
  intros r e Hr He. rewrite (Hcol r Hr) in He.
  destruct (find_exit_date out SAFEGUARD_START_DATE) as [d|] eqn:Hd; [|discriminate].
  cbn [option_map] in He. injection He as He.
  destruct (metrics_rows_baseline_ok fsei_rom fsei_elec credit_start_date
              d1 d2 d3 rate2 monthly) as [_ Hfy].
  destruct (metrics_rows_smc fsei_rom fsei_elec credit_start_date d1 d2 d3 rate2 monthly)
    as [_ Hphase].
  pose proof (metrics_rows_in_safeguard fsei_rom fsei_elec credit_start_date
                d1 d2 d3 rate2 monthly) as Hflag.
  fold out in Hfy, Hphase, Hflag. rewrite Forall_forall in Hfy, Hphase, Hflag.
  destruct (find_exit_date_spec out SAFEGUARD_START_DATE) as [Hsome _].
  destruct (Hsome d Hd) as (e' & Hde & _ & Hin & HS & Hrun & _).
  assert (Ee : e' = e).
  { subst d. rewrite <- He. unfold date_to_fy, NGER_FY_START_MONTH.
    cbn [month year]. simpl. lia. }
  subst e'.
  split; [exact HS|]. split.
  - apply list_elem_of_fmap in Hin as (r0 & E0 & Hr0). eauto.
  - intros r' Hr' Hle.
    assert (Hlt : fy_sum Metrics.Scope1_tCO2e out (date_to_fy (Metrics.Date r'))
                  < 100000).
    { rewrite (fy_sum_by_date _ _ _ Hfy). apply Hrun; [|exact Hle].
      apply list_elem_of_fmap. eauto. }
    split; [exact Hlt|]. split.
    + rewrite (Hflag r' Hr'), (Hfy r' Hr').
      destruct (Qgeb _ SAFEGUARD_THRESHOLD) eqn:Eg; [|reflexivity].
      apply Qgeb_ge in Eg. exfalso. exact (Qlt_not_le _ _ Hlt Eg).
    + intros Hs. specialize (Hphase r' Hr'). unfold phase_ok in Hphase.
      rewrite Hs, (Hfy r' Hr') in Hphase.
      pose proof (classify_fy_spec (fy_sum Metrics.Scope1_tCO2e out) (covered_fys out)
                    credit_start_date (date_to_fy (Metrics.Date r'))) as Hspec.
      cbv zeta in Hspec. rewrite <- Hphase in Hspec. destruct Hspec as [_ Hge].
      exact (Qlt_not_le _ _ Hlt Hge).
Qed.

Lemma X20_exit_fy_column_witness :
  exists r,
    r ∈ Metrics.rows example_metrics_optin
    /\ Metrics.Exit_FY r = Some 2029%Z
    /\ Metrics.In_Safeguard r = false.
Proof.
  destruct (Metrics.rows example_metrics_optin !! 3%nat) as [r|] eqn:E;
    [|vm_compute in E; discriminate].
  assert (Hin : r ∈ Metrics.rows example_metrics_optin)
    by (eapply list_elem_of_lookup_2; exact E).
  assert (He : Metrics.Exit_FY r = Some 2029%Z)
    by (vm_compute in E; injection E as E; subst r; reflexivity).
  destruct (proj2 (X20_exit_fy_column
                     example_monthly_optin FSEI_ROM FSEI_ELEC CREDIT_START_DATE
                     (mkdate 2037 3 31) (mkdate 2039 12 31) (mkdate 2044 12 31) None)
                  r 2029%Z Hin He) as (_ & _ & Hrows).
  exists r. split; [exact Hin|]. split; [exact He|].
  apply (Hrows r Hin).
  vm_compute in E. injection E as E. subst r. vm_compute. discriminate.
Defined.

(** ** Operational phase labels *)

Lemma date_leb_false (a b : date) : date_leb a b = false <-> date_ltb b a = true.
Proof. unfold date_leb. destruct (date_ltb b a); cbn; split; congruence. Qed.

Ltac chain_dates :=
  repeat match goal with
    | H : ?a = true -> ?b = true, E : ?a = true |- _ => specialize (H E)
    end;
  congruence.

(** X21. The phase label never goes back in time: for a later date it is the
    same or a later phase, in the order Mining, Mining (Grid), Processing,
    Rehabilitation, Closed.  A date is labelled Mining (Grid) exactly when it
    is on or before the end of mining and on or after a given grid-connection
    date, and Processing exactly when it is after the end of mining and on or
    before the end of processing; when the three end dates are in order,
    Rehabilitation is exactly the time after the end of processing up to the
    end of rehabilitation and Closed the time after it. *)
Theorem X21_phase_name_order
        (end_mining_date end_processing_date end_rehabilitation_date : date)
        (grid_connected_date : option date) :
  let phase d := get_phase_name d end_mining_date end_processing_date
                                end_rehabilitation_date grid_connected_date in
  (forall d d', date_leb d d' = true ->
                (phase_rank (phase d) <= phase_rank (phase d'))%nat)
  /\ (forall d, phase d = Mining_Grid
                <-> date_leb d end_mining_date = true
                    /\ exists g, grid_connected_date = Some g /\ date_geb d g = true)
  /\ (forall d, phase d = Processing
                <-> date_ltb end_mining_date d = true
                    /\ date_leb d end_processing_date = true)
  /\ (date_leb end_mining_date end_processing_date = true ->
      date_leb end_processing_date end_rehabilitation_date = true ->
      forall d,
        (phase d = Rehabilitation
         <-> date_ltb end_processing_date d = true
             /\ date_leb d end_rehabilitation_date = true)
        /\ (phase d = Closed <-> date_ltb end_rehabilitation_date d = true))
  /\ (forall d g,
        get_phase_name_for_date d end_mining_date end_processing_date
                                end_rehabilitation_date g
        = get_phase_name d end_mining_date end_processing_date
                         end_rehabilitation_date (Some g)).
Proof.
  intros phase. subst phase. cbv beta.
  set (m := end_mining_date). set (p := end_processing_date).
  set (r := end_rehabilitation_date).
  split; [|split; [|split; [|split]]].
  - intros d d' Hle.
    assert (Fm : date_leb d' m = true -> date_leb d m = true)
      by (intros H; eapply date_leb_trans; eauto).
    assert (Fp : date_leb d' p = true -> date_leb d p = true)
      by (intros H; eapply date_leb_trans; eauto).
    assert (Fr : date_leb d' r = true -> date_leb d r = true)
      by (intros H; eapply date_leb_trans; eauto).
    unfold get_phase_name. destruct grid_connected_date as [g|].
    + assert (Fg : date_geb d g = true -> date_geb d' g = true)
        by (unfold date_geb; intros H; eapply date_leb_trans; eauto).
      destruct (date_leb d m) eqn:E1, (date_leb d' m) eqn:E2,
        (date_leb d p) eqn:E3, (date_leb d' p) eqn:E4,
        (date_leb d r) eqn:E5, (date_leb d' r) eqn:E6,
        (date_geb d g) eqn:E7, (date_geb d' g) eqn:E8;
        cbn [phase_rank]; try lia; exfalso; chain_dates.
    + destruct (date_leb d m) eqn:E1, (date_leb d' m) eqn:E2,
        (date_leb d p) eqn:E3, (date_leb d' p) eqn:E4,
        (date_leb d r) eqn:E5, (date_leb d' r) eqn:E6;
        cbn [phase_rank]; try lia; exfalso; chain_dates.
  - intros d. unfold get_phase_name. split.
    + destruct (date_leb d m); [|destruct (date_leb d p);
                                  [|destruct (date_leb d r)]; discriminate].
      destruct grid_connected_date as [g|]; [|discriminate].
      destruct (date_geb d g) eqn:Eg; [|discriminate]. eauto.
    + intros [-> (g & -> & ->)]. reflexivity.
  - intros d. unfold get_phase_name. rewrite <- date_leb_false. split.
    + destruct (date_leb d m).
      * destruct grid_connected_date as [g|]; [destruct (date_geb d g)|]; discriminate.
      * destruct (date_leb d p); [auto|]. destruct (date_leb d r); discriminate.
    + intros [-> ->]. reflexivity.
  - intros Hmp Hpr d.
    assert (Fm : date_leb d m = true -> date_leb d p = true)
      by (intros H; eapply date_leb_trans; eauto).
    assert (Fp : date_leb d p = true -> date_leb d r = true)
      by (intros H; eapply date_leb_trans; eauto).
    unfold get_phase_name. rewrite <- !date_leb_false.
    destruct (date_leb d m) eqn:E1, (date_leb d p) eqn:E2, (date_leb d r) eqn:E3;
      try (exfalso; chain_dates);
      try (destruct grid_connected_date as [g|]; [destruct (date_geb d g)|]);
      repeat split; try discriminate; try reflexivity;
      intros; try discriminate; intuition discriminate.
  - reflexivity.
Qed.

Lemma X21_phase_name_witness :
  let phase d := get_phase_name d (mkdate 2037 3 31) (mkdate 2039 12 31)
                                (mkdate 2044 12 31) (Some DEFAULT_GRID_CONNECTION_DATE) in
  date_leb (mkdate 2028 1 1) (mkdate 2041 6 1) = true
  /\ (phase_rank (phase (mkdate 2028 1 1)) <= phase_rank (phase (mkdate 2041 6 1)))%nat
  /\ phase (mkdate 2041 6 1) = Rehabilitation.
Proof.
  intros phase.
  destruct (X21_phase_name_order (mkdate 2037 3 31) (mkdate 2039 12 31)
              (mkdate 2044 12 31) (Some DEFAULT_GRID_CONNECTION_DATE))
    as (Hmono & _ & _ & Hordered & _).
  split; [reflexivity|]. split; [apply Hmono; reflexivity|].
  apply (proj1 (Hordered eq_refl eq_refl (mkdate 2041 6 1))). split; reflexivity.
Defined.

(** ** The projection builder: which ledger rows matter *)

Lemma ledger_inputs_eq (r r' : Ledger.row) :
  ledger_inputs r' = ledger_inputs r ->
  Ledger.Date r' = Ledger.Date r /\ Ledger.DataSet r' = Ledger.DataSet r
  /\ Ledger.Description r' = Ledger.Description r.
Proof.
  unfold ledger_inputs. intros H.
  repeat (apply pair_equal_spec in H as [H ?]). auto.
Qed.

Lemma map_same_inputs {A} (h : Ledger.row -> A) (l l' : list Ledger.row) :
  (forall r r', ledger_inputs r' = ledger_inputs r -> h r' = h r) ->
  map ledger_inputs l' = map ledger_inputs l -> map h l' = map h l.
Proof.
  intros Hh. revert l'. induction l as [|r l IH]; intros [|r' l']; cbn [map];
    try discriminate; [reflexivity|].
  intros H.
  pose proof (f_equal (hd (ledger_inputs r)) H) as Hr.
  pose proof (f_equal (@tl _) H) as Ht. cbn [hd tl] in Hr, Ht.
  rewrite (Hh r r' Hr), (IH l' Ht). reflexivity.
Qed.

Lemma filter_same_inputs (p : Ledger.row -> bool) (l l' : list Ledger.row) :
  (forall r r', ledger_inputs r' = ledger_inputs r -> p r' = p r) ->
  map ledger_inputs l' = map ledger_inputs l ->
  map ledger_inputs (List.filter p l') = map ledger_inputs (List.filter p l).
Proof.
  intros Hp. revert l'. induction l as [|r l IH]; intros [|r' l']; cbn [map];
    try discriminate; [reflexivity|].
  intros H.
  pose proof (f_equal (hd (ledger_inputs r)) H) as Hr.
  pose proof (f_equal (@tl _) H) as Ht. cbn [hd tl] in Hr, Ht.
  cbn [List.filter]. rewrite (Hp r r' Hr).
  destruct (p r); cbn [map]; rewrite ?Hr, (IH l' Ht); reflexivity.
Qed.

Lemma recalculate_emissions_same_inputs (l l' : list Ledger.row) (s : NGA.store) :
  map ledger_inputs l' = map ledger_inputs l ->
  recalculate_emissions l' s = recalculate_emissions l s.
Proof.
  intros H. unfold recalculate_emissions.
  rewrite (map_same_inputs (fun r => date_to_fy (Ledger.Date r)) l l');
    [| |exact H].
  - destruct (build_year_factor_map s _ "QLD") as [m|e]; [|reflexivity].
    cbn [bind]. rewrite (apply_emissions_same_inputs m _ l l' H). reflexivity.
  - intros r r' Hr. apply ledger_inputs_eq in Hr as (-> & _). reflexivity.
Qed.

Lemma build_projection_cong
      (df df' : list Ledger.row) (dataset : string) (nga_csv : list NGA.row)
      (d1 d2 d3 : date) (fsr fse : Q) (c : date) (rate2 : option Q) :
  let actuals := List.filter (fun r => String.eqb (Ledger.DataSet r) dataset) df in
  let fill (l : list Ledger.row) :=
    List.filter
      (fun r => negb (bool_decide
                        ((Ledger.Date r, Ledger.Description r)
                         ∈ map (fun r => (Ledger.Date r, Ledger.Description r)) actuals)))
      (List.filter (fun r => String.eqb (Ledger.DataSet r) "Budget") l) in
  List.filter (fun r => String.eqb (Ledger.DataSet r) dataset) df' = actuals ->
  (List.filter (fun r => String.eqb (Ledger.DataSet r) "Budget") df' = []
   <-> List.filter (fun r => String.eqb (Ledger.DataSet r) "Budget") df = []) ->
  recalculate_emissions (fill df') (_load nga_csv)
  = recalculate_emissions (fill df) (_load nga_csv) ->
  build_projection df' dataset nga_csv d1 d2 d3 fsr fse c rate2
  = build_projection df dataset nga_csv d1 d2 d3 fsr fse c rate2.
Proof.
  intros actuals fill Hact Hbud Hrec. unfold build_projection.
  rewrite Hact. fold actuals.
  destruct (length actuals =? 0)%nat; [reflexivity|].
  destruct (List.filter (fun r => String.eqb (Ledger.DataSet r) "Budget") df)
    as [|b0 bs] eqn:Eb.
  - rewrite (proj2 Hbud eq_refl). reflexivity.
  - destruct (List.filter (fun r => String.eqb (Ledger.DataSet r) "Budget") df')
      as [|b1 bs'] eqn:Eb'.
    + destruct Hbud as [Hbud _]. discriminate (Hbud eq_refl).
    + cbn [length Nat.eqb].
      unfold fill in Hrec. rewrite Eb, Eb' in Hrec. rewrite Hrec. reflexivity.
Qed.

(** X22. The projection builder returns the empty table when the ledger has
    no row of the requested data set or no budget row.  A budget row for a
    date and description that an actual row already covers has no influence
    on the projection, provided the ledger holds a budget row besides it; and
    the emission columns of rows outside the requested data set have no
    influence either, those of the budget rows being recalculated. *)
Theorem X22_build_projection_inputs
        (df : list Ledger.row) (dataset : string) (nga_csv : list NGA.row)
        (d1 d2 d3 : date) (fsei_rom fsei_elec : Q) (credit_start_date : date)
        (rate2 : option Q) :
  let run df := build_projection df dataset nga_csv d1 d2 d3 fsei_rom fsei_elec
                                 credit_start_date rate2 in
  let actuals := List.filter (fun r => String.eqb (Ledger.DataSet r) dataset) df in
  let budget := List.filter (fun r => String.eqb (Ledger.DataSet r) "Budget") df in
  (actuals = [] \/ budget = [] -> run df = Ok empty_frame)
  /\ (forall l1 l2 b a,
        df = l1 ++ l2 ->
        Ledger.DataSet b = "Budget"%string -> dataset <> "Budget"%string ->
        budget <> [] ->
        a ∈ actuals -> Ledger.Date a = Ledger.Date b ->
        Ledger.Description a = Ledger.Description b ->
        run (l1 ++ b :: l2) = run df)
  /\ (forall df',
        Forall2 (fun r r' => ledger_inputs r' = ledger_inputs r
                             /\ (Ledger.DataSet r = dataset -> r' = r)) df df' ->
        run df' = run df).
Proof.
  intros run actuals budget. subst run. cbv beta.
  split; [|split].
  - intros H. unfold build_projection. fold actuals. fold budget.
    destruct H as [-> | ->]; [reflexivity|].
    destruct (length actuals =? 0)%nat; reflexivity.
  - intros l1 l2 b a -> Hb Hds Hbud Ha Hdate Hdesc.
    assert (Hbd : String.eqb (Ledger.DataSet b) dataset = false).
    { rewrite Hb. apply String.eqb_neq. congruence. }
    assert (Hbb : String.eqb (Ledger.DataSet b) "Budget" = true).
    { rewrite Hb. reflexivity. }
    apply build_projection_cong.
    + rewrite !List.filter_app. cbn [List.filter]. rewrite Hbd. reflexivity.
    + rewrite List.filter_app. cbn [List.filter]. rewrite Hbb. fold budget.
      split; [|intros H; contradiction].
      intros H. apply app_eq_nil in H as [_ H]. discriminate H.
    + f_equal. fold actuals. rewrite !List.filter_app. cbn [List.filter]. rewrite Hbb.
      cbn [List.filter].
      rewrite bool_decide_eq_true_2; [reflexivity|].
      apply list_elem_of_fmap. exists a. split; [|exact Ha]. congruence.
  - intros df' Hrel. subst actuals budget.
    assert (Hin : map ledger_inputs df' = map ledger_inputs df).
    { induction Hrel as [|r r' l l' [Hr _] _ IH]; cbn [map]; [reflexivity|].
      rewrite Hr, IH. reflexivity. }
    assert (Hact : List.filter (fun r => String.eqb (Ledger.DataSet r) dataset) df'
                   = List.filter (fun r => String.eqb (Ledger.DataSet r) dataset) df).
    { clear Hin.
      induction Hrel as [|r r' l l' [Hr Hsame] _ IH]; cbn [List.filter];
        [reflexivity|].
      apply ledger_inputs_eq in Hr as (_ & Hd & _). rewrite Hd.
      destruct (String.eqb_spec (Ledger.DataSet r) dataset) as [E|E].
      - rewrite (Hsame E), IH. reflexivity.
      - exact IH. }
    assert (Hbin : map ledger_inputs
                     (List.filter (fun r => String.eqb (Ledger.DataSet r) "Budget") df')
                   = map ledger_inputs
                       (List.filter (fun r => String.eqb (Ledger.DataSet r) "Budget")
                                    df)).
    { apply filter_same_inputs; [|exact Hin].
      intros r r' Hr. apply ledger_inputs_eq in Hr as (_ & -> & _). reflexivity. }
    apply build_projection_cong.
    + exact Hact.
    + split; intros H; rewrite H in Hbin.
      * destruct (List.filter (fun r => String.eqb (Ledger.DataSet r) "Budget") df);
          [reflexivity | discriminate].
      * destruct (List.filter (fun r => String.eqb (Ledger.DataSet r) "Budget") df');
          [reflexivity | discriminate].
    + apply recalculate_emissions_same_inputs.
      apply filter_same_inputs; [|exact Hbin].
      intros r r' Hr. apply ledger_inputs_eq in Hr as (-> & _ & ->). reflexivity.
Qed.

Lemma X22_build_projection_witness :
  let run df := build_projection df "Actual" example_nga_csv
                  (mkdate 2037 3 31) (mkdate 2039 12 31) (mkdate 2044 12 31)
                  FSEI_ROM FSEI_ELEC CREDIT_START_DATE None in
  let shadowed := example_budget_row (mkdate 2024 1 1) "Ore mined" "ROM" None 900 in
  run example_ledger_gap = Ok empty_frame
  /\ run (example_ledger_gap
          ++ shadowed
             :: [example_budget_row (mkdate 2024 4 1) "Diesel" "Hauling"
                                    (Some "Diesel oil") 15])
     = run example_ledger_budget.
Proof.
  intros run shadowed. split.
  - apply (proj1 (X22_build_projection_inputs example_ledger_gap "Actual"
                    example_nga_csv (mkdate 2037 3 31) (mkdate 2039 12 31)
                    (mkdate 2044 12 31) FSEI_ROM FSEI_ELEC CREDIT_START_DATE None)).
    right. reflexivity.
  - apply (proj1 (proj2 (X22_build_projection_inputs example_ledger_budget "Actual"
                    example_nga_csv (mkdate 2037 3 31) (mkdate 2039 12 31)
                    (mkdate 2044 12 31) FSEI_ROM FSEI_ELEC CREDIT_START_DATE None))
             example_ledger_gap _ shadowed
             (example_ledger_row (mkdate 2024 1 1) "Ore mined" "ROM" None 1000)).
    + reflexivity.
    + reflexivity.
    + discriminate.
    + discriminate.
    + apply list_elem_of_In. left. reflexivity.
    + reflexivity.
    + reflexivity.
Defined.
